(** * The file monitor of [file_monitor.py]: recorder, report scheduler, reports

    A shallow embedding of [FileMonitorHandler] (the per-day bucketed change
    log) and of [FileMonitor] (next report time, report rendering, start and
    stop), and of the [MonitorManager] of [monitor_manager.py] that starts
    and stops the monitor as a process, followed by the properties of the
    specification that concern them and by further properties of the code.

    Conventions.
    - Python [int] is [Z]; [//] and [%] are [Z.div] and [Z.modulo] (both floor).
    - Python [str] is [string], holding the UTF-8 bytes of the text.
    - A [dict] is an association list in insertion order with distinct keys:
      iteration order is observable here (it decides the order of the groups of
      a report and the order of records with equal timestamps).
    - Code that can raise returns a [result]; code that also changes the
      monitor threads the monitor through ([M]).
    - Every reading of the clock ([datetime.datetime.now()]) is an argument
      of the function that takes it. *)

From Stdlib Require Import ZArith List String Ascii Bool Lia.
From Stdlib Require Import Permutation Sorted DecimalString.
Import ListNotations.

Open Scope string_scope.
Open Scope list_scope.
Open Scope Z_scope.

Notation "a +++ b" := (String.append a b) (at level 60, right associativity).

(** ** Exceptions *)

Inductive exc_class : Type :=
| OverflowError
| ValueError
| UnicodeEncodeError
| OSError
| KeyboardInterrupt.

(** An exception object: its class and [str(e)]. *)
Record exn : Type := mkexn { exc_cls : exc_class; exc_msg : string }.

(** [isinstance(e, Exception)]: of the classes above only [KeyboardInterrupt]
    derives from [BaseException] directly. *)
Definition is_Exception (e : exn) : bool :=
  match exc_cls e with
  | KeyboardInterrupt => false
  | _ => true
  end.

Inductive result (A : Type) : Type :=
| Ok (a : A)
| Raise (e : exn).
Arguments Ok {A} a.
Arguments Raise {A} e.

Definition rbind {A B : Type} (r : result A) (k : A -> result B) : result B :=
  match r with
  | Ok a => k a
  | Raise e => Raise e
  end.

Notation "'let?' x ':=' r 'in' k" := (rbind r (fun x => k))
  (at level 10, x name, r at level 100, k at level 200).

(** ** [datetime]: dates, times of day, time stamps

    The classes of Python's [datetime] module, with the functions of its
    reference implementation ([_is_leap], [_ymd2ord], [_ord2ymd], ...). *)

Record date : Type := mkdate { year : Z; month : Z; day : Z }.

Record time : Type :=
  mktime { hour : Z; minute : Z; second : Z; microsecond : Z }.

(** A naive [datetime.datetime]: a date and a time of day. *)
Record datetime : Type := mkdatetime { dt_date : date; dt_time : time }.

(** [datetime.datetime.combine(d, t)] *)
Definition datetime_combine (d : date) (t : time) : datetime := mkdatetime d t.

(** [datetime.time(h, 0)] *)
Definition time_hm (h m : Z) : time := mktime h m 0 0.

Definition midnight : time := mktime 0 0 0 0.

Definition MINYEAR : Z := 1.
Definition MAXYEAR : Z := 9999.
Definition _MAXORDINAL : Z := 3652059.

Definition _is_leap (y : Z) : bool :=
  (y mod 4 =? 0) && (negb (y mod 100 =? 0) || (y mod 400 =? 0)).

Definition _DAYS_IN_MONTH (m : Z) : Z :=
  match m with
  | 1 => 31 | 2 => 28 | 3 => 31 | 4 => 30 | 5 => 31 | 6 => 30
  | 7 => 31 | 8 => 31 | 9 => 30 | 10 => 31 | 11 => 30 | 12 => 31
  | _ => -1
  end.

Definition _DAYS_BEFORE_MONTH (m : Z) : Z :=
  match m with
  | 1 => 0 | 2 => 31 | 3 => 59 | 4 => 90 | 5 => 120 | 6 => 151
  | 7 => 181 | 8 => 212 | 9 => 243 | 10 => 273 | 11 => 304 | 12 => 334
  | _ => -1
  end.

Definition _days_before_year (y : Z) : Z :=
  let y := y - 1 in
  y * 365 + y / 4 - y / 100 + y / 400.

Definition _days_in_month (y m : Z) : Z :=
  if (m =? 2) && _is_leap y then 29 else _DAYS_IN_MONTH m.

Definition _days_before_month (y m : Z) : Z :=
  _DAYS_BEFORE_MONTH m + (if (2 <? m) && _is_leap y then 1 else 0).

Definition _ymd2ord (y m d : Z) : Z :=
  _days_before_year y + _days_before_month y m + d.

Definition _DI400Y : Z := 146097.
Definition _DI100Y : Z := 36524.
Definition _DI4Y : Z := 1461.

Definition _ord2ymd (n : Z) : date :=
  let n := n - 1 in
  let n400 := n / _DI400Y in
  let n := n mod _DI400Y in
  let y := n400 * 400 + 1 in
  let n100 := n / _DI100Y in
  let n := n mod _DI100Y in
  let n4 := n / _DI4Y in
  let n := n mod _DI4Y in
  let n1 := n / 365 in
  let n := n mod 365 in
  let y := y + n100 * 100 + n4 * 4 + n1 in
  if (n1 =? 4) || (n100 =? 4) then mkdate (y - 1) 12 31
  else
    let leapyear := (n1 =? 3) && (negb (n4 =? 24) || (n100 =? 3)) in
    let m := Z.shiftr (n + 50) 5 in
    let preceding :=
      _DAYS_BEFORE_MONTH m + (if (2 <? m) && leapyear then 1 else 0) in
    if n <? preceding then
      let m := m - 1 in
      let preceding :=
        preceding
        - (_DAYS_IN_MONTH m + (if (m =? 2) && leapyear then 1 else 0)) in
      mkdate y m (n - preceding + 1)
    else mkdate y m (n - preceding + 1).

(** [d.toordinal()] and [date.fromordinal(n)] *)
Definition toordinal (d : date) : Z := _ymd2ord (year d) (month d) (day d).
Definition fromordinal (n : Z) : date := _ord2ymd n.

(** What the constructors [date(y, m, d)] and [time(h, m, s, us)] accept. *)
Definition valid_dateb (d : date) : bool :=
  (MINYEAR <=? year d) && (year d <=? MAXYEAR)
  && (1 <=? month d) && (month d <=? 12)
  && (1 <=? day d) && (day d <=? _days_in_month (year d) (month d)).

Definition valid_timeb (t : time) : bool :=
  (0 <=? hour t) && (hour t <? 24)
  && (0 <=? minute t) && (minute t <? 60)
  && (0 <=? second t) && (second t <? 60)
  && (0 <=? microsecond t) && (microsecond t <? 1000000).

Definition valid_date (d : date) : Prop := valid_dateb d = true.
Definition valid_time (t : time) : Prop := valid_timeb t = true.
Definition valid_datetime (dt : datetime) : Prop :=
  valid_date (dt_date dt) /\ valid_time (dt_time dt).

(** *** Comparison

    Python compares two dates, and two naive datetimes, field by field. *)

Definition lexc (c1 c2 : comparison) : comparison :=
  match c1 with
  | Eq => c2
  | _ => c1
  end.

Definition date_compare (a b : date) : comparison :=
  lexc (year a ?= year b) (lexc (month a ?= month b) (day a ?= day b)).

Definition time_compare (a b : time) : comparison :=
  lexc (hour a ?= hour b)
    (lexc (minute a ?= minute b)
       (lexc (second a ?= second b) (microsecond a ?= microsecond b))).

Definition datetime_compare (a b : datetime) : comparison :=
  lexc (date_compare (dt_date a) (dt_date b))
       (time_compare (dt_time a) (dt_time b)).

(** [a < b] and [a > b] on datetimes *)
Definition dt_ltb (a b : datetime) : bool :=
  match datetime_compare a b with Lt => true | _ => false end.
Definition dt_gtb (a b : datetime) : bool :=
  match datetime_compare a b with Gt => true | _ => false end.

Definition dt_lt (a b : datetime) : Prop := datetime_compare a b = Lt.
Definition dt_le (a b : datetime) : Prop := datetime_compare a b <> Gt.

Definition date_lt (a b : date) : Prop := date_compare a b = Lt.
Definition date_le (a b : date) : Prop := date_compare a b <> Gt.

(** *** [timedelta] and date arithmetic *)

(** A normalised [timedelta]: [0 <= seconds < 86400],
    [0 <= microseconds < 1000000]. *)
Record timedelta : Type :=
  mktimedelta { td_days : Z; td_seconds : Z; td_microseconds : Z }.

Definition overflow (msg : string) : exn := mkexn OverflowError msg.

(** [str(n)] for an [int]. *)
Definition str_of_int (n : Z) : string :=
  NilZero.string_of_int (Z.to_int n).

(** [timedelta(days=n)]: the constructor refuses more than 999999999 days,
    and a number of days that is no C [int] before that. *)
Definition timedelta_days (n : Z) : result timedelta :=
  if Z.abs n <=? 999999999 then Ok (mktimedelta n 0 0)
  else if (-2147483648 <=? n) && (n <=? 2147483647) then
    Raise (overflow ("days=" +++ str_of_int n
                     +++ "; must have magnitude <= 999999999"))
  else Raise (overflow "Python int too large to convert to C int").

(** The delta in microseconds, and the normalised delta of that many. *)
Definition td_total_microseconds (td : timedelta) : Z :=
  (td_days td * 86400 + td_seconds td) * 1000000 + td_microseconds td.

Definition td_of_microseconds (us : Z) : timedelta :=
  let s := us / 1000000 in
  mktimedelta (s / 86400) (s mod 86400) (us mod 1000000).

Definition time_microseconds (t : time) : Z :=
  ((hour t * 60 + minute t) * 60 + second t) * 1000000 + microsecond t.

Definition time_of_seconds (s us : Z) : time :=
  mktime (s / 3600) ((s mod 3600) / 60) ((s mod 3600) mod 60) us.

(** [dt + td] ([datetime.__add__]): the sum is taken on
    [timedelta(dt.toordinal(), hours=, minutes=, seconds=, microseconds=)];
    a day outside [1 .. _MAXORDINAL] raises [OverflowError]. *)
Definition datetime_add (dt : datetime) (td : timedelta) : result datetime :=
  let base :=
    toordinal (dt_date dt) * 86400000000 + time_microseconds (dt_time dt) in
  let delta := td_of_microseconds (base + td_total_microseconds td) in
  if (0 <? td_days delta) && (td_days delta <=? _MAXORDINAL) then
    Ok (datetime_combine (fromordinal (td_days delta))
          (time_of_seconds (td_seconds delta) (td_microseconds delta)))
  else Raise (overflow "date value out of range").

(** [dt - td] is [dt + (-td)]. *)
Definition datetime_sub (dt : datetime) (td : timedelta) : result datetime :=
  datetime_add dt (td_of_microseconds (- td_total_microseconds td)).

(** [d + td] ([date.__add__]): only [td.days] counts. *)
Definition date_add (d : date) (td : timedelta) : result date :=
  let o := toordinal d + td_days td in
  if (0 <? o) && (o <=? _MAXORDINAL) then Ok (fromordinal o)
  else Raise (overflow "date value out of range").

(** [a - b] on datetimes. *)
Definition datetime_diff (a b : datetime) : timedelta :=
  td_of_microseconds
    ((toordinal (dt_date a) - toordinal (dt_date b)) * 86400000000
     + (time_microseconds (dt_time a) - time_microseconds (dt_time b))).

(** [td.total_seconds() > 0]: [total_seconds] is the delta's microseconds
    divided by [10**6], positive exactly when they are. *)
Definition total_seconds_positive (td : timedelta) : bool :=
  0 <? td_total_microseconds td.

(** *** [strftime] and [strptime] *)

Definition digit (n : Z) : ascii := ascii_of_nat (48 + Z.to_nat (n mod 10)).

Definition pad2 (n : Z) : string :=
  String (digit (n / 10)) (String (digit n) "").

Definition pad4 (n : Z) : string :=
  String (digit (n / 1000)) (String (digit (n / 100)) (pad2 n)).

(** The directives the monitor uses; any other is left as it stands. *)
Definition directive (c : ascii) (dt : datetime) : string :=
  if Ascii.eqb c "Y" then pad4 (year (dt_date dt))
  else if Ascii.eqb c "m" then pad2 (month (dt_date dt))
  else if Ascii.eqb c "d" then pad2 (day (dt_date dt))
  else if Ascii.eqb c "H" then pad2 (hour (dt_time dt))
  else if Ascii.eqb c "M" then pad2 (minute (dt_time dt))
  else String "%" (String c "").

(** [dt.strftime(fmt)]: [%Y] is the year on four digits, [%m %d %H %M] are
    on two.  The text of [%Y] is the C library's: from the year 1000 on it
    has these four digits on every platform; for an earlier year some write
    the leading zeros and others (glibc) leave them out, and the four digits
    are kept here. *)
Fixpoint strftime (fmt : string) (dt : datetime) : string :=
  match fmt with
  | "" => ""
  | String c rest =>
      if Ascii.eqb c "%" then
        match rest with
        | String k rest' => directive k dt +++ strftime rest' dt
        | "" => "%"
        end
      else String c (strftime rest dt)
  end.

Definition digit_val (c : ascii) : option Z :=
  let n := Z.of_nat (nat_of_ascii c) in
  if (48 <=? n) && (n <=? 57) then Some (n - 48) else None.

(** [%Y]: exactly four digits. *)
Definition parse_year (s : string) : option (Z * string) :=
  match s with
  | String a (String b (String c (String d rest))) =>
      match digit_val a, digit_val b, digit_val c, digit_val d with
      | Some a, Some b, Some c, Some d =>
          Some (a * 1000 + b * 100 + c * 10 + d, rest)
      | _, _, _, _ => None
      end
  | _ => None
  end.

(** A number on one or two digits: the two-digit forms [two a b] admits are
    tried first, then a single digit [1-9]. *)
Definition parse_num12 (two : Z -> Z -> bool) (s : string)
  : option (Z * string) :=
  match s with
  | String a rest =>
      match digit_val a with
      | Some x =>
          let one := if 1 <=? x then Some (x, rest) else None in
          match rest with
          | String b rest' =>
              match digit_val b with
              | Some y => if two x y then Some (x * 10 + y, rest') else one
              | None => one
              end
          | "" => one
          end
      | None => None
      end
  | "" => None
  end.

(** [%m] is [1[0-2]|0[1-9]|[1-9]]. *)
Definition month_two (x y : Z) : bool :=
  ((x =? 1) && (y <=? 2)) || ((x =? 0) && (1 <=? y)).

(** [%d] is [3[0-1]|[1-2]\d|0[1-9]|[1-9]| [1-9]]. *)
Definition day_two (x y : Z) : bool :=
  ((x =? 3) && (y <=? 1)) || (x =? 1) || (x =? 2) || ((x =? 0) && (1 <=? y)).

Definition parse_day (s : string) : option (Z * string) :=
  match parse_num12 day_two s with
  | Some r => Some r
  | None =>
      match s with
      | String " " (String b rest) =>
          match digit_val b with
          | Some y => if 1 <=? y then Some (y, rest) else None
          | None => None
          end
      | _ => None
      end
  end.

Definition expect_dash (s : string) : option string :=
  match s with
  | String c rest => if Ascii.eqb c "-" then Some rest else None
  | "" => None
  end.

Definition value_error (msg : string) : exn := mkexn ValueError msg.

(** [datetime.datetime.strptime(s, '%Y-%m-%d')]: the text must start with
    a match of the format and end with it, and [datetime(y, m, d)] must
    accept the numbers. *)
Definition strptime_Ymd (s : string) : result datetime :=
  let mismatch :=
    Raise (value_error
             ("time data '" +++ s +++ "' does not match format '%Y-%m-%d'")) in
  match parse_year s with
  | None => mismatch
  | Some (y, s1) =>
      match expect_dash s1 with
      | None => mismatch
      | Some s2 =>
          match parse_num12 month_two s2 with
          | None => mismatch
          | Some (m, s3) =>
              match expect_dash s3 with
              | None => mismatch
              | Some s4 =>
                  match parse_day s4 with
                  | Some (d, "") =>
                      if valid_dateb (mkdate y m d)
                      then Ok (datetime_combine (mkdate y m d) midnight)
                      else Raise (value_error "day is out of range for month")
                  | Some (d, rest) =>
                      Raise (value_error ("unconverted data remains: " +++ rest))
                  | None => mismatch
                  end
              end
          end
      end
  end.

(** ** [ChangeRecord] and [FileMonitorHandler] *)

Record ChangeRecord : Type :=
  mkChangeRecord {
      timestamp : datetime;
      event_type : string;
      path : string;
      is_directory : bool;
      old_path : option string
    }.

(** [self.changes]: a [defaultdict(list)] from date key to the day's records. *)
Definition store : Type := list (string * list ChangeRecord).

(** [d[k].append(c)] on a [defaultdict(list)]: the bucket of [k] grows at its
    end; an absent key gets a new bucket, last in the dict's order. *)
Fixpoint dict_append (k : string) (c : ChangeRecord) (s : store) : store :=
  match s with
  | [] => [(k, [c])]
  | (k', l) :: s' =>
      if String.eqb k' k then (k', l ++ [c]) :: s'
      else (k', l) :: dict_append k c s'
  end.

(** [del d[k]] for a key of the dict. *)
Fixpoint dict_del (k : string) (s : store) : store :=
  match s with
  | [] => []
  | (k', l) :: s' =>
      if String.eqb k' k then s' else (k', l) :: dict_del k s'
  end.

Definition date_key (dt : datetime) : string := strftime "%Y-%m-%d" dt.

Definition _record_change (now : datetime) (event_type path : string)
  (is_directory : bool) (old_path : option string) (changes : store) : store :=
  let change := mkChangeRecord now event_type path is_directory old_path in
  dict_append (date_key (timestamp change)) change changes.

(** A [FileSystemEvent] of watchdog. *)
Record FileSystemEvent : Type :=
  mkEvent { src_path : string; dest_path : string; ev_is_directory : bool }.

Definition on_created (now : datetime) (ev : FileSystemEvent) (s : store) :=
  _record_change now "created" (src_path ev) (ev_is_directory ev) None s.

Definition on_modified (now : datetime) (ev : FileSystemEvent) (s : store) :=
  if negb (ev_is_directory ev)
  then _record_change now "modified" (src_path ev) (ev_is_directory ev) None s
  else s.

Definition on_deleted (now : datetime) (ev : FileSystemEvent) (s : store) :=
  _record_change now "deleted" (src_path ev) (ev_is_directory ev) None s.

Definition on_moved (now : datetime) (ev : FileSystemEvent) (s : store) :=
  _record_change now "moved" (dest_path ev) (ev_is_directory ev)
    (Some (src_path ev)) s.

(** [sorted(l, key=lambda x: x.timestamp)].  Python's sort is stable and
    compares keys with [<] only; the stable sorted arrangement of a list is
    unique ([stable_sort_is_sorted_by_timestamp]), so the straight insertion
    sort below returns the very list. *)
Fixpoint insert_by_timestamp (x : ChangeRecord) (l : list ChangeRecord)
  : list ChangeRecord :=
  match l with
  | [] => [x]
  | y :: l' =>
      if dt_ltb (timestamp y) (timestamp x)
      then y :: insert_by_timestamp x l'
      else x :: y :: l'
  end.

Definition sorted_by_timestamp (l : list ChangeRecord) : list ChangeRecord :=
  fold_right insert_by_timestamp [] l.

(** The two nested loops of [get_changes_since_last_report]. *)
Definition collect_since (last_report_time : datetime) (s : store)
  : list ChangeRecord :=
  fold_left
    (fun all_changes date_changes =>
       fold_left
         (fun all_changes change =>
            if dt_gtb (timestamp change) last_report_time
            then all_changes ++ [change]
            else all_changes)
         date_changes all_changes)
    (map snd s) [].

Definition get_changes_since_last_report (last_report_time : datetime)
  (s : store) : list ChangeRecord :=
  sorted_by_timestamp (collect_since last_report_time s).

(** The first loop of [clear_old_changes]: the keys to remove, in the dict's
    order; [strptime] raises on a key that is no date. *)
Fixpoint dates_to_remove (cutoff_date : datetime) (s : store)
  : result (list string) :=
  match s with
  | [] => Ok []
  | (date_str, _) :: s' =>
      let? date_obj := strptime_Ymd date_str in
      let? rest := dates_to_remove cutoff_date s' in
      Ok (if dt_ltb date_obj cutoff_date then date_str :: rest else rest)
  end.

(** [clear_old_changes(days_to_keep)], the clock reading [now]: the store
    after the call, with the exception when one is raised (none is raised
    once a bucket has been deleted). *)
Definition clear_old_changes (days_to_keep : Z) (now : datetime) (s : store)
  : result unit * store :=
  match (let? td := timedelta_days days_to_keep in
         let? cutoff_date := datetime_sub now td in
         dates_to_remove cutoff_date s) with
  | Ok dates => (Ok tt, fold_left (fun s date_str => dict_del date_str s) dates s)
  | Raise e => (Raise e, s)
  end.

(** ** [FileMonitor] *)

(** [self.observer] once created: started, or stopped and joined. *)
Inductive observer_state : Type := ObserverStarted | ObserverStopped.

(** The report thread once started: alive, or ended. *)
Inductive thread_state : Type := ThreadAlive | ThreadFinished.

(** The monitor object with its handler's store, and the two output streams
    of the process. *)
Record state : Type :=
  mkstate {
      observer : option observer_state;
      changes : store;
      last_report_time : datetime;
      running : bool;
      report_thread : option thread_state;
      stdout : list string;
      stderr : list string
    }.

(** [FileMonitor()] *)
Definition FileMonitor_init (now : datetime) : state :=
  mkstate None [] now false None [] [].

Definition set_observer (o : option observer_state) (st : state) : state :=
  mkstate o (changes st) (last_report_time st) (running st)
    (report_thread st) (stdout st) (stderr st).
Definition set_changes (c : store) (st : state) : state :=
  mkstate (observer st) c (last_report_time st) (running st)
    (report_thread st) (stdout st) (stderr st).
Definition set_last_report_time (t : datetime) (st : state) : state :=
  mkstate (observer st) (changes st) t (running st)
    (report_thread st) (stdout st) (stderr st).
Definition set_running (b : bool) (st : state) : state :=
  mkstate (observer st) (changes st) (last_report_time st) b
    (report_thread st) (stdout st) (stderr st).
Definition set_report_thread (t : option thread_state) (st : state) : state :=
  mkstate (observer st) (changes st) (last_report_time st) (running st)
    t (stdout st) (stderr st).
Definition write_stdout (line : string) (st : state) : state :=
  mkstate (observer st) (changes st) (last_report_time st) (running st)
    (report_thread st) (stdout st ++ [line]) (stderr st).
Definition write_stderr (line : string) (st : state) : state :=
  mkstate (observer st) (changes st) (last_report_time st) (running st)
    (report_thread st) (stdout st) (stderr st ++ [line]).

(** What a run of monitor code over a finite stretch of its environment
    comes to: it returned, it raised, or it is still inside a loop when the
    stretch ends. *)
Inductive outcome (A : Type) : Type :=
| Done (a : A)
| Raised (e : exn)
| Pending.
Arguments Done {A} a.
Arguments Raised {A} e.
Arguments Pending {A}.

Definition M (A : Type) : Type := state -> outcome A * state.

Definition ret {A : Type} (a : A) : M A := fun st => (Done a, st).

Definition bind {A B : Type} (m : M A) (k : A -> M B) : M B :=
  fun st =>
    match m st with
    | (Done a, st') => k a st'
    | (Raised e, st') => (Raised e, st')
    | (Pending, st') => (Pending, st')
    end.

Notation "x <- m ;; k" := (bind m (fun x => k))
  (at level 61, m at next level, right associativity).
Notation "m ;; k" := (bind m (fun _ => k))
  (at level 61, right associativity).

Definition raise {A : Type} (e : exn) : M A := fun st => (Raised e, st).

Definition lift {A : Type} (r : result A) : M A :=
  match r with
  | Ok a => ret a
  | Raise e => raise e
  end.

Definition gets {A : Type} (f : state -> A) : M A := fun st => (Done (f st), st).
Definition modify (f : state -> state) : M unit := fun st => (Done tt, f st).

(** [for x in l: body(x)] *)
Fixpoint for_each {A : Type} (l : list A) (body : A -> M unit) : M unit :=
  match l with
  | [] => ret tt
  | x :: l' => body x ;; for_each l' body
  end.

(** [try: body / except KeyboardInterrupt: on_interrupt /
    except Exception as e: on_exception(e) / finally: cleanup].  A body that
    is still running has reached neither handler nor [finally]. *)
Definition try_except_finally {A : Type} (body : M A)
  (on_interrupt : M A) (on_exception : exn -> M A) (cleanup : M unit) : M A :=
  fun st =>
    let handled :=
      match body st with
      | (Raised e, st') =>
          if is_Exception e then on_exception e st' else on_interrupt st'
      | r => r
      end in
    match handled with
    | (Pending, st') => (Pending, st')
    | (r, st') =>
        match cleanup st' with
        | (Done _, st'') => (r, st'')
        | (Raised e, st'') => (Raised e, st'')
        | (Pending, st'') => (Pending, st'')
        end
    end.

(** [threading.Thread(target=body).run()]: an exception that leaves the
    target ends the thread, [threading.excepthook] writes it to [stderr];
    nothing reaches the thread that started this one. *)
Definition thread_run (body : M unit) : M unit :=
  fun st =>
    match body st with
    | (Done _, st') => (Done tt, set_report_thread (Some ThreadFinished) st')
    | (Raised e, st') =>
        (Done tt,
         set_report_thread (Some ThreadFinished)
           (write_stderr ("Exception in thread: " +++ exc_msg e) st'))
    | (Pending, st') => (Pending, st')
    end.

Definition nl : string := String (ascii_of_nat 10) "".

(** [s * n] *)
Fixpoint str_mul (s : string) (n : nat) : string :=
  match n with
  | O => ""
  | S n' => s +++ str_mul s n'
  end.

(** [str(n)] for a length. *)
Definition str_of_nat (n : nat) : string :=
  NilZero.string_of_uint (Nat.to_uint n).

(** [sep.join(l)] *)
Fixpoint join (sep : string) (l : list string) : string :=
  match l with
  | [] => ""
  | [x] => x
  | x :: l' => x +++ sep +++ join sep l'
  end.

(** [f"{x}"] for a value that is a [str] or [None]. *)
Definition str_of_optional (o : option string) : string :=
  match o with
  | Some s => s
  | None => "None"
  end.

Definition WATCH_PATH : string :=
  "M:\北日本カンパニー\間接部門\セントラルオフィス・物流部\セントラルオフィス課\100_システムチーム\03_UserLocal".

Definition REPORT_HOURS : list Z := [6; 10; 14; 17].

(** The [for] loop of [_get_next_report_time]. *)
Fixpoint first_hour_after (hours : list Z) (current_hour : Z) : option Z :=
  match hours with
  | [] => None
  | hour :: hours' =>
      if current_hour <? hour then Some hour
      else first_hour_after hours' current_hour
  end.

Definition _get_next_report_time (current_time : datetime) : result datetime :=
  let current_date := dt_date current_time in
  let current_hour := hour (dt_time current_time) in
  match first_hour_after REPORT_HOURS current_hour with
  | Some hour => Ok (datetime_combine current_date (time_hm hour 0))
  | None =>
      let? one_day := timedelta_days 1 in
      let? tomorrow := date_add current_date one_day in
      Ok (datetime_combine tomorrow (time_hm (nth 0 REPORT_HOURS 0) 0))
  end.

(** [type_names.get(event_type, event_type)] *)
Definition type_names : list (string * string) :=
  [("created", "新規作成"); ("modified", "更新"); ("deleted", "削除");
   ("moved", "移動・リネーム")].

Fixpoint dict_get (k : string) (d : list (string * string)) (default : string)
  : string :=
  match d with
  | [] => default
  | (k', v) :: d' => if String.eqb k' k then v else dict_get k d' default
  end.

(** The loop that fills [by_type], a [defaultdict(list)]. *)
Definition group_by_type (changes : list ChangeRecord) : store :=
  fold_left (fun by_type change => dict_append (event_type change) change by_type)
    changes [].

(** The text of the line printed for one record. *)
Definition change_line (change : ChangeRecord) : string :=
  let time_str := strftime "%m/%d %H:%M" (timestamp change) in
  let type_str := if is_directory change then "フォルダ" else "ファイル" in
  if String.eqb (event_type change) "moved"
  then "  " +++ time_str +++ " [" +++ type_str +++ "] "
       +++ str_of_optional (old_path change) +++ " → " +++ path change
  else "  " +++ time_str +++ " [" +++ type_str +++ "] " +++ path change.

(** The text of the header printed for one group. *)
Definition group_header (event_type : string) (type_changes : list ChangeRecord)
  : string :=
  nl +++ "■ " +++ dict_get event_type type_names event_type
     +++ " (" +++ str_of_nat (List.length type_changes) +++ "件)".

Section Effects.

(** The console behind [print]: [None] when it takes the line, the
    exception the write raises otherwise (a text the console's encoding
    lacks, a closed stream). *)
Variable console : string -> option exn.

Definition print (line : string) : M unit :=
  fun st =>
    match console line with
    | None => (Done tt, write_stdout line st)
    | Some e => (Raised e, st)
    end.

(** [_generate_report], the clock reading [current_time] *)
Definition _generate_report (current_time : datetime) : M unit :=
  last <- gets last_report_time ;;
  s <- gets changes ;;
  let changes := get_changes_since_last_report last s in
  print (nl +++ str_mul "=" 70) ;;
  print ("【定時レポート】 " +++ strftime "%Y年%m月%d日 %H:%M" current_time) ;;
  print (str_mul "=" 70) ;;
  (match changes with
   | [] => print "変化なし"
   | _ =>
       print ("検出された変更: " +++ str_of_nat (List.length changes) +++ "件") ;;
       print (str_mul "-" 50) ;;
       let by_type := group_by_type changes in
       for_each by_type
         (fun '(event_type, type_changes) =>
            print (group_header event_type type_changes) ;;
            for_each type_changes (fun change => print (change_line change)))
   end) ;;
  print (str_mul "=" 70) ;;
  modify (set_last_report_time current_time).

(** [stop] *)
Definition stop : M unit :=
  r <- gets running ;;
  if negb r then ret tt
  else
    modify (set_running false) ;;
    o <- gets observer ;;
    (match o with
     | Some _ => modify (set_observer (Some ObserverStopped))
     | None => ret tt
     end) ;;
    print "ファイル監視を停止しました。".

(** One turn of the loop of [_main_loop], as the environment shows it: what
    [os.path.exists(WATCH_PATH)] answers; when the path is absent, whether
    it comes back while the loop polls for it every 30 seconds; the clock
    when the old records are cleared; and the exception raised into the 300
    second sleep, if any ([KeyboardInterrupt] on Ctrl-C). *)
Record main_turn : Type :=
  mkmain_turn {
      path_exists : bool;
      path_returns : bool;
      clear_now : datetime;
      interrupted : option exn
    }.

(** A loop that has not ended when the observed stretch ends. *)
Definition pending {A : Type} : M A := fun st => (Pending, st).

(** [self.handler.clear_old_changes()], with the default of 7 days. *)
Definition run_clear_old_changes (now : datetime) : M unit :=
  fun st =>
    match clear_old_changes 7 now (changes st) with
    | (Ok _, s') => (Done tt, set_changes s' st)
    | (Raise e, s') => (Raised e, set_changes s' st)
    end.

(** [_main_loop] over the turns the environment provides; the loop is still
    turning when they are used up. *)
Fixpoint _main_loop (turns : list main_turn) : M unit :=
  match turns with
  | [] => fun st => if running st then (Pending, st) else (Done tt, st)
  | turn :: turns' =>
      r <- gets running ;;
      if negb r then ret tt
      else
        (if negb (path_exists turn) then
           print ("警告: 監視対象パスへの接続が切れています: " +++ WATCH_PATH) ;;
           print "接続復旧を待機中..." ;;
           (if path_returns turn then ret tt else pending) ;;
           r <- gets running ;;
           if r then print "接続が復旧しました。監視を継続します。" else ret tt
         else ret tt) ;;
        run_clear_old_changes (clear_now turn) ;;
        (match interrupted turn with
         | Some e => raise e
         | None => ret tt
         end) ;;
        _main_loop turns'
  end.

(** One turn of the loop of [_report_scheduler]: the clock read at its top,
    and the clock [_generate_report] reads when the turn reports. *)
Record scheduler_turn : Type :=
  mkscheduler_turn { turn_now : datetime; report_now : datetime }.

Fixpoint _report_scheduler (turns : list scheduler_turn) : M unit :=
  match turns with
  | [] => fun st => if running st then (Pending, st) else (Done tt, st)
  | turn :: turns' =>
      r <- gets running ;;
      if negb r then ret tt
      else
        let now := turn_now turn in
        next_report <- lift (_get_next_report_time now) ;;
        if total_seconds_positive (datetime_diff next_report now)
        then _report_scheduler turns'
        else _generate_report (report_now turn) ;; _report_scheduler turns'
  end.

(** The statements of [start] inside its [try], before the main loop: the
    observer is created and started, the three lines are printed, the report
    thread is started. *)
Definition start_setup : M unit :=
  modify (set_observer (Some ObserverStarted)) ;;
  modify (set_running true) ;;
  print ("ファイル監視を開始しました: " +++ WATCH_PATH) ;;
  print ("レポート時刻: "
         +++ join ", " (map (fun h => str_of_int h +++ ":00") REPORT_HOURS)) ;;
  print "停止するには stop_monitor.bat を実行してください。" ;;
  modify (set_report_thread (Some ThreadAlive)).

(** [start], given what [os.path.exists(WATCH_PATH)] answers at its top and
    the turns of the main loop.  The report thread it starts runs beside it
    ([thread_run] of [_report_scheduler]). *)
Definition start (path_exists_at_start : bool) (turns : list main_turn)
  : M bool :=
  if negb path_exists_at_start then
    print ("エラー: 監視対象パスが存在しません: " +++ WATCH_PATH) ;;
    ret false
  else
    r <- gets running ;;
    if r then print "監視は既に実行中です。" ;; ret false
    else
      try_except_finally
        (start_setup ;; _main_loop turns)
        (print (nl +++ "キーボード割り込みにより監視を停止します。"))
        (fun e => print ("エラー: " +++ exc_msg e))
        stop ;;
      ret true.

End Effects.

(** ** The entry point *)

Section EntryPoint.

Variable console : string -> option exn.

(** [main], given the clock [FileMonitor()] reads and what [start] meets:
    an exception other than [KeyboardInterrupt] has no handler here and
    leaves [main] once [finally] has run. *)
Definition main (now : datetime) (path_exists_at_start : bool)
  (turns : list main_turn) : outcome unit * state :=
  try_except_finally
    (start console path_exists_at_start turns ;; ret tt)
    (print console (nl +++ "監視を停止しています..."))
    (fun e => raise e)
    (stop console)
    (FileMonitor_init now).

End EntryPoint.

(** * The process manager of [monitor_manager.py]

    [MonitorManager] starts the monitor as a detached process, keeps its
    process id in a PID file, and stops it again.  What it meets outside
    itself (the PID file's text, the answers of [psutil.pid_exists], the
    exceptions the system calls raise) is an argument of the model; the
    waits ([time.sleep]) are taken to return. *)

Module MonitorManager.

Declare Scope manager_scope.
Local Open Scope manager_scope.

Inductive signal : Type := SIGTERM | SIGKILL.

(** The calls that start or end a process: [subprocess.Popen(uv_cmd, ...)]
    (with [CREATE_NEW_CONSOLE] on Windows), [subprocess.run(["taskkill",
    "/PID", str(pid), "/F"], ...)] and [os.kill(pid, sig)]. *)
Inductive os_call : Type :=
| Popen (new_console : bool)
| Taskkill (pid : Z)
| Kill (pid : Z) (sig : signal).

(** What the manager acts on: the PID file ([None] when there is none, its
    text otherwise), the lines printed, the calls made so far, and how often
    [psutil.pid_exists] has been asked. *)
Record world : Type :=
  mkworld {
      pid_file : option string;
      stdout : list string;
      os_calls : list os_call;
      polls : nat
    }.

(** What the manager meets: the platform ([os.name == 'nt']); the path of
    the monitor's script and whether it exists; the console behind [print];
    what [int(text.strip())] comes to for a text; the exception that
    reading, writing or removing the PID file raises, if any; the process id
    [Popen] returns, or the exception it raises; the exception the [n]-th
    call that starts or ends a process raises, if any; and the answer of
    [psutil.pid_exists(pid)] when it is asked for the [n]-th time ([false]
    also when it raises, which [_is_process_running] turns into [False]). *)
Record env : Type :=
  mkenv {
      windows : bool;
      script_path : string;
      script_exists : bool;
      console : string -> option exn;
      int_of_text : string -> result Z;
      read_error : option exn;
      write_error : option exn;
      unlink_error : option exn;
      popen_result : result Z;
      call_error : nat -> option exn;
      pid_exists : nat -> Z -> bool
    }.

Definition set_pid_file (f : option string) (w : world) : world :=
  mkworld f (stdout w) (os_calls w) (polls w).
Definition write_stdout (line : string) (w : world) : world :=
  mkworld (pid_file w) (stdout w ++ [line]) (os_calls w) (polls w).
Definition add_call (c : os_call) (w : world) : world :=
  mkworld (pid_file w) (stdout w) (os_calls w ++ [c]) (polls w).
Definition add_poll (w : world) : world :=
  mkworld (pid_file w) (stdout w) (os_calls w) (S (polls w)).

(** Code of the manager: it returns or raises, and changes the world. *)
Definition W (A : Type) : Type := world -> result A * world.

Definition ret {A : Type} (a : A) : W A := fun w => (Ok a, w).

Definition bind {A B : Type} (m : W A) (k : A -> W B) : W B :=
  fun w =>
    match m w with
    | (Ok a, w') => k a w'
    | (Raise e, w') => (Raise e, w')
    end.

Notation "x <- m ;; k" := (bind m (fun x => k))
  (at level 61, m at next level, right associativity) : manager_scope.
Notation "m ;; k" := (bind m (fun _ => k))
  (at level 61, right associativity) : manager_scope.

Definition raise {A : Type} (e : exn) : W A := fun w => (Raise e, w).

Definition gets {A : Type} (f : world -> A) : W A := fun w => (Ok (f w), w).

(** [isinstance(e, ValueError)]: [UnicodeEncodeError] derives from
    [ValueError]. *)
Definition is_ValueError (e : exn) : bool :=
  match exc_cls e with
  | ValueError | UnicodeEncodeError => true
  | _ => false
  end.

(** [isinstance(e, IOError)]: [IOError] is [OSError]. *)
Definition is_IOError (e : exn) : bool :=
  match exc_cls e with
  | OSError => true
  | _ => false
  end.

(** [try: body / except <classes> as e: handler(e)] *)
Definition try_except {A : Type} (body : W A) (catches : exn -> bool)
  (handler : exn -> W A) : W A :=
  fun w =>
    match body w with
    | (Raise e, w') => if catches e then handler e w' else (Raise e, w')
    | r => r
    end.

Section Manager.

Variable E : env.

Definition print (line : string) : W unit :=
  fun w =>
    match console E line with
    | None => (Ok tt, write_stdout line w)
    | Some e => (Raise e, w)
    end.

(** [open(self.pid_file, 'r', encoding='utf-8').read()] on the file with
    the text [text]. *)
Definition read_text (text : string) : W string :=
  match read_error E with
  | Some e => raise e
  | None => ret text
  end.

(** [open(self.pid_file, 'w', encoding='utf-8').write(text)]; a write
    that raises leaves the file as it was. *)
Definition write_text (text : string) : W unit :=
  fun w =>
    match write_error E with
    | Some e => (Raise e, w)
    | None => (Ok tt, set_pid_file (Some text) w)
    end.

(** [self.pid_file.unlink()] *)
Definition unlink : W unit :=
  fun w =>
    match unlink_error E with
    | Some e => (Raise e, w)
    | None => (Ok tt, set_pid_file None w)
    end.

(** A call that starts or ends a process. *)
Definition call (c : os_call) : W unit :=
  fun w =>
    match call_error E (List.length (os_calls w)) with
    | Some e => (Raise e, add_call c w)
    | None => (Ok tt, add_call c w)
    end.

(** [subprocess.Popen(uv_cmd, ...).pid] *)
Definition popen : W Z :=
  call (Popen (windows E)) ;;
  match popen_result E with
  | Ok pid => ret pid
  | Raise e => raise e
  end.

Definition _get_running_pid : W (option Z) :=
  try_except
    (file <- gets pid_file ;;
     match file with
     | Some text =>
         text <- read_text text ;;
         match int_of_text E text with
         | Ok pid => ret (Some pid)
         | Raise e => raise e
         end
     | None => ret None
     end)
    (fun e => is_ValueError e || is_IOError e)
    (fun _ => ret None).

Definition _write_pid_file (pid : Z) : W unit :=
  try_except (write_text (str_of_int pid)) is_IOError
    (fun e => print ("警告: PIDファイルの作成に失敗しました: " +++ exc_msg e)).

Definition _remove_pid_file : W unit :=
  try_except
    (file <- gets pid_file ;;
     match file with
     | Some _ => unlink
     | None => ret tt
     end)
    is_IOError
    (fun _ => ret tt).

Definition _is_process_running (pid : Z) : W bool :=
  fun w => (Ok (pid_exists E (polls w) pid), add_poll w).

(** [start_monitor] from the check of the script on. *)
Definition launch : W bool :=
  if negb (script_exists E) then
    print ("エラー: 監視スクリプトが見つかりません: " +++ script_path E) ;;
    ret false
  else
    try_except
      (print "ファイル監視プロセスを開始しています..." ;;
       pid <- popen ;;
       _write_pid_file pid ;;
       alive <- _is_process_running pid ;;
       if alive then
         print ("ファイル監視を開始しました (PID: " +++ str_of_int pid +++ ")") ;;
         print "停止するには stop_monitor.bat を実行してください。" ;;
         ret true
       else
         print "エラー: プロセスの起動に失敗しました。" ;;
         _remove_pid_file ;;
         ret false)
      is_Exception
      (fun e =>
         print ("エラー: プロセス起動に失敗しました: " +++ exc_msg e) ;;
         _remove_pid_file ;;
         ret false).

(** [if existing_pid:] holds for a process id other than 0; [None] and 0
    are false. *)
Definition truthy (pid : option Z) : bool :=
  match pid with
  | Some pid => negb (pid =? 0)
  | None => false
  end.

(** The [int] of an [Optional[int]] that is not [None]. *)
Definition the_pid (pid : option Z) : Z :=
  match pid with
  | Some pid => pid
  | None => 0
  end.

Definition start_monitor : W bool :=
  existing_pid <- _get_running_pid ;;
  if truthy existing_pid then
    alive <- _is_process_running (the_pid existing_pid) ;;
    if alive then
      print ("監視プロセスは既に実行中です (PID: "
             +++ str_of_int (the_pid existing_pid) +++ ")") ;;
      ret false
    else
      print "古いPIDファイルを削除します。" ;;
      _remove_pid_file ;;
      launch
  else launch.

(** The loop [for _ in range(n)] of [stop_monitor]: [true] when it was
    left by [break], [false] when it ran to its end (and its [else] is to
    run). *)
Fixpoint wait_for_exit (n : nat) (pid : Z) : W bool :=
  match n with
  | O => ret false
  | S n' =>
      alive <- _is_process_running pid ;;
      if negb alive then ret true else wait_for_exit n' pid
  end.

Definition stop_monitor : W bool :=
  pid <- _get_running_pid ;;
  if negb (truthy pid) then
    print "監視プロセスは実行されていません。" ;;
    ret false
  else
    alive <- _is_process_running (the_pid pid) ;;
    if negb alive then
      print "監視プロセスは既に停止しています。" ;;
      _remove_pid_file ;;
      ret false
    else
      try_except
        ((if windows E then call (Taskkill (the_pid pid))
          else call (Kill (the_pid pid) SIGTERM)) ;;
         left <- wait_for_exit 10 (the_pid pid) ;;
         (if left then ret tt
          else if windows E then call (Taskkill (the_pid pid))
               else call (Kill (the_pid pid) SIGKILL)) ;;
         _remove_pid_file ;;
         print ("ファイル監視を停止しました (PID: "
                +++ str_of_int (the_pid pid) +++ ")") ;;
         ret true)
        is_Exception
        (fun e =>
           print ("エラー: プロセス停止に失敗しました: " +++ exc_msg e) ;;
           ret false).

End Manager.

End MonitorManager.

(** * Notions used in the statements *)

(** ** Records of the store, order of records *)

(** Every record of the store, bucket after bucket in the dict's order. *)
Definition all_records (s : store) : list ChangeRecord :=
  List.concat (map snd s).

(** The test of the inner loop of [get_changes_since_last_report]. *)
Definition newer_than (t : datetime) (c : ChangeRecord) : bool :=
  dt_gtb (timestamp c) t.

(** [l1] is a subsequence of [l2]: [l2] with some elements left out. *)
Inductive subseq {A : Type} : list A -> list A -> Prop :=
| subseq_nil : subseq [] []
| subseq_skip : forall x l1 l2, subseq l1 l2 -> subseq l1 (x :: l2)
| subseq_keep : forall x l1 l2, subseq l1 l2 -> subseq (x :: l1) (x :: l2).

(** [c.timestamp == t] *)
Definition same_time (t : datetime) (c : ChangeRecord) : bool :=
  match datetime_compare (timestamp c) t with
  | Eq => true
  | _ => false
  end.

(** Non-decreasing timestamps along a list. *)
Definition timestamp_le (a b : ChangeRecord) : Prop :=
  dt_le (timestamp a) (timestamp b).

(** ** The calendar *)

(** The end of [_ord2ymd]: month and day of the [n]-th day (from 0) of a
    year. *)
Definition month_day (n : Z) (leapyear : bool) : Z * Z :=
  let m := Z.shiftr (n + 50) 5 in
  let preceding :=
    _DAYS_BEFORE_MONTH m + (if (2 <? m) && leapyear then 1 else 0) in
  if n <? preceding then
    (m - 1,
     n - (preceding
          - (_DAYS_IN_MONTH (m - 1)
             + (if (m - 1 =? 2) && leapyear then 1 else 0))) + 1)
  else (m, n - preceding + 1).

(** [month_day] gives a month and a day of that month, and they are the
    [n]-th day of the year. *)
Definition month_day_ok (leapyear : bool) (n : Z) : bool :=
  let md := month_day n leapyear in
  let m := fst md in
  let d := snd md in
  (1 <=? m) && (m <=? 12) && (1 <=? d)
  && (d <=? (if (m =? 2) && leapyear then 29 else _DAYS_IN_MONTH m))
  && (_DAYS_BEFORE_MONTH m + (if (2 <? m) && leapyear then 1 else 0) + d
      =? n + 1).

(** For the months [k / 13] and [k mod 13]: a month starts on or after day
    0 of the year, has a day, ends within the year, and ends before a later
    month starts. *)
Definition month_pair_ok (leapyear : bool) (k : Z) : bool :=
  let m1 := k / 13 in
  let m2 := k mod 13 in
  let before m := _DAYS_BEFORE_MONTH m + (if (2 <? m) && leapyear then 1 else 0) in
  let dim m := if (m =? 2) && leapyear then 29 else _DAYS_IN_MONTH m in
  (m1 =? 0) || (m2 =? 0)
  || ((0 <=? before m1)
      && (1 <=? dim m1)
      && (before m1 + dim m1 <=? 365 + (if leapyear then 1 else 0))
      && (negb (m1 <? m2) || (before m1 + dim m1 <=? before m2))).

(** ** Report times *)

(** A trigger time: one of the report hours, sharp. *)
Definition is_trigger_time (t : datetime) : Prop :=
  exists h, In h REPORT_HOURS /\ dt_time t = time_hm h 0.

(** [date.max] *)
Definition date_max : date := mkdate 9999 12 31.

(** [d + timedelta(days=1)] when it exists. *)
Definition next_day (d : date) : date := fromordinal (toordinal d + 1).

(** ** Expired buckets *)

(** The test of the first loop of [clear_old_changes] on a bucket's key. *)
Definition expired (cutoff_date : datetime) (date_str : string) : bool :=
  match strptime_Ymd date_str with
  | Ok date_obj => dt_ltb date_obj cutoff_date
  | Raise _ => false
  end.

(** What [now - timedelta(days=days_to_keep)] comes to. *)
Definition cutoff (days_to_keep : Z) (now : datetime) : result datetime :=
  let? td := timedelta_days days_to_keep in datetime_sub now td.

(** The key of the bucket of day [d]. *)
Definition key_of_date (d : date) : string := date_key (mkdatetime d midnight).

(** Every key of the store is the key of a day. *)
Definition keys_are_dates (s : store) : Prop :=
  forall k l, In (k, l) s -> exists d, valid_date d /\ k = key_of_date d.

(** The bucket [b] is not expired. *)
Definition keeps (cutoff_date : datetime) (b : string * list ChangeRecord)
  : bool :=
  negb (expired cutoff_date (fst b)).

(** ** Buckets *)



(** The keys are distinct, and every record lies in the bucket keyed by the
    day of its timestamp. *)
Definition store_inv (s : store) : Prop :=
  NoDup (map fst s)
  /\ forall k l c, In (k, l) s -> In c l -> date_key (timestamp c) = k.

(** The stores the recorder can reach: events are recorded at valid clock
    readings, and old buckets are cleared. *)
Inductive reachable : store -> Prop :=
| reachable_empty : reachable []
| reachable_record : forall s now event_type path is_directory old_path,
    reachable s -> valid_datetime now ->
    reachable (_record_change now event_type path is_directory old_path s)
| reachable_clear : forall s days_to_keep now,
    reachable s -> reachable (snd (clear_old_changes days_to_keep now s)).

(** The stores the recorder reaches when every event is recorded at a valid
    clock reading of the year [first_year] or later. *)
Inductive reachable_from (first_year : Z) : store -> Prop :=
| reachable_from_empty : reachable_from first_year []
| reachable_from_record : forall s now event_type path is_directory old_path,
    reachable_from first_year s -> valid_datetime now ->
    first_year <= year (dt_date now) ->
    reachable_from first_year
      (_record_change now event_type path is_directory old_path s)
| reachable_from_clear : forall s days_to_keep now,
    reachable_from first_year s ->
    reachable_from first_year (snd (clear_old_changes days_to_keep now s)).

(** ** The text of a report *)

(** The lines printed for one group: its header, then its records. *)
Definition group_lines (g : string * list ChangeRecord) : list string :=
  group_header (fst g) (snd g) :: map change_line (snd g).

(** The lines [_generate_report] prints for the new records [changes]. *)
Definition report_lines (current_time : datetime) (changes : list ChangeRecord)
  : list string :=
  [nl +++ str_mul "=" 70;
   "【定時レポート】 " +++ strftime "%Y年%m月%d日 %H:%M" current_time;
   str_mul "=" 70]
  ++ match changes with
     | [] => ["変化なし"]
     | _ =>
         ["検出された変更: " +++ str_of_nat (List.length changes) +++ "件";
          str_mul "-" 50]
         ++ flat_map group_lines (group_by_type changes)
     end
  ++ [str_mul "=" 70].

(** The lines a report starts with when there are [n] new records. *)
Definition report_head (current_time : datetime) (n : nat) : list string :=
  [nl +++ str_mul "=" 70;
   "【定時レポート】 " +++ strftime "%Y年%m月%d日 %H:%M" current_time;
   str_mul "=" 70;
   "検出された変更: " +++ str_of_nat n +++ "件";
   str_mul "-" 50].

(** The two lines of a group that holds the one record [r]. *)
Definition single_group (r : ChangeRecord) : list string :=
  [group_header (event_type r) [r]; change_line r].

(** The distinct elements of a list in the order of their first occurrence. *)
Fixpoint first_occurrences (l : list string) : list string :=
  match l with
  | [] => []
  | k :: l' => k :: filter (fun k' => negb (String.eqb k' k)) (first_occurrences l')
  end.

(** [change.event_type == k] *)
Definition has_type (k : string) (c : ChangeRecord) : bool :=
  String.eqb (event_type c) k.

(** The group of kind [k] of a batch: its records of that kind, in order. *)
Definition group_of (changes : list ChangeRecord) (k : string)
  : string * list ChangeRecord :=
  (k, filter (has_type k) changes).

(** The state after [lines] went to the console. *)
Definition printed (lines : list string) (st : state) : state :=
  mkstate (observer st) (changes st) (last_report_time st) (running st)
    (report_thread st) (stdout st ++ lines) (stderr st).

(** The console takes every line of a list. *)
Definition accepts (console : string -> option exn) (lines : list string)
  : Prop :=
  Forall (fun line => console line = None) lines.

(** The lines of the report that a call of [_generate_report] in state [st]
    is to print. *)
Definition report_of (current_time : datetime) (st : state) : list string :=
  report_lines current_time
    (get_changes_since_last_report (last_report_time st) (changes st)).

(** ** Monitoring *)

(** The monitoring goes on as before: [running] and the observer are as
    they were. *)
Definition same_monitoring (st st' : state) : Prop :=
  running st' = running st /\ observer st' = observer st.

(** Code that neither stops nor starts the monitoring, however it ends. *)
Definition keeps_monitoring {A : Type} (m : M A) : Prop :=
  forall st, same_monitoring st (snd (m st)).

(** ** Sample data *)

(** [datetime(y, m, d, H, M, S)] *)
Definition at_time (y m d H M S : Z) : datetime :=
  mkdatetime (mkdate y m d) (mktime H M S 0).

(** The events of the sample: /a/b.txt, /a/c.txt, and a move from
    /a/old.txt to /a/new.txt. *)
Definition ev_b : FileSystemEvent := mkEvent "/a/b.txt" "" false.

Definition ev_c : FileSystemEvent := mkEvent "/a/c.txt" "" false.

Definition ev_move : FileSystemEvent := mkEvent "/a/old.txt" "/a/new.txt" false.

(** Three events over two days, recorded in the order of their times. *)
Definition sample_store : store :=
  on_moved (at_time 2024 3 6 1 2 0) ev_move
    (on_deleted (at_time 2024 3 5 9 31 0) ev_c
       (on_created (at_time 2024 3 5 9 30 0) ev_b [])).

(** The same records with the buckets in the other order. *)
Definition sample_store_swapped : store :=
  match sample_store with
  | [b1; b2] => [b2; b1]
  | s => s
  end.

(** A store with one bucket, dated 2024-03-05. *)
Definition one_bucket : store := on_created (at_time 2024 3 5 9 30 0) ev_b [].

(** A console that takes every line. *)
Definition open_console (_ : string) : option exn := None.

(** The monitor with the sample store, started at 09:00 of 2024-03-05. *)
Definition sample_state : state :=
  set_changes sample_store (FileMonitor_init (at_time 2024 3 5 9 0 0)).

(** The three records of the mixed batch, with their timestamps and
    [is_directory] flags left open. *)
Definition created_b (t : datetime) (dir : bool) : ChangeRecord :=
  mkChangeRecord t "created" "/a/b.txt" dir None.

Definition deleted_c (t : datetime) (dir : bool) : ChangeRecord :=
  mkChangeRecord t "deleted" "/a/c.txt" dir None.

Definition moved_old_new (t : datetime) (dir : bool) : ChangeRecord :=
  mkChangeRecord t "moved" "/a/new.txt" dir (Some "/a/old.txt").

(** A record whose path the console cannot show. *)
Definition snowman_record : ChangeRecord :=
  mkChangeRecord (at_time 2024 3 5 9 30 0) "created" "/a/☃.txt" false None.

(** A console that raises on the line of that record. *)
Definition narrow_console (line : string) : option exn :=
  if String.eqb line (change_line snowman_record)
  then Some (mkexn UnicodeEncodeError "codec can't encode character")
  else None.

(** The monitor after [start] has set it up, with that record in store. *)
Definition monitoring_state : state :=
  mkstate (Some ObserverStarted)
    (dict_append (date_key (timestamp snowman_record)) snowman_record [])
    (at_time 2024 3 5 9 0 0) true (Some ThreadAlive) [] [].

(** A main loop whose second turn finds the path away for a while and
    then, its clock set to the third day of the year 1, cannot take 7 days
    off it. *)
Definition failing_turns : list main_turn :=
  [mkmain_turn true true (at_time 2024 3 5 9 5 0) None;
   mkmain_turn false true (at_time 1 1 3 9 10 0) None].

(** The scheduler's clock at 17:00 of the last day. *)
Definition last_day_turns : list scheduler_turn :=
  [mkscheduler_turn (at_time 9999 12 31 17 0 0) (at_time 9999 12 31 17 0 0)].

(** The scheduler's clock around the 10:00 report of 2024-03-05. *)
Definition turns_around_ten : list scheduler_turn :=
  [mkscheduler_turn (at_time 2024 3 5 9 59 30) (at_time 2024 3 5 9 59 30);
   mkscheduler_turn (at_time 2024 3 5 10 0 0) (at_time 2024 3 5 10 0 0);
   mkscheduler_turn (at_time 2024 3 5 10 1 0) (at_time 2024 3 5 10 1 0)].

(** ** Notifications *)

(** The callback of the handler that watchdog's dispatcher calls for an
    event. *)
Inductive callback : Type := Created | Modified | Deleted | Moved.

(** A notification: the event, the callback it goes to, and the clock when
    the handler records it. *)
Record notification : Type :=
  mknotification {
      n_now : datetime;
      n_callback : callback;
      n_event : FileSystemEvent
    }.

Definition dispatch (n : notification) (s : store) : store :=
  match n_callback n with
  | Created => on_created (n_now n) (n_event n) s
  | Modified => on_modified (n_now n) (n_event n) s
  | Deleted => on_deleted (n_now n) (n_event n) s
  | Moved => on_moved (n_now n) (n_event n) s
  end.

(** The store after the notifications of a log, in their order. *)
Definition deliver (log : list notification) (s : store) : store :=
  fold_left (fun s n => dispatch n s) log s.

(** What a notification is to leave in the store: one record, none for a
    modified directory. *)
Definition records_of (n : notification) : list ChangeRecord :=
  let ev := n_event n in
  match n_callback n with
  | Created =>
      [mkChangeRecord (n_now n) "created" (src_path ev) (ev_is_directory ev) None]
  | Modified =>
      if ev_is_directory ev then []
      else [mkChangeRecord (n_now n) "modified" (src_path ev) false None]
  | Deleted =>
      [mkChangeRecord (n_now n) "deleted" (src_path ev) (ev_is_directory ev) None]
  | Moved =>
      [mkChangeRecord (n_now n) "moved" (dest_path ev) (ev_is_directory ev)
         (Some (src_path ev))]
  end.

(** ** Housekeeping *)

(** The three lines of the main loop about the connection to the path. *)
Definition connection_lines : list string :=
  ["警告: 監視対象パスへの接続が切れています: " +++ WATCH_PATH;
   "接続復旧を待機中...";
   "接続が復旧しました。監視を継続します。"].

(** From [st] to [st'] whole buckets were dropped and connection lines
    printed, and nothing else happened. *)
Definition housekeeping_only (st st' : state) : Prop :=
  subseq (changes st') (changes st)
  /\ last_report_time st' = last_report_time st
  /\ running st' = running st
  /\ observer st' = observer st
  /\ report_thread st' = report_thread st
  /\ stderr st' = stderr st
  /\ exists lines,
      stdout st' = stdout st ++ lines
      /\ Forall (fun line => In line connection_lines) lines.

(** ** The monitor on and off *)

(** The monitoring is off: [running] is false and no observer is running. *)
Definition monitor_off (st : state) : Prop :=
  running st = false /\ observer st <> Some ObserverStarted.

(** The monitoring is on. *)
Definition monitor_on (st : state) : Prop :=
  running st = true /\ observer st = Some ObserverStarted.

(** Code that does housekeeping only, however it ends. *)
Definition does_housekeeping {A : Type} (m : M A) : Prop :=
  forall st, housekeeping_only st (snd (m st)).

(** The monitoring is on while the run has not ended, and off once it
    has. *)
Definition on_until_ended {A : Type} (r : outcome A * state) : Prop :=
  match fst r with
  | Pending => monitor_on (snd r)
  | _ => monitor_off (snd r)
  end.

(** The line the handlers of [start] print for an exception: the one of
    [except KeyboardInterrupt], or the one of [except Exception as e]. *)
Definition handler_line (e : exn) : string :=
  if is_Exception e then "エラー: " +++ exc_msg e
  else nl +++ "キーボード割り込みにより監視を停止します。".

(** ** Recording and reporting in turn *)

(** What the monitor does, one thing after the other: the handler takes a
    notification, or a report is generated at a clock reading. *)
Inductive action : Type :=
| Notify (n : notification)
| Report (current_time : datetime).

(** The clock reading of an action. *)
Definition action_time (a : action) : datetime :=
  match a with
  | Notify n => n_now n
  | Report current_time => current_time
  end.

Definition act (console : string -> option exn) (a : action) (st : state)
  : state :=
  match a with
  | Notify n => set_changes (dispatch n (changes st)) st
  | Report current_time => snd (_generate_report console current_time st)
  end.

Definition run (console : string -> option exn) (actions : list action)
  (st : state) : state :=
  fold_left (fun st a => act console a st) actions st.

(** The records the notifications among the actions are to leave, in their
    order. *)
Definition recorded (actions : list action) : list ChangeRecord :=
  flat_map (fun a => match a with
                     | Notify n => records_of n
                     | Report _ => []
                     end) actions.

(** The reports among the actions: the clock reading and the change list of
    each. *)
Fixpoint reports (console : string -> option exn) (actions : list action)
  (st : state) : list (datetime * list ChangeRecord) :=
  match actions with
  | [] => []
  | Notify n :: actions' => reports console actions' (act console (Notify n) st)
  | Report current_time :: actions' =>
      (current_time,
       get_changes_since_last_report (last_report_time st) (changes st))
      :: reports console actions' (act console (Report current_time) st)
  end.

(** ** The process manager *)

(** The first of the [n] polls from the [from]-th on at which the process
    [pid] is gone. *)
Fixpoint first_gone (E : MonitorManager.env) (pid : Z) (from n : nat)
  : option nat :=
  match n with
  | O => None
  | S n' =>
      if MonitorManager.pid_exists E from pid
      then first_gone E pid (S from) n'
      else Some from
  end.

(** The process id the PID file holds: what [_get_running_pid] returns when
    the file is there and read and its text is a number. *)
Definition recorded_pid (E : MonitorManager.env) (w : MonitorManager.world)
  : option Z :=
  match MonitorManager.pid_file w, MonitorManager.read_error E with
  | Some text, None =>
      match MonitorManager.int_of_text E text with
      | Ok pid => Some pid
      | Raise _ => None
      end
  | _, _ => None
  end.

(** The call by which [stop_monitor] asks the process [pid] to end, and the
    one by which it forces it, on the platform of [E]. *)
Definition terminate_call (E : MonitorManager.env) (pid : Z)
  : MonitorManager.os_call :=
  if MonitorManager.windows E then MonitorManager.Taskkill pid
  else MonitorManager.Kill pid MonitorManager.SIGTERM.

Definition force_call (E : MonitorManager.env) (pid : Z)
  : MonitorManager.os_call :=
  if MonitorManager.windows E then MonitorManager.Taskkill pid
  else MonitorManager.Kill pid MonitorManager.SIGKILL.

(** A manager on Unix none of whose calls fails; the monitor it starts is
    process 4242, found alive at the first three polls and gone after. *)
Definition sample_env : MonitorManager.env :=
  MonitorManager.mkenv false "/opt/monitor/file_monitor.py" true
    (fun _ => None)
    (fun text =>
       if String.eqb text "4242" then Ok 4242
       else Raise (value_error "invalid literal for int() with base 10"))
    None None None (Ok 4242) (fun _ => None) (fun n _ => (n <? 3)%nat).

(** No PID file, nothing printed, no call made. *)
Definition empty_world : MonitorManager.world :=
  MonitorManager.mkworld None [] [] 0.

(** The PID file of process 4242. *)
Definition running_world : MonitorManager.world :=
  MonitorManager.mkworld (Some "4242") [] [] 0.

(** * Properties *)

(** ** Comparisons are total orders *)

Class TotalCompare {A : Type} (cmp : A -> A -> comparison) : Prop :=
  {
    cmp_eq : forall a b, cmp a b = Eq -> a = b;
    cmp_refl : forall a, cmp a a = Eq;
    cmp_opp : forall a b, cmp b a = CompOpp (cmp a b);
    cmp_lt_trans : forall a b c, cmp a b = Lt -> cmp b c = Lt -> cmp a c = Lt
  }.

#[export] Instance Z_TotalCompare : TotalCompare Z.compare.
Proof.
  split.
  - apply Z.compare_eq.
  - apply Z.compare_refl.
  - intros a b. apply Z.compare_antisym.
  - intros a b c. rewrite !Z.compare_lt_iff. lia.
Qed.

Section Lexicographic.

Context {A B C : Type} (f : C -> A) (g : C -> B).
Context (cmpA : A -> A -> comparison) (cmpB : B -> B -> comparison).
Context `{!TotalCompare cmpA} `{!TotalCompare cmpB}.
Hypothesis fg_inj : forall x y, f x = f y -> g x = g y -> x = y.

Lemma lex_TotalCompare :
  TotalCompare (fun x y : C => lexc (cmpA (f x) (f y)) (cmpB (g x) (g y))).
Proof.
  split.
  - intros a b H. destruct (cmpA (f a) (f b)) eqn:EA; simpl in H; try discriminate.
    apply fg_inj; [now apply (cmp_eq (cmp := cmpA)) | now apply (cmp_eq (cmp := cmpB))].
  - intros a. now rewrite !cmp_refl.
  - intros a b. rewrite (cmp_opp (cmp := cmpA) (f a) (f b)),
      (cmp_opp (cmp := cmpB) (g a) (g b)).
    now destruct (cmpA (f a) (f b)).
  - intros a b c H1 H2.
    destruct (cmpA (f a) (f b)) eqn:E1; simpl in H1; try discriminate;
      destruct (cmpA (f b) (f c)) eqn:E2; simpl in H2; try discriminate.
    + apply cmp_eq in E1, E2. rewrite E1, E2, cmp_refl. simpl.
      eapply cmp_lt_trans; eassumption.
    + apply cmp_eq in E1. now rewrite E1, E2.
    + apply cmp_eq in E2. now rewrite <- E2, E1.
    + now rewrite (cmp_lt_trans _ _ _ E1 E2).
Qed.

End Lexicographic.

#[export] Instance date_TotalCompare : TotalCompare date_compare.
Proof.
  pose (ym := fun d : date => (year d, month d)).
  assert (TotalCompare
            (fun p q : Z * Z => lexc (fst p ?= fst q) (snd p ?= snd q))) as Hym.
  { apply (lex_TotalCompare fst snd Z.compare Z.compare).
    intros [] [] ? ?; simpl in *; congruence. }
  pose proof (lex_TotalCompare ym day _ Z.compare) as H.
  simpl in H.
  assert (forall x y : date, ym x = ym y -> day x = day y -> x = y) as Hinj.
  { intros [] [] E1 E2. unfold ym in E1. simpl in *. congruence. }
  specialize (H Hinj). destruct H as [h1 h2 h3 h4].
  assert (forall a b, date_compare a b
            = lexc (lexc (year a ?= year b) (month a ?= month b)) (day a ?= day b)) as E.
  { intros a b. unfold date_compare. now destruct (year a ?= year b). }
  split; intros *; rewrite ?E; [apply h1 | apply h2 | apply h3 | apply h4].
Qed.

#[export] Instance time_TotalCompare : TotalCompare time_compare.
Proof.
  pose (hm := fun t : time => (hour t, minute t)).
  pose (su := fun t : time => (second t, microsecond t)).
  assert (TotalCompare
            (fun p q : Z * Z => lexc (fst p ?= fst q) (snd p ?= snd q))) as Hp.
  { apply (lex_TotalCompare fst snd Z.compare Z.compare).
    intros [] [] ? ?; simpl in *; congruence. }
  pose proof (lex_TotalCompare hm su _ _) as H.
  simpl in H.
  assert (forall x y : time, hm x = hm y -> su x = su y -> x = y) as Hinj.
  { intros [] [] E1 E2. unfold hm, su in *. simpl in *. congruence. }
  specialize (H Hinj). destruct H as [h1 h2 h3 h4].
  assert (forall a b, time_compare a b
            = lexc (lexc (hour a ?= hour b) (minute a ?= minute b))
                   (lexc (second a ?= second b) (microsecond a ?= microsecond b))) as E.
  { intros a b. unfold time_compare.
    now destruct (hour a ?= hour b), (minute a ?= minute b). }
  split; intros *; rewrite ?E; [apply h1 | apply h2 | apply h3 | apply h4].
Qed.

#[export] Instance datetime_TotalCompare : TotalCompare datetime_compare.
Proof.
  apply (lex_TotalCompare dt_date dt_time date_compare time_compare).
  intros [] [] ? ?; simpl in *; congruence.
Qed.

Section CompareFacts.

Context {A : Type} (cmp : A -> A -> comparison) `{!TotalCompare cmp}.

Lemma cmp_gt_lt (a b : A) : cmp a b = Gt <-> cmp b a = Lt.
Proof. rewrite (cmp_opp (cmp := cmp) a b). destruct (cmp a b); simpl; split; congruence. Qed.

Lemma cmp_eq_iff (a b : A) : cmp a b = Eq <-> a = b.
Proof. split; [apply cmp_eq | intros ->; apply cmp_refl]. Qed.

Lemma cmp_le_trans (a b c : A) :
  cmp a b <> Gt -> cmp b c <> Gt -> cmp a c <> Gt.
Proof.
  intros H1 H2 H3. apply cmp_gt_lt in H3.
  destruct (cmp a b) eqn:E1; try congruence.
  - apply cmp_eq in E1. subst b. apply cmp_gt_lt in H3. congruence.
  - destruct (cmp b c) eqn:E2; try congruence.
    + apply cmp_eq in E2. subst c. rewrite (cmp_opp (cmp := cmp) a b), E1 in H3. discriminate.
    + pose proof (cmp_lt_trans _ _ _ E2 H3) as H.
      rewrite (cmp_opp (cmp := cmp) a b), E1 in H. discriminate.
Qed.

Lemma cmp_lt_le_trans (a b c : A) :
  cmp a b = Lt -> cmp b c <> Gt -> cmp a c = Lt.
Proof.
  intros H1 H2. destruct (cmp b c) eqn:E; try congruence.
  - apply cmp_eq in E. now subst.
  - eapply cmp_lt_trans; eassumption.
Qed.

Lemma cmp_le_lt_trans (a b c : A) :
  cmp a b <> Gt -> cmp b c = Lt -> cmp a c = Lt.
Proof.
  intros H1 H2. destruct (cmp a b) eqn:E; try congruence.
  - apply cmp_eq in E. now subst.
  - eapply cmp_lt_trans; eassumption.
Qed.

Lemma cmp_le_antisym (a b : A) : cmp a b <> Gt -> cmp b a <> Gt -> a = b.
Proof.
  intros H1 H2. rewrite (cmp_opp (cmp := cmp) a b) in H2.
  destruct (cmp a b) eqn:E; simpl in H2; try congruence.
  now apply cmp_eq.
Qed.

Lemma cmp_not_lt_le (a b : A) : cmp a b <> Lt <-> cmp b a <> Gt.
Proof. rewrite (cmp_opp (cmp := cmp) a b). destruct (cmp a b); simpl; split; congruence. Qed.

End CompareFacts.

Lemma dt_ltb_iff (a b : datetime) : dt_ltb a b = true <-> dt_lt a b.
Proof.
  unfold dt_ltb, dt_lt. destruct (datetime_compare a b); split; congruence.
Qed.

Lemma dt_gtb_iff (a b : datetime) : dt_gtb a b = true <-> dt_lt b a.
Proof.
  unfold dt_gtb, dt_lt. rewrite <- (cmp_gt_lt datetime_compare).
  destruct (datetime_compare a b); split; congruence.
Qed.

Lemma dt_ltb_false_iff (a b : datetime) : dt_ltb a b = false <-> dt_le b a.
Proof.
  unfold dt_ltb, dt_le. rewrite <- (cmp_not_lt_le datetime_compare).
  destruct (datetime_compare a b); split; congruence.
Qed.

Lemma dt_le_refl (a : datetime) : dt_le a a.
Proof. unfold dt_le. rewrite cmp_refl. discriminate. Qed.

Lemma dt_le_trans (a b c : datetime) : dt_le a b -> dt_le b c -> dt_le a c.
Proof. apply (cmp_le_trans datetime_compare). Qed.

Lemma dt_lt_le (a b : datetime) : dt_lt a b -> dt_le a b.
Proof. unfold dt_lt, dt_le. congruence. Qed.

Lemma dt_le_antisym (a b : datetime) : dt_le a b -> dt_le b a -> a = b.
Proof. apply (cmp_le_antisym datetime_compare). Qed.

Lemma dt_le_lt_trans (a b c : datetime) : dt_le a b -> dt_lt b c -> dt_lt a c.
Proof. apply (cmp_le_lt_trans datetime_compare). Qed.

Lemma dt_le_not_lt (a b : datetime) : dt_le a b <-> ~ dt_lt b a.
Proof.
  unfold dt_le, dt_lt. now rewrite (cmp_gt_lt datetime_compare).
Qed.

(** ** The stable sort by timestamp *)

Lemma insert_by_timestamp_perm (x : ChangeRecord) (l : list ChangeRecord) :
  Permutation (insert_by_timestamp x l) (x :: l).
Proof.
  induction l as [|y l IH]; simpl; [reflexivity|].
  destruct (dt_ltb (timestamp y) (timestamp x)); [|reflexivity].
  rewrite IH. apply perm_swap.
Qed.

Lemma sorted_by_timestamp_perm (l : list ChangeRecord) :
  Permutation (sorted_by_timestamp l) l.
Proof.
  induction l as [|x l IH]; simpl; [reflexivity|].
  rewrite insert_by_timestamp_perm. now apply perm_skip.
Qed.

Lemma insert_by_timestamp_sorted (x : ChangeRecord) (l : list ChangeRecord) :
  StronglySorted timestamp_le l ->
  StronglySorted timestamp_le (insert_by_timestamp x l).
Proof.
  induction 1 as [|y l Hl IH Hy]; simpl.
  - repeat constructor.
  - destruct (dt_ltb (timestamp y) (timestamp x)) eqn:E.
    + constructor; [exact IH|].
      apply dt_ltb_iff in E.
      rewrite Forall_forall. intros z Hz.
      apply (Permutation_in _ (insert_by_timestamp_perm x l)) in Hz.
      destruct Hz as [<- | Hz].
      * now apply dt_lt_le.
      * rewrite Forall_forall in Hy. now apply Hy.
    + apply dt_ltb_false_iff in E.
      constructor; [now constructor|].
      constructor; [exact E|].
      rewrite Forall_forall in *. intros z Hz.
      eapply dt_le_trans; [exact E | now apply Hy].
Qed.

Lemma sorted_by_timestamp_sorted (l : list ChangeRecord) :
  StronglySorted timestamp_le (sorted_by_timestamp l).
Proof.
  induction l as [|x l IH]; simpl; [constructor|].
  now apply insert_by_timestamp_sorted.
Qed.

(** On a sorted list, inserting commutes with a selection. *)
Lemma filter_insert_by_timestamp (p : ChangeRecord -> bool)
  (x : ChangeRecord) (l : list ChangeRecord) :
  StronglySorted timestamp_le l ->
  filter p (insert_by_timestamp x l)
  = if p x then insert_by_timestamp x (filter p l) else filter p l.
Proof.
  induction 1 as [|y l Hl IH Hy]; simpl.
  - now destruct (p x).
  - destruct (dt_ltb (timestamp y) (timestamp x)) eqn:E; simpl.
    + rewrite IH. destruct (p y), (p x); simpl; try reflexivity.
      now rewrite E.
    + destruct (p x) eqn:Px, (p y) eqn:Py; simpl; rewrite ?E; try reflexivity.
      (* [y] is left out: no later kept record is before [x] either *)
      clear IH. apply dt_ltb_false_iff in E.
      induction l as [|z l IHl]; simpl; [reflexivity|].
      inversion Hl; subst. inversion Hy; subst.
      destruct (p z); [|now apply IHl].
      simpl.
      assert (dt_ltb (timestamp z) (timestamp x) = false) as ->; [|reflexivity].
      apply dt_ltb_false_iff. eapply dt_le_trans; eassumption.
Qed.

Lemma filter_sorted_by_timestamp (p : ChangeRecord -> bool)
  (l : list ChangeRecord) :
  filter p (sorted_by_timestamp l) = sorted_by_timestamp (filter p l).
Proof.
  induction l as [|x l IH]; simpl; [reflexivity|].
  rewrite filter_insert_by_timestamp by apply sorted_by_timestamp_sorted.
  rewrite IH. now destruct (p x).
Qed.

Lemma sorted_by_timestamp_id (l : list ChangeRecord) :
  StronglySorted timestamp_le l -> sorted_by_timestamp l = l.
Proof.
  induction 1 as [|x l Hl IH Hx]; simpl; [reflexivity|].
  rewrite IH. destruct l as [|y l']; simpl; [reflexivity|].
  inversion Hx as [|? ? Hxy _]; subst.
  apply dt_ltb_false_iff in Hxy. now rewrite Hxy.
Qed.

Lemma same_time_iff (t : datetime) (c : ChangeRecord) :
  same_time t c = true <-> timestamp c = t.
Proof.
  unfold same_time. rewrite <- (cmp_eq_iff datetime_compare).
  destruct (datetime_compare (timestamp c) t); split; congruence.
Qed.

(** The sort is stable: records of equal timestamp keep their order. *)
Lemma sorted_by_timestamp_stable (t : datetime) (l : list ChangeRecord) :
  filter (same_time t) (sorted_by_timestamp l) = filter (same_time t) l.
Proof.
  rewrite filter_sorted_by_timestamp. apply sorted_by_timestamp_id.
  induction l as [|c l IH]; simpl; [constructor|].
  destruct (same_time t c) eqn:E; [|exact IH].
  constructor; [exact IH|].
  apply Forall_forall. intros c' Hc'. apply filter_In in Hc'.
  destruct Hc' as [_ Hc']. apply same_time_iff in E, Hc'.
  unfold timestamp_le. rewrite E, Hc'. apply dt_le_refl.
Qed.

(** Two sorted lists that hold, for every timestamp, the same records in the
    same order are one list. *)
Lemma stable_sorted_unique (l1 l2 : list ChangeRecord) :
  StronglySorted timestamp_le l1 -> StronglySorted timestamp_le l2 ->
  (forall t, filter (same_time t) l1 = filter (same_time t) l2) ->
  l1 = l2.
Proof.
  revert l2. induction l1 as [|a l1 IH]; intros l2 H1 H2 Hf.
  - destruct l2 as [|b l2]; [reflexivity|].
    specialize (Hf (timestamp b)). simpl in Hf.
    rewrite (proj2 (same_time_iff _ b) eq_refl) in Hf. discriminate.
  - destruct l2 as [|b l2].
    + specialize (Hf (timestamp a)). simpl in Hf.
      rewrite (proj2 (same_time_iff _ a) eq_refl) in Hf. discriminate.
    + inversion H1 as [|? ? H1' Ha]; subst. inversion H2 as [|? ? H2' Hb]; subst.
      rewrite Forall_forall in Ha, Hb.
      assert (a = b) as ->.
      { pose proof (Hf (timestamp a)) as Fa. pose proof (Hf (timestamp b)) as Fb.
        simpl in Fa, Fb.
        rewrite (proj2 (same_time_iff _ a) eq_refl) in Fa.
        rewrite (proj2 (same_time_iff _ b) eq_refl) in Fb.
        destruct (same_time (timestamp a) b) eqn:Eab; [now inversion Fa|].
        destruct (same_time (timestamp b) a) eqn:Eba.
        - apply same_time_iff in Eba.
          rewrite (proj2 (same_time_iff _ b) (eq_sym Eba)) in Eab. discriminate.
        - assert (In a l2) as Hin2
              by (eapply (proj1 (filter_In _ _ _)); rewrite <- Fa; now left).
          assert (In b l1) as Hin1
              by (eapply (proj1 (filter_In _ _ _)); rewrite Fb; now left).
          pose proof (dt_le_antisym _ _ (Ha _ Hin1) (Hb _ Hin2)) as E.
          rewrite (proj2 (same_time_iff _ b) (eq_sym E)) in Eab. discriminate. }
      f_equal. apply IH; auto.
      intros t. specialize (Hf t). simpl in Hf.
      destruct (same_time t b); [now inversion Hf | exact Hf].
Qed.

(** Any stable sort by timestamp returns the list [sorted_by_timestamp]
    returns. *)
Lemma stable_sort_is_sorted_by_timestamp (l l' : list ChangeRecord) :
  StronglySorted timestamp_le l' ->
  (forall t, filter (same_time t) l' = filter (same_time t) l) ->
  l' = sorted_by_timestamp l.
Proof.
  intros Hs Hf. apply stable_sorted_unique; auto.
  - apply sorted_by_timestamp_sorted.
  - intros t. now rewrite sorted_by_timestamp_stable.
Qed.

(** The nested loops select from the records in store order. *)
Lemma collect_since_filter (t : datetime) (s : store) :
  collect_since t s = filter (newer_than t) (all_records s).
Proof.
  unfold collect_since, all_records.
  enough (forall acc,
             fold_left
               (fun all_changes date_changes =>
                  fold_left
                    (fun all_changes change =>
                       if dt_gtb (timestamp change) t
                       then all_changes ++ [change] else all_changes)
                    date_changes all_changes)
               (map snd s) acc
             = acc ++ filter (newer_than t) (List.concat (map snd s))) as H
      by apply (H []).
  induction s as [|[k l] s IH]; intros acc; simpl.
  - now rewrite app_nil_r.
  - rewrite IH, filter_app, app_assoc. f_equal.
    clear. revert acc. induction l as [|c l IHl]; intros acc; simpl.
    + now rewrite app_nil_r.
    + rewrite IHl. unfold newer_than at 2.
      destruct (dt_gtb (timestamp c) t); [|reflexivity].
      now rewrite <- app_assoc.
Qed.

Lemma get_changes_filter (t : datetime) (s : store) :
  get_changes_since_last_report t s
  = sorted_by_timestamp (filter (newer_than t) (all_records s)).
Proof.
  unfold get_changes_since_last_report. now rewrite collect_since_filter.
Qed.

(** The changes since [t] are the stored records after [t]. *)
Lemma get_changes_since_last_report_members (t : datetime) (s : store)
  (c : ChangeRecord) :
  In c (all_records s) -> dt_lt t (timestamp c) ->
  In c (get_changes_since_last_report t s).
Proof.
  intros Hin Hlt. rewrite get_changes_filter.
  apply (Permutation_in _ (Permutation_sym (sorted_by_timestamp_perm _))).
  apply filter_In. split; [exact Hin | now apply dt_gtb_iff].
Qed.

(** ** Reading the changes since a time ([get_changes_since_last_report]) *)

Lemma StronglySorted_map_timestamp (l : list ChangeRecord) :
  StronglySorted timestamp_le l -> StronglySorted dt_le (map timestamp l).
Proof.
  induction 1 as [|x l Hl IH Hx]; simpl; constructor; [exact IH|].
  rewrite Forall_forall in *. intros t Ht.
  apply in_map_iff in Ht. destruct Ht as [c [<- Hc]]. now apply Hx.
Qed.

(** A list of time stamps has one sorted arrangement. *)
Lemma sorted_perm_unique (l l' : list datetime) :
  Permutation l l' -> StronglySorted dt_le l -> StronglySorted dt_le l' -> l = l'.
Proof.
  revert l'. induction l as [|a l IH]; intros l' HP Hl Hl'.
  - now apply Permutation_nil in HP.
  - destruct l' as [|b l'].
    + apply Permutation_sym, Permutation_nil in HP. discriminate.
    + inversion Hl as [|? ? Hs Ha]; subst. inversion Hl' as [|? ? Hs' Hb]; subst.
      rewrite Forall_forall in Ha, Hb.
      assert (a = b) as ->.
      { assert (In b (a :: l)) as [->|Hin]
            by (eapply Permutation_in; [apply Permutation_sym; exact HP | now left]);
          [reflexivity|].
        assert (In a (b :: l')) as [->|Hin']
            by (eapply Permutation_in; [exact HP | now left]);
          [reflexivity|].
        apply dt_le_antisym; auto. }
      f_equal. apply IH; auto. now apply Permutation_cons_inv in HP.
Qed.

Lemma filter_subseq {A : Type} (p : A -> bool) (l : list A) :
  subseq (filter p l) l.
Proof.
  induction l as [|x l IH]; simpl; [constructor|].
  destruct (p x); now constructor.
Qed.

Lemma newer_than_iff (t : datetime) (c : ChangeRecord) :
  newer_than t c = true <-> dt_lt t (timestamp c).
Proof. apply dt_gtb_iff. Qed.

(** C1. For every store and every time [t], [get_changes_since_last_report]
    returns exactly the stored records whose timestamp is strictly after [t]
    (each as often as it is stored), in non-decreasing order of timestamp;
    a store that holds the same records in other buckets or in another order
    gives the same records with the same sequence of timestamps. *)
Theorem get_changes_since_last_report_exact (s : store) (t : datetime) :
  Permutation (get_changes_since_last_report t s)
    (filter (newer_than t) (all_records s))
  /\ (forall c, In c (get_changes_since_last_report t s)
                <-> In c (all_records s) /\ dt_lt t (timestamp c))
  /\ StronglySorted timestamp_le (get_changes_since_last_report t s)
  /\ (forall s', Permutation (all_records s) (all_records s') ->
                 Permutation (get_changes_since_last_report t s')
                   (get_changes_since_last_report t s)
                 /\ map timestamp (get_changes_since_last_report t s')
                    = map timestamp (get_changes_since_last_report t s)).
Proof.
  rewrite get_changes_filter.
  assert (Permutation (sorted_by_timestamp (filter (newer_than t) (all_records s)))
            (filter (newer_than t) (all_records s))) as HP
      by apply sorted_by_timestamp_perm.
  split; [exact HP|]. split; [|split].
  - intros c. split.
    + intros H. apply (Permutation_in _ HP) in H.
      apply filter_In in H. now rewrite newer_than_iff in H.
    + intros [H1 H2]. apply (Permutation_in _ (Permutation_sym HP)).
      apply filter_In. now rewrite newer_than_iff.
  - apply sorted_by_timestamp_sorted.
  - intros s' Hs'. rewrite get_changes_filter.
    assert (Permutation (sorted_by_timestamp (filter (newer_than t) (all_records s')))
              (sorted_by_timestamp (filter (newer_than t) (all_records s)))) as HP'.
    { rewrite !sorted_by_timestamp_perm.
      apply Permutation_sym.
      clear HP. induction Hs'; simpl.
      - constructor.
      - destruct (newer_than t x); [now constructor | assumption].
      - destruct (newer_than t x), (newer_than t y);
          try reflexivity; constructor.
      - etransitivity; eassumption. }
    split; [exact HP'|].
    apply sorted_perm_unique.
    + now apply Permutation_map.
    + apply StronglySorted_map_timestamp, sorted_by_timestamp_sorted.
    + apply StronglySorted_map_timestamp, sorted_by_timestamp_sorted.
Qed.

Lemma get_changes_since_last_report_exact_witness :
  Permutation (all_records sample_store) (all_records sample_store_swapped)
  /\ map timestamp
       (get_changes_since_last_report (at_time 2024 3 5 9 30 0)
          sample_store_swapped)
     = map timestamp
         (get_changes_since_last_report (at_time 2024 3 5 9 30 0) sample_store).
Proof.
  assert (Permutation (all_records sample_store)
            (all_records sample_store_swapped)) as HP.
  { vm_compute. apply (Permutation_app_comm [_; _] [_]). }
  split; [exact HP|].
  apply (get_changes_since_last_report_exact sample_store
           (at_time 2024 3 5 9 30 0)).
  exact HP.
Defined.

(** C10. Raising the time can only drop records: for [t1 <= t2] the changes
    since [t2] are those of the changes since [t1] that are after [t2], in
    the same order, hence a subsequence of them; and when no stored record
    is after [t2] the result is empty. *)
Theorem get_changes_since_last_report_antitone
  (s : store) (t1 t2 : datetime) :
  dt_le t1 t2 ->
  get_changes_since_last_report t2 s
  = filter (newer_than t2) (get_changes_since_last_report t1 s)
  /\ subseq (get_changes_since_last_report t2 s)
       (get_changes_since_last_report t1 s)
  /\ ((forall c, In c (all_records s) -> dt_le (timestamp c) t2) ->
      get_changes_since_last_report t2 s = []).
Proof.
  intros Hle.
  assert (get_changes_since_last_report t2 s
          = filter (newer_than t2) (get_changes_since_last_report t1 s)) as E.
  { rewrite !get_changes_filter, filter_sorted_by_timestamp. f_equal.
    induction (all_records s) as [|c l IH]; simpl; [reflexivity|].
    destruct (newer_than t1 c) eqn:E1; simpl; rewrite IH.
    - reflexivity.
    - destruct (newer_than t2 c) eqn:E2; [|reflexivity].
      apply newer_than_iff in E2.
      assert (newer_than t1 c = true) as E1'
          by (apply newer_than_iff; eapply dt_le_lt_trans; eassumption).
      congruence. }
  split; [exact E|]. split.
  - rewrite E. apply filter_subseq.
  - intros Hall. rewrite get_changes_filter.
    assert (filter (newer_than t2) (all_records s) = []) as ->; [|reflexivity].
    induction (all_records s) as [|c l IH]; simpl; [reflexivity|].
    destruct (newer_than t2 c) eqn:E2.
    + apply newer_than_iff in E2.
      assert (dt_le (timestamp c) t2) as Hc by (apply Hall; now left).
      apply dt_le_not_lt in Hc. contradiction.
    + apply IH. intros c' Hc'. apply Hall. now right.
Qed.

Lemma get_changes_since_last_report_antitone_witness :
  dt_le (at_time 2024 3 5 9 0 0) (at_time 2024 3 5 9 30 0)
  /\ subseq
       (get_changes_since_last_report (at_time 2024 3 5 9 30 0) sample_store)
       (get_changes_since_last_report (at_time 2024 3 5 9 0 0) sample_store).
Proof.
  assert (dt_le (at_time 2024 3 5 9 0 0) (at_time 2024 3 5 9 30 0)) as H
      by (vm_compute; discriminate).
  split; [exact H|].
  apply (get_changes_since_last_report_antitone sample_store _ _ H).
Defined.

(** ** The calendar *)

Lemma days_before_year_split (a b c e : Z) :
  0 <= a -> 0 <= b <= 3 -> 0 <= c <= 24 -> 0 <= e <= 3 ->
  _days_before_year (400 * a + 100 * b + 4 * c + e + 1)
  = 146097 * a + 36524 * b + 1461 * c + 365 * e.
Proof.
  intros. unfold _days_before_year. cbv zeta.
  replace (400 * a + 100 * b + 4 * c + e + 1 - 1)
    with (400 * a + 100 * b + 4 * c + e) by lia.
  Z.div_mod_to_equations. lia.
Qed.

Ltac bool_to_prop :=
  rewrite ?andb_true_iff, ?orb_true_iff, ?negb_true_iff, ?andb_false_iff,
    ?orb_false_iff, ?negb_false_iff, ?Z.eqb_eq, ?Z.eqb_neq, ?Z.ltb_lt,
    ?Z.leb_le, ?Z.ltb_ge, ?Z.leb_gt in *.

Lemma is_leap_split (a b c e : Z) :
  0 <= a -> 0 <= b <= 3 -> 0 <= c <= 24 -> 0 <= e <= 3 ->
  _is_leap (400 * a + 100 * b + 4 * c + e + 1)
  = (e =? 3) && (negb (c =? 24) || (b =? 3)).
Proof.
  intros. unfold _is_leap. apply eq_true_iff_eq. bool_to_prop.
  Z.div_mod_to_equations. lia.
Qed.

Lemma ord2ymd_unfold (n : Z) :
  _ord2ymd n
  = let n0 := n - 1 in
    let a := n0 / 146097 in
    let r1 := n0 mod 146097 in
    let b := r1 / 36524 in
    let r2 := r1 mod 36524 in
    let c := r2 / 1461 in
    let r3 := r2 mod 1461 in
    let e := r3 / 365 in
    let r4 := r3 mod 365 in
    let y := 400 * a + 100 * b + 4 * c + e + 1 in
    if (e =? 4) || (b =? 4) then mkdate (y - 1) 12 31
    else
      let md := month_day r4 ((e =? 3) && (negb (c =? 24) || (b =? 3))) in
      mkdate y (fst md) (snd md).
Proof.
  unfold _ord2ymd, month_day, _DI400Y, _DI100Y, _DI4Y. cbv zeta.
  replace ((n - 1) / 146097 * 400 + 1 + (n - 1) mod 146097 / 36524 * 100
           + (n - 1) mod 146097 mod 36524 / 1461 * 4
           + (n - 1) mod 146097 mod 36524 mod 1461 / 365)
    with (400 * ((n - 1) / 146097) + 100 * ((n - 1) mod 146097 / 36524)
          + 4 * ((n - 1) mod 146097 mod 36524 / 1461)
          + (n - 1) mod 146097 mod 36524 mod 1461 / 365 + 1) by ring.
  destruct (_ =? 4); simpl orb; [reflexivity|].
  destruct (_ =? 4); simpl orb; [reflexivity|].
  match goal with |- context [if ?n <? ?p then _ else _] => destruct (n <? p) end;
    reflexivity.
Qed.

(** A property checked on [0 .. k-1] holds there. *)
Lemma forallb_below (f : Z -> bool) (k : nat) :
  forallb f (map Z.of_nat (seq 0 k)) = true ->
  forall n, 0 <= n < Z.of_nat k -> f n = true.
Proof.
  intros H n Hn. rewrite forallb_forall in H. apply H.
  apply in_map_iff. exists (Z.to_nat n). split; [lia|].
  apply in_seq. lia.
Qed.

Lemma month_day_spec (leapyear : bool) (n : Z) :
  0 <= n < 365 -> month_day_ok leapyear n = true.
Proof.
  intros H. apply (forallb_below (month_day_ok leapyear) 365); [|exact H].
  destruct leapyear; vm_compute; reflexivity.
Qed.


Lemma month_pair_spec (leapyear : bool) (m1 m2 : Z) :
  1 <= m1 <= 12 -> 1 <= m2 <= 12 ->
  let before m := _DAYS_BEFORE_MONTH m + (if (2 <? m) && leapyear then 1 else 0) in
  let dim m := if (m =? 2) && leapyear then 29 else _DAYS_IN_MONTH m in
  0 <= before m1 /\ 1 <= dim m1
  /\ before m1 + dim m1 <= 365 + (if leapyear then 1 else 0)
  /\ (m1 < m2 -> before m1 + dim m1 <= before m2).
Proof.
  intros H1 H2.
  assert (month_pair_ok leapyear (13 * m1 + m2) = true) as H.
  { apply (forallb_below (month_pair_ok leapyear) 169); [|lia].
    destruct leapyear; vm_compute; reflexivity. }
  unfold month_pair_ok in H.
  replace ((13 * m1 + m2) / 13) with m1 in H by (Z.div_mod_to_equations; lia).
  replace ((13 * m1 + m2) mod 13) with m2 in H by (Z.div_mod_to_equations; lia).
  cbv zeta in *.
  assert ((m1 =? 0) = false) as E1 by (apply Z.eqb_neq; lia).
  assert ((m2 =? 0) = false) as E2 by (apply Z.eqb_neq; lia).
  rewrite E1, E2 in H. cbn [orb] in H.
  rewrite !andb_true_iff, orb_true_iff, negb_true_iff in H.
  rewrite !Z.leb_le, Z.ltb_ge in H. intuition lia.
Qed.

Lemma days_before_year_succ (y : Z) :
  _days_before_year (y + 1)
  = _days_before_year y + 365 + (if _is_leap y then 1 else 0).
Proof.
  unfold _days_before_year. cbv zeta.
  replace (y + 1 - 1) with y by lia.
  destruct (_is_leap y) eqn:E; unfold _is_leap in E; bool_to_prop;
    Z.div_mod_to_equations; lia.
Qed.

Lemma days_before_year_mono (y1 y2 : Z) :
  y1 <= y2 -> _days_before_year y1 <= _days_before_year y2.
Proof.
  intros H. unfold _days_before_year. cbv zeta.
  Z.div_mod_to_equations. lia.
Qed.

Lemma valid_date_iff (d : date) :
  valid_date d
  <-> 1 <= year d <= 9999 /\ 1 <= month d <= 12
      /\ 1 <= day d <= _days_in_month (year d) (month d).
Proof.
  unfold valid_date, valid_dateb, MINYEAR, MAXYEAR.
  rewrite !andb_true_iff, !Z.leb_le. intuition lia.
Qed.

(** The day number within the year is between 1 and the length of the year. *)
Lemma day_of_year_bounds (d : date) :
  valid_date d ->
  1 <= _days_before_month (year d) (month d) + day d
    <= 365 + (if _is_leap (year d) then 1 else 0).
Proof.
  intros H. apply valid_date_iff in H. destruct H as (Hy & Hm & Hd).
  pose proof (month_pair_spec (_is_leap (year d)) (month d) (month d) Hm Hm) as H.
  cbv beta zeta in H. unfold _days_before_month, _days_in_month in *.
  destruct (_is_leap (year d));
    rewrite ?andb_true_r, ?andb_false_r in *;
    destruct (2 <? month d), (month d =? 2); cbn iota in *; lia.
Qed.

Lemma toordinal_bounds (d : date) :
  valid_date d -> 1 <= toordinal d <= _MAXORDINAL.
Proof.
  intros H. pose proof (day_of_year_bounds d H) as Hb.
  apply valid_date_iff in H. destruct H as (Hy & Hm & Hd).
  unfold toordinal, _ymd2ord, _MAXORDINAL.
  pose proof (days_before_year_mono 1 (year d) ltac:(lia)) as H1.
  pose proof (days_before_year_mono (year d + 1) 10000 ltac:(lia)) as H2.
  rewrite days_before_year_succ in H2.
  change (_days_before_year 1) with 0 in H1.
  change (_days_before_year 10000) with 3652059 in H2.
  destruct (_is_leap (year d)); lia.
Qed.

(** Calendar order is the order of day numbers. *)
Lemma toordinal_lt (d1 d2 : date) :
  valid_date d1 -> valid_date d2 ->
  date_lt d1 d2 -> toordinal d1 < toordinal d2.
Proof.
  intros V1 V2 Hlt.
  pose proof (day_of_year_bounds d1 V1) as B1.
  pose proof (day_of_year_bounds d2 V2) as B2.
  apply valid_date_iff in V1, V2.
  destruct V1 as (Hy1 & Hm1 & Hd1), V2 as (Hy2 & Hm2 & Hd2).
  unfold date_lt, date_compare in Hlt. unfold toordinal, _ymd2ord.
  destruct (Z.compare_spec (year d1) (year d2)) as [Ey|Ly|Gy];
    simpl in Hlt; try discriminate.
  - rewrite Ey in *.
    destruct (Z.compare_spec (month d1) (month d2)) as [Em|Lm|Gm];
      simpl in Hlt; try discriminate.
    + rewrite Em. change (day d1 < day d2) in Hlt. clear - Hlt. lia.
    + pose proof (month_pair_spec (_is_leap (year d2)) (month d1) (month d2)
                    Hm1 Hm2) as H.
      cbv beta zeta in H. unfold _days_before_month, _days_in_month in *.
      destruct (_is_leap (year d2));
        rewrite ?andb_true_r, ?andb_false_r in *;
        destruct (2 <? month d1), (month d1 =? 2), (2 <? month d2),
          (month d2 =? 2); cbn iota in *; lia.
  - pose proof (days_before_year_mono (year d1 + 1) (year d2) ltac:(lia)) as H.
    rewrite days_before_year_succ in H.
    destruct (_is_leap (year d1)), (_is_leap (year d2)); lia.
Qed.

Ltac december_31 :=
  change (12 =? 2) with false; change (2 <? 12) with true;
  change (3 =? 3) with true; change (24 =? 24) with true;
  cbn [andb orb negb];
  change (_DAYS_IN_MONTH 12) with 31; change (_DAYS_BEFORE_MONTH 12) with 334.

(** [fromordinal] builds a date, and [toordinal] gives its number back. *)
Lemma fromordinal_spec (n : Z) :
  1 <= n <= _MAXORDINAL ->
  valid_date (fromordinal n) /\ toordinal (fromordinal n) = n.
Proof.
  intros Hn. unfold _MAXORDINAL in Hn.
  unfold fromordinal. rewrite ord2ymd_unfold. cbv zeta.
  set (n0 := n - 1).
  set (a := n0 / 146097). set (r1 := n0 mod 146097).
  set (b := r1 / 36524). set (r2 := r1 mod 36524).
  set (c := r2 / 1461). set (r3 := r2 mod 1461).
  set (e := r3 / 365). set (r4 := r3 mod 365).
  assert (n = 146097 * a + 36524 * b + 1461 * c + 365 * e + r4 + 1
          /\ 0 <= a <= 24 /\ 0 <= b <= 4 /\ 0 <= c <= 24 /\ 0 <= e <= 4
          /\ 0 <= r4 <= 364
          /\ (b = 4 -> c = 0 /\ e = 0 /\ r4 = 0)
          /\ (e = 4 -> r4 = 0 /\ c <= 23)) as Hdec.
  { subst a r1 b r2 c r3 e r4 n0. Z.div_mod_to_equations. lia. }
  clearbody a b c e r4. clear n0 r1 r2 r3.
  destruct Hdec as (Hn' & Ha & Hb & Hc & He & Hr & Hb4 & He4).
  rewrite valid_date_iff. unfold toordinal, _ymd2ord. cbn [year month day].
  destruct (Z.eqb_spec e 4) as [E4|E4]; [|destruct (Z.eqb_spec b 4) as [B4|B4]];
    cbn [orb year month day].
  - (* the last day of a leap year that ends a four year cycle *)
    destruct (He4 E4) as [-> Hc'].
    assert (b <= 3) as Hb' by (destruct (Z.eq_dec b 4) as [B|B]; [apply Hb4 in B|]; lia).
    replace (400 * a + 100 * b + 4 * c + e + 1 - 1)
      with (400 * a + 100 * b + 4 * c + 3 + 1) by lia.
    unfold _days_in_month, _days_before_month.
    rewrite days_before_year_split, is_leap_split by lia.
    replace (c =? 24) with false by (symmetry; apply Z.eqb_neq; lia).
    december_31. lia.
  - (* the last day of a 400 year cycle *)
    destruct (Hb4 B4) as (-> & -> & ->). subst b.
    replace (400 * a + 100 * 4 + 4 * 0 + 0 + 1 - 1)
      with (400 * a + 100 * 3 + 4 * 24 + 3 + 1) by lia.
    unfold _days_in_month, _days_before_month.
    rewrite days_before_year_split, is_leap_split by lia.
    december_31. lia.
  - assert (b <= 3 /\ e <= 3) as [Hb' He'] by lia.
    pose proof (month_day_spec ((e =? 3) && (negb (c =? 24) || (b =? 3))) r4
                  ltac:(lia)) as Hmd.
    unfold month_day_ok in Hmd. cbv zeta in Hmd.
    rewrite !andb_true_iff, !Z.leb_le, Z.eqb_eq in Hmd.
    unfold _days_in_month, _days_before_month.
    rewrite days_before_year_split, is_leap_split by lia.
    destruct Hmd as ((((H1 & H2) & H3) & H4) & H5).
    repeat split; try lia.
Qed.

Lemma fromordinal_valid (n : Z) :
  1 <= n <= _MAXORDINAL -> valid_date (fromordinal n).
Proof. intros H. now apply fromordinal_spec. Qed.

Lemma toordinal_fromordinal (n : Z) :
  1 <= n <= _MAXORDINAL -> toordinal (fromordinal n) = n.
Proof. intros H. now apply fromordinal_spec. Qed.

Lemma date_compare_lt_total (d1 d2 : date) :
  d1 = d2 \/ date_lt d1 d2 \/ date_lt d2 d1.
Proof.
  unfold date_lt. destruct (date_compare d1 d2) eqn:E.
  - left. now apply cmp_eq in E.
  - now right; left.
  - right; right. now apply (cmp_gt_lt date_compare).
Qed.

Lemma toordinal_inj (d1 d2 : date) :
  valid_date d1 -> valid_date d2 -> toordinal d1 = toordinal d2 -> d1 = d2.
Proof.
  intros V1 V2 E.
  destruct (date_compare_lt_total d1 d2) as [H|[H|H]]; [exact H| |];
    apply toordinal_lt in H; auto; lia.
Qed.

Lemma fromordinal_toordinal (d : date) :
  valid_date d -> fromordinal (toordinal d) = d.
Proof.
  intros V. pose proof (toordinal_bounds d V) as B.
  apply toordinal_inj; auto using fromordinal_valid, toordinal_fromordinal.
Qed.

Lemma toordinal_lt_iff (d1 d2 : date) :
  valid_date d1 -> valid_date d2 ->
  (date_lt d1 d2 <-> toordinal d1 < toordinal d2).
Proof.
  intros V1 V2. split; [now apply toordinal_lt|].
  intros H. destruct (date_compare_lt_total d1 d2) as [E|[E|E]].
  - subst. lia.
  - exact E.
  - apply toordinal_lt in E; auto. lia.
Qed.

Lemma toordinal_le_iff (d1 d2 : date) :
  valid_date d1 -> valid_date d2 ->
  (date_le d1 d2 <-> toordinal d1 <= toordinal d2).
Proof.
  intros V1 V2. unfold date_le.
  rewrite (cmp_gt_lt date_compare).
  pose proof (toordinal_lt_iff d2 d1 V2 V1) as H. unfold date_lt in H.
  rewrite H. lia.
Qed.

(** ** The next report time ([_get_next_report_time]) *)

Lemma dt_lt_iff (a b : datetime) :
  dt_lt a b
  <-> date_lt (dt_date a) (dt_date b)
      \/ (dt_date a = dt_date b /\ time_compare (dt_time a) (dt_time b) = Lt).
Proof.
  unfold dt_lt, datetime_compare, date_lt.
  destruct (date_compare (dt_date a) (dt_date b)) eqn:E; simpl.
  - apply cmp_eq in E. intuition congruence.
  - intuition congruence.
  - split; [discriminate|]. intros [H|[H _]]; [discriminate|].
    rewrite H, cmp_refl in E. discriminate.
Qed.

Lemma dt_le_iff (a b : datetime) :
  dt_le a b
  <-> date_lt (dt_date a) (dt_date b)
      \/ (dt_date a = dt_date b /\ time_compare (dt_time a) (dt_time b) <> Gt).
Proof.
  unfold dt_le, datetime_compare, date_lt.
  destruct (date_compare (dt_date a) (dt_date b)) eqn:E; simpl.
  - apply cmp_eq in E. intuition congruence.
  - intuition congruence.
  - split; [congruence|]. intros [H|[H _]]; [discriminate|].
    rewrite H, cmp_refl in E. discriminate.
Qed.

Lemma valid_time_iff (t : time) :
  valid_time t
  <-> 0 <= hour t < 24 /\ 0 <= minute t < 60 /\ 0 <= second t < 60
      /\ 0 <= microsecond t < 1000000.
Proof.
  unfold valid_time, valid_timeb.
  rewrite !andb_true_iff, !Z.leb_le, !Z.ltb_lt. intuition lia.
Qed.

(** A time of day is before [h]:00 sharp exactly when its hour is. *)
Lemma time_before_sharp (t : time) (h : Z) :
  valid_time t -> (time_compare t (time_hm h 0) = Lt <-> hour t < h).
Proof.
  intros V. apply valid_time_iff in V. unfold time_compare, time_hm. simpl.
  destruct (Z.compare_spec (hour t) h); simpl; [|intuition lia|intuition (lia || discriminate)].
  destruct (Z.compare_spec (minute t) 0); simpl; [|lia|intuition (lia || discriminate)].
  destruct (Z.compare_spec (second t) 0); simpl; [|lia|intuition (lia || discriminate)].
  destruct (Z.compare_spec (microsecond t) 0); simpl; intuition (lia || discriminate).
Qed.

Lemma sharp_le_sharp (h h' : Z) :
  time_compare (time_hm h 0) (time_hm h' 0) <> Gt <-> h <= h'.
Proof.
  unfold time_compare, time_hm. simpl.
  destruct (Z.compare_spec h h'); simpl; intuition (lia || discriminate).
Qed.

(** The loop over [REPORT_HOURS]: the least report hour after the current
    hour, if there is one. *)
Lemma first_hour_after_REPORT_HOURS (current_hour : Z) :
  match first_hour_after REPORT_HOURS current_hour with
  | Some h =>
      In h REPORT_HOURS /\ current_hour < h
      /\ forall h', In h' REPORT_HOURS -> current_hour < h' -> h <= h'
  | None => 17 <= current_hour
  end.
Proof.
  unfold REPORT_HOURS. simpl.
  repeat match goal with
         | |- context [?a <? ?b] => destruct (Z.ltb_spec a b)
         end; try lia;
    (split; [simpl; tauto | split; [lia|]]);
    intros h' Hh'; simpl in Hh'; lia.
Qed.

Lemma valid_time_sharp (h : Z) : In h REPORT_HOURS -> valid_time (time_hm h 0).
Proof.
  unfold REPORT_HOURS. simpl.
  intros [<-|[<-|[<-|[<-|[]]]]]; reflexivity.
Qed.

Lemma date_add_one_day (d : date) :
  valid_date d ->
  date_add d (mktimedelta 1 0 0)
  = if toordinal d <? _MAXORDINAL then Ok (next_day d)
    else Raise (overflow "date value out of range").
Proof.
  intros V. pose proof (toordinal_bounds d V) as B.
  unfold date_add, next_day. cbn [td_days].
  destruct (Z.ltb_spec (toordinal d) _MAXORDINAL);
    destruct (Z.ltb_spec 0 (toordinal d + 1));
    destruct (Z.leb_spec (toordinal d + 1) _MAXORDINAL);
    simpl; try reflexivity; lia.
Qed.

Lemma next_day_spec (d : date) :
  valid_date d -> d <> date_max ->
  valid_date (next_day d) /\ toordinal (next_day d) = toordinal d + 1
  /\ date_lt d (next_day d)
  /\ forall d', valid_date d' -> date_lt d d' -> date_le (next_day d) d'.
Proof.
  intros V Hmax. pose proof (toordinal_bounds d V) as B.
  assert (toordinal d < _MAXORDINAL) as Hlt.
  { destruct (Z.eq_dec (toordinal d) _MAXORDINAL) as [E|E]; [|lia].
    exfalso. apply Hmax. apply toordinal_inj; auto. reflexivity. }
  unfold next_day.
  destruct (fromordinal_spec (toordinal d + 1)) as [V' E']; [lia|].
  split; [exact V'|]. split; [exact E'|]. split.
  - apply toordinal_lt_iff; auto. lia.
  - intros d' Vd' Hd'. apply toordinal_le_iff; auto.
    apply toordinal_lt_iff in Hd'; auto. lia.
Qed.

(** C3 (as the code has it). For every current time before 17:00 of
    9999-12-31, the last day a date can hold, [_get_next_report_time] returns
    a time strictly after the current time, at one of the report hours 6, 10,
    14, 17 sharp, and no report hour sharp after the current time is earlier;
    from 17:00:00 on it is 06:00 of the following day. *)
Theorem _get_next_report_time_spec (current_time : datetime) :
  valid_datetime current_time ->
  dt_date current_time <> date_max \/ hour (dt_time current_time) < 17 ->
  exists next,
    _get_next_report_time current_time = Ok next
    /\ valid_datetime next
    /\ dt_lt current_time next
    /\ is_trigger_time next
    /\ (forall t, valid_datetime t -> is_trigger_time t ->
                  dt_lt current_time t -> dt_le next t)
    /\ (17 <= hour (dt_time current_time) ->
        next = datetime_combine (next_day (dt_date current_time)) (time_hm 6 0)
        /\ toordinal (dt_date next) = toordinal (dt_date current_time) + 1).
Proof.
  intros [Vd Vt] Hin.
  unfold _get_next_report_time.
  pose proof (first_hour_after_REPORT_HOURS (hour (dt_time current_time))) as Hf.
  destruct (first_hour_after REPORT_HOURS (hour (dt_time current_time)))
    as [h|] eqn:Eh.
  - (* a report hour is left today *)
    destruct Hf as (Hh & Hlt & Hmin).
    exists (datetime_combine (dt_date current_time) (time_hm h 0)).
    split; [reflexivity|]. split; [|split; [|split; [|split]]].
    + split; [exact Vd | now apply valid_time_sharp].
    + apply dt_lt_iff. right. split; [reflexivity|].
      now apply time_before_sharp.
    + now exists h.
    + intros t [Vtd Vtt] (h' & Hh' & Et) Ht.
      apply dt_lt_iff in Ht. apply dt_le_iff. simpl.
      destruct Ht as [Ht | [Ed Ht]]; [now left|]. right. split; [exact Ed|].
      rewrite Et in *. apply sharp_le_sharp. apply Hmin; [exact Hh'|].
      now apply time_before_sharp in Ht.
    + assert (In h REPORT_HOURS) as Hh17 by exact Hh.
      unfold REPORT_HOURS in Hh17. simpl in Hh17. lia.
  - (* none is left: 06:00 tomorrow *)
    assert (dt_date current_time <> date_max) as Hmax by (destruct Hin; [assumption | lia]).
    destruct (next_day_spec _ Vd Hmax) as (Vn & En & Hn & Hleast).
    change (timedelta_days 1) with (Ok (mktimedelta 1 0 0)). cbn [rbind].
    rewrite (date_add_one_day _ Vd).
    replace (toordinal (dt_date current_time) <? _MAXORDINAL) with true
      by (symmetry; apply Z.ltb_lt;
          pose proof (toordinal_bounds _ Vn); lia).
    simpl.
    exists (datetime_combine (next_day (dt_date current_time)) (time_hm 6 0)).
    split; [reflexivity|]. split; [|split; [|split; [|split]]].
    + split; [exact Vn | reflexivity].
    + apply dt_lt_iff. now left.
    + exists 6. split; [now left | reflexivity].
    + intros t [Vtd Vtt] (h' & Hh' & Et) Ht.
      apply dt_lt_iff in Ht. apply dt_le_iff. simpl.
      destruct Ht as [Ht | [Ed Ht]].
      * specialize (Hleast _ Vtd Ht).
        destruct (date_compare (next_day (dt_date current_time)) (dt_date t)) eqn:Ec.
        -- right. apply cmp_eq in Ec. split; [exact Ec|].
           rewrite Et. apply sharp_le_sharp.
           unfold REPORT_HOURS in Hh'. simpl in Hh'. lia.
        -- now left.
        -- now elim Hleast.
      * exfalso. rewrite Et in Ht. apply time_before_sharp in Ht; [|exact Vt].
        unfold REPORT_HOURS in Hh'. simpl in Hh'. lia.
    + intros _. split; [reflexivity | exact En].
Qed.

Lemma _get_next_report_time_spec_witness :
  exists next,
    _get_next_report_time (at_time 2024 3 5 17 0 0) = Ok next
    /\ next = at_time 2024 3 6 6 0 0.
Proof.
  destruct (_get_next_report_time_spec (at_time 2024 3 5 17 0 0))
    as (next & E & _ & _ & _ & _ & H17).
  - split; reflexivity.
  - left. discriminate.
  - exists next. split; [exact E|].
    destruct H17 as [-> _]; [simpl; lia | reflexivity].
Defined.

(** C3 as stated fails on the last day: at 17:00:00 of 9999-12-31, a time
    a [datetime] can hold, there is no following day and the function raises
    [OverflowError] instead of returning a time. *)
Lemma _get_next_report_time_last_day :
  valid_datetime (at_time 9999 12 31 17 0 0)
  /\ _get_next_report_time (at_time 9999 12 31 17 0 0)
     = Raise (overflow "date value out of range")
  /\ ~ (exists next,
          _get_next_report_time (at_time 9999 12 31 17 0 0) = Ok next
          /\ dt_lt (at_time 9999 12 31 17 0 0) next).
Proof.
  split; [split; reflexivity|]. split; [reflexivity|].
  intros (next & E & _). discriminate.
Qed.

(** From 17:00 on the last day the function raises, whatever the time. *)
Lemma _get_next_report_time_overflow (current_time : datetime) :
  valid_datetime current_time ->
  dt_date current_time = date_max -> 17 <= hour (dt_time current_time) ->
  _get_next_report_time current_time
  = Raise (overflow "date value out of range").
Proof.
  intros [Vd Vt] Ed Hh. unfold _get_next_report_time.
  pose proof (first_hour_after_REPORT_HOURS (hour (dt_time current_time))) as Hf.
  destruct (first_hour_after REPORT_HOURS (hour (dt_time current_time)))
    as [h|] eqn:Eh.
  - destruct Hf as (Hin & Hlt & _). unfold REPORT_HOURS in Hin. simpl in Hin. lia.
  - change (timedelta_days 1) with (Ok (mktimedelta 1 0 0)). cbn [rbind].
    rewrite (date_add_one_day _ Vd), Ed. reflexivity.
Qed.

(** ** Date keys: [strftime('%Y-%m-%d')] and [strptime] back *)

Lemma date_key_eq (dt : datetime) :
  date_key dt
  = pad4 (year (dt_date dt))
      +++ String "-" (pad2 (month (dt_date dt))
                        +++ String "-" (pad2 (day (dt_date dt)))).
Proof.
  unfold date_key. cbn [strftime Ascii.eqb Bool.eqb directive].
  unfold pad2 at 3. reflexivity.
Qed.

Lemma digit_val_digit (n : Z) : digit_val (digit n) = Some (n mod 10).
Proof.
  unfold digit_val, digit.
  assert (0 <= n mod 10 < 10) as H by (apply Z.mod_pos_bound; lia).
  rewrite nat_ascii_embedding by lia. cbv zeta.
  replace (Z.of_nat (48 + Z.to_nat (n mod 10))) with (48 + n mod 10) by lia.
  destruct (Z.leb_spec 48 (48 + n mod 10)); [|lia].
  destruct (Z.leb_spec (48 + n mod 10) 57); [|lia].
  cbn [andb]. f_equal. lia.
Qed.

Lemma parse_year_pad4 (y : Z) (rest : string) :
  0 <= y <= 9999 -> parse_year (pad4 y +++ rest) = Some (y, rest).
Proof.
  intros H. unfold pad4, pad2, parse_year. cbn [append].
  rewrite !digit_val_digit. do 2 f_equal.
  Z.div_mod_to_equations. lia.
Qed.

Lemma parse_num12_pad2 (two : Z -> Z -> bool) (n : Z) (rest : string) :
  0 <= n <= 99 -> two (n / 10) (n mod 10) = true ->
  parse_num12 two (pad2 n +++ rest) = Some (n, rest).
Proof.
  intros H Htwo. unfold pad2, parse_num12. cbn [append].
  rewrite !digit_val_digit.
  replace (n / 10 mod 10) with (n / 10) by (Z.div_mod_to_equations; lia).
  rewrite Htwo. do 2 f_equal. Z.div_mod_to_equations. lia.
Qed.

Lemma month_two_ok (m : Z) :
  1 <= m <= 12 -> month_two (m / 10) (m mod 10) = true.
Proof.
  intros H.
  pose proof (forallb_below
           (fun m => (m =? 0) || month_two (m / 10) (m mod 10)) 13 eq_refl m
           ltac:(lia)) as H'. cbv beta in H'.
  destruct (Z.eqb_spec m 0); [lia | exact H'].
Qed.

Lemma day_two_ok (d : Z) :
  1 <= d <= 31 -> day_two (d / 10) (d mod 10) = true.
Proof.
  intros H.
  pose proof (forallb_below
           (fun d => (d =? 0) || day_two (d / 10) (d mod 10)) 32 eq_refl d
           ltac:(lia)) as H'. cbv beta in H'.
  destruct (Z.eqb_spec d 0); [lia | exact H'].
Qed.

Lemma days_in_month_le_31 (y m : Z) : _days_in_month y m <= 31.
Proof.
  unfold _days_in_month. destruct ((m =? 2) && _is_leap y); [lia|].
  unfold _DAYS_IN_MONTH.
  destruct m as [|p|p]; try lia.
  do 4 (destruct p as [p|p|]; try lia).
Qed.

Lemma append_empty_r (s : string) : s +++ "" = s.
Proof. induction s as [|c s IH]; simpl; congruence. Qed.

(** The key of a day reads back as that day, at midnight. *)
Lemma strptime_date_key (dt : datetime) :
  valid_date (dt_date dt) ->
  strptime_Ymd (date_key dt) = Ok (datetime_combine (dt_date dt) midnight).
Proof.
  intros V. pose proof V as V'. apply valid_date_iff in V'.
  destruct V' as (Hy & Hm & Hd).
  pose proof (days_in_month_le_31 (year (dt_date dt)) (month (dt_date dt))).
  unfold strptime_Ymd. rewrite date_key_eq.
  rewrite parse_year_pad4 by lia. cbn [expect_dash Ascii.eqb Bool.eqb].
  rewrite parse_num12_pad2 by (try apply month_two_ok; lia).
  cbn [expect_dash Ascii.eqb Bool.eqb].
  unfold parse_day.
  rewrite <- (append_empty_r (pad2 (day (dt_date dt)))).
  rewrite parse_num12_pad2 by (try apply day_two_ok; lia).
  destruct (dt_date dt) as [y m d]. cbn [year month day] in *.
  unfold valid_date in V. now rewrite V.
Qed.

Lemma date_key_inj (a b : datetime) :
  valid_date (dt_date a) -> valid_date (dt_date b) ->
  date_key a = date_key b -> dt_date a = dt_date b.
Proof.
  intros Va Vb E.
  pose proof (strptime_date_key a Va) as Ha.
  pose proof (strptime_date_key b Vb) as Hb.
  rewrite E, Hb in Ha. now inversion Ha.
Qed.

(** ** Subtracting whole days from a time stamp *)

Lemma td_total_of_microseconds (us : Z) :
  td_total_microseconds (td_of_microseconds us) = us.
Proof.
  unfold td_total_microseconds, td_of_microseconds. cbn [td_days td_seconds td_microseconds].
  Z.div_mod_to_equations. lia.
Qed.

Lemma td_of_day_and_time (o : Z) (t : time) :
  valid_time t ->
  td_of_microseconds (o * 86400000000 + time_microseconds t)
  = mktimedelta o ((hour t * 60 + minute t) * 60 + second t) (microsecond t).
Proof.
  intros V. apply valid_time_iff in V.
  unfold td_of_microseconds, time_microseconds.
  f_equal; Z.div_mod_to_equations; lia.
Qed.

Lemma time_of_seconds_of_time (t : time) :
  valid_time t ->
  time_of_seconds ((hour t * 60 + minute t) * 60 + second t) (microsecond t) = t.
Proof.
  intros V. apply valid_time_iff in V. destruct t as [h m s us].
  cbn [hour minute second microsecond] in *. unfold time_of_seconds.
  f_equal; Z.div_mod_to_equations; lia.
Qed.

(** [dt - timedelta(days=n)]: the same time of day, [n] days before, when
    that day exists. *)
Lemma datetime_sub_days (dt : datetime) (n : Z) :
  valid_time (dt_time dt) ->
  datetime_sub dt (mktimedelta n 0 0)
  = if (0 <? toordinal (dt_date dt) - n)
       && (toordinal (dt_date dt) - n <=? _MAXORDINAL)
    then Ok (datetime_combine (fromordinal (toordinal (dt_date dt) - n))
               (dt_time dt))
    else Raise (overflow "date value out of range").
Proof.
  intros V. unfold datetime_sub, datetime_add.
  rewrite td_total_of_microseconds.
  replace (toordinal (dt_date dt) * 86400000000 + time_microseconds (dt_time dt)
           + - td_total_microseconds (mktimedelta n 0 0))
    with ((toordinal (dt_date dt) - n) * 86400000000
          + time_microseconds (dt_time dt))
    by (unfold td_total_microseconds; cbn [td_days td_seconds td_microseconds]; lia).
  rewrite td_of_day_and_time by exact V.
  cbn [td_days td_seconds td_microseconds].
  now rewrite time_of_seconds_of_time.
Qed.

(** ** Clearing old buckets ([clear_old_changes]) *)

Lemma fold_dict_del_absent (ks : list string) (k : string)
  (l : list ChangeRecord) (s : store) :
  ~ In k ks ->
  fold_left (fun s date_str => dict_del date_str s) ks ((k, l) :: s)
  = (k, l) :: fold_left (fun s date_str => dict_del date_str s) ks s.
Proof.
  revert s. induction ks as [|k' ks IH]; intros s Hin; simpl; [reflexivity|].
  destruct (String.eqb_spec k k') as [->|Hk].
  - elim Hin. now left.
  - apply IH. intros H. apply Hin. now right.
Qed.

(** Deleting the keys a test selects leaves the buckets it does not select,
    untouched and in their order. *)
Lemma fold_dict_del_filter (p : string -> bool) (s : store) :
  fold_left (fun s date_str => dict_del date_str s)
    (map fst (filter (fun b => p (fst b)) s)) s
  = filter (fun b => negb (p (fst b))) s.
Proof.
  induction s as [|[k l] s IH]; simpl; [reflexivity|].
  destruct (p k) eqn:Pk; simpl.
  - now rewrite String.eqb_refl.
  - rewrite fold_dict_del_absent; [now rewrite IH|].
    intros H. apply in_map_iff in H. destruct H as [[k' l'] [E H]].
    apply filter_In in H. simpl in *. subst k'. destruct H as [_ H]. congruence.
Qed.

Lemma dates_to_remove_spec (cutoff_date : datetime) (s : store) :
  match dates_to_remove cutoff_date s with
  | Ok dates => dates = map fst (filter (fun b => expired cutoff_date (fst b)) s)
  | Raise e => exists k l, In (k, l) s /\ strptime_Ymd k = Raise e
  end.
Proof.
  induction s as [|[k l] s IH]; simpl; [reflexivity|].
  unfold expired at 1.
  destruct (strptime_Ymd k) as [date_obj|e] eqn:Ek; simpl.
  - destruct (dates_to_remove cutoff_date s) as [rest|e]; simpl.
    + subst rest. now destruct (dt_ltb date_obj cutoff_date).
    + destruct IH as (k' & l' & Hin & E). exists k', l'. auto.
  - exists k, l. auto.
Qed.

(** What a call does, in all cases: an exception leaves the store as it
    was, a return leaves the buckets that are not expired. *)
Lemma clear_old_changes_cases (days_to_keep : Z) (now : datetime) (s : store) :
  match clear_old_changes days_to_keep now s with
  | (Ok _, s') =>
      exists cutoff_date,
        cutoff days_to_keep now = Ok cutoff_date
        /\ s' = filter (keeps cutoff_date) s
  | (Raise e, s') => s' = s
  end.
Proof.
  unfold clear_old_changes, cutoff.
  destruct (timedelta_days days_to_keep) as [td|e]; simpl; [|reflexivity].
  destruct (datetime_sub now td) as [cutoff_date|e]; simpl; [|reflexivity].
  pose proof (dates_to_remove_spec cutoff_date s) as H.
  destruct (dates_to_remove cutoff_date s) as [dates|e]; [|reflexivity].
  exists cutoff_date. split; [reflexivity|]. subst dates.
  apply fold_dict_del_filter.
Qed.

Lemma dates_to_remove_ok_keys (cutoff_date : datetime) (s : store)
  (dates : list string) :
  dates_to_remove cutoff_date s = Ok dates ->
  forall k l, In (k, l) s -> exists d, strptime_Ymd k = Ok d.
Proof.
  revert dates. induction s as [|[k0 l0] s IH]; intros dates H k l Hin.
  - destruct Hin.
  - simpl in H. destruct (strptime_Ymd k0) as [d0|e] eqn:E0; simpl in H;
      [|discriminate].
    destruct (dates_to_remove cutoff_date s) as [rest|e] eqn:Er; simpl in H;
      [|discriminate].
    destruct Hin as [Hin|Hin].
    + inversion Hin; subst. now exists d0.
    + eapply IH; [reflexivity | exact Hin].
Qed.

Lemma dates_to_remove_parsed (cutoff_date : datetime) (s : store) :
  (forall k l, In (k, l) s -> exists d, strptime_Ymd k = Ok d) ->
  dates_to_remove cutoff_date s
  = Ok (map fst (filter (fun b => expired cutoff_date (fst b)) s)).
Proof.
  intros Hk. pose proof (dates_to_remove_spec cutoff_date s) as H.
  destruct (dates_to_remove cutoff_date s) as [dates|e]; [now subst|].
  destruct H as (k & l & Hin & E).
  destruct (Hk k l Hin) as (d & Ed). congruence.
Qed.

Lemma clear_old_changes_ok (days_to_keep : Z) (now cutoff_date : datetime)
  (s : store) :
  cutoff days_to_keep now = Ok cutoff_date ->
  (forall k l, In (k, l) s -> exists d, strptime_Ymd k = Ok d) ->
  clear_old_changes days_to_keep now s = (Ok tt, filter (keeps cutoff_date) s).
Proof.
  intros Hc Hk. unfold clear_old_changes. unfold cutoff in Hc.
  destruct (timedelta_days days_to_keep) as [td|e]; simpl in *; [|discriminate].
  rewrite Hc. simpl. rewrite dates_to_remove_parsed by exact Hk.
  now rewrite fold_dict_del_filter.
Qed.

Lemma clear_old_changes_ok_inv (days_to_keep : Z) (now : datetime)
  (s s' : store) :
  clear_old_changes days_to_keep now s = (Ok tt, s') ->
  exists cutoff_date,
    cutoff days_to_keep now = Ok cutoff_date
    /\ (forall k l, In (k, l) s -> exists d, strptime_Ymd k = Ok d)
    /\ s' = filter (keeps cutoff_date) s.
Proof.
  unfold clear_old_changes, cutoff.
  destruct (timedelta_days days_to_keep) as [td|e]; simpl; [|discriminate].
  destruct (datetime_sub now td) as [cutoff_date|e]; simpl; [|discriminate].
  destruct (dates_to_remove cutoff_date s) as [dates|e] eqn:Ed; [|discriminate].
  intros H. inversion H; subst. exists cutoff_date.
  split; [reflexivity|]. split.
  - eapply dates_to_remove_ok_keys; eassumption.
  - pose proof (dates_to_remove_spec cutoff_date s) as Hs. rewrite Ed in Hs.
    subst dates. apply fold_dict_del_filter.
Qed.

Lemma filter_filter_weaker {A : Type} (p q : A -> bool) (l : list A) :
  (forall x, q x = true -> p x = true) ->
  filter q (filter p l) = filter q l.
Proof.
  intros H. induction l as [|x l IH]; simpl; [reflexivity|].
  destruct (p x) eqn:Px; simpl; rewrite IH; [reflexivity|].
  destruct (q x) eqn:Qx; [|reflexivity].
  apply H in Qx. congruence.
Qed.

(** A later cutoff expires at least the same keys. *)
Lemma keeps_antitone (c1 c2 : datetime) (b : string * list ChangeRecord) :
  dt_le c1 c2 -> keeps c2 b = true -> keeps c1 b = true.
Proof.
  unfold keeps, expired. intros Hle.
  destruct (strptime_Ymd (fst b)) as [d|e]; [|reflexivity].
  rewrite !negb_true_iff, !dt_ltb_false_iff. intros H.
  eapply dt_le_trans; eassumption.
Qed.

Lemma timedelta_days_ok (n : Z) :
  Z.abs n <= 999999999 -> timedelta_days n = Ok (mktimedelta n 0 0).
Proof.
  intros H. unfold timedelta_days.
  destruct (Z.leb_spec (Z.abs n) 999999999); [reflexivity | lia].
Qed.

(** The cutoff: the same time of day, [days_to_keep] days before. *)
Lemma cutoff_ok (days_to_keep : Z) (now : datetime) :
  valid_time (dt_time now) -> Z.abs days_to_keep <= 999999999 ->
  1 <= toordinal (dt_date now) - days_to_keep <= _MAXORDINAL ->
  cutoff days_to_keep now
  = Ok (datetime_combine (fromordinal (toordinal (dt_date now) - days_to_keep))
          (dt_time now)).
Proof.
  intros V Hd Ho. unfold cutoff. rewrite timedelta_days_ok by exact Hd.
  cbn [rbind]. rewrite datetime_sub_days by exact V.
  destruct (Z.ltb_spec 0 (toordinal (dt_date now) - days_to_keep)); [|lia].
  destruct (Z.leb_spec (toordinal (dt_date now) - days_to_keep) _MAXORDINAL);
    [reflexivity | lia].
Qed.

Lemma cutoff_ok_inv (days_to_keep : Z) (now cutoff_date : datetime) :
  valid_time (dt_time now) ->
  cutoff days_to_keep now = Ok cutoff_date ->
  Z.abs days_to_keep <= 999999999
  /\ 1 <= toordinal (dt_date now) - days_to_keep <= _MAXORDINAL
  /\ cutoff_date
     = datetime_combine (fromordinal (toordinal (dt_date now) - days_to_keep))
         (dt_time now).
Proof.
  intros V. unfold cutoff, timedelta_days.
  destruct (Z.leb_spec (Z.abs days_to_keep) 999999999);
    [|destruct ((-2147483648 <=? days_to_keep) && (days_to_keep <=? 2147483647));
      discriminate].
  cbn [rbind]. rewrite datetime_sub_days by exact V.
  destruct (Z.ltb_spec 0 (toordinal (dt_date now) - days_to_keep));
    [|discriminate].
  destruct (Z.leb_spec (toordinal (dt_date now) - days_to_keep) _MAXORDINAL);
    [|discriminate].
  cbn [andb]. intros Heq. inversion Heq. repeat split; lia.
Qed.

Lemma fromordinal_lt (o1 o2 : Z) :
  1 <= o1 -> o1 < o2 -> o2 <= _MAXORDINAL ->
  date_lt (fromordinal o1) (fromordinal o2).
Proof.
  intros H1 H12 H2.
  apply toordinal_lt_iff; try (apply fromordinal_valid; lia).
  rewrite !toordinal_fromordinal by lia. exact H12.
Qed.

Lemma midnight_before (t : time) :
  valid_time t -> (time_compare midnight t = Lt <-> t <> midnight).
Proof.
  intros V. apply valid_time_iff in V. destruct t as [h m s us].
  cbn [hour minute second microsecond] in V.
  unfold time_compare, midnight. cbn [hour minute second microsecond].
  split.
  - intros H E. inversion E; subst. discriminate.
  - intros H.
    destruct (Z.compare_spec 0 h); cbn [lexc]; [|reflexivity|lia].
    destruct (Z.compare_spec 0 m); cbn [lexc]; [|reflexivity|lia].
    destruct (Z.compare_spec 0 s); cbn [lexc]; [|reflexivity|lia].
    destruct (Z.compare_spec 0 us); cbn [lexc]; [|reflexivity|lia].
    subst. now elim H.
Qed.

(** The bucket of day [d] is expired when midnight of [d] is before the
    cutoff: [d] is before the cutoff's day, or it is that day and the cutoff
    is later than midnight. *)
Lemma expired_key_of_date (cutoff_day d : date) (t : time) :
  valid_date d -> valid_time t ->
  (expired (datetime_combine cutoff_day t) (key_of_date d) = true
   <-> date_lt d cutoff_day \/ (d = cutoff_day /\ t <> midnight)).
Proof.
  intros Vd Vt. unfold expired, key_of_date.
  rewrite strptime_date_key by exact Vd.
  rewrite dt_ltb_iff, dt_lt_iff. cbn [dt_date dt_time datetime_combine].
  now rewrite midnight_before.
Qed.

Lemma subseq_refl {A : Type} (l : list A) : subseq l l.
Proof. induction l; now constructor. Qed.

Lemma keys_are_dates_parse (s : store) :
  keys_are_dates s ->
  forall k l, In (k, l) s -> exists d, strptime_Ymd k = Ok d.
Proof.
  intros H k l Hin. destruct (H k l Hin) as (d & Vd & ->).
  eexists. unfold key_of_date. now apply strptime_date_key.
Qed.

(** C4 (as the code has it). [clear_old_changes(days_to_keep)] removes
    exactly the buckets whose day, at 00:00, is strictly before the clock
    reading minus [days_to_keep] days: the buckets dated before today minus
    [days_to_keep] and, unless the reading is midnight sharp, also the bucket
    dated today minus [days_to_keep]; every other bucket stays as it was, in
    the same order.  With 7 days, a bucket dated 10 days before today is
    removed and one dated 5 days before today stays. *)
Theorem clear_old_changes_spec (days_to_keep : Z) (now : datetime) (s : store) :
  valid_datetime now -> keys_are_dates s ->
  Z.abs days_to_keep <= 999999999 ->
  1 <= toordinal (dt_date now) - days_to_keep <= _MAXORDINAL ->
  exists s',
    clear_old_changes days_to_keep now s = (Ok tt, s')
    /\ subseq s' s
    /\ (forall d l, valid_date d ->
          (In (key_of_date d, l) s'
           <-> In (key_of_date d, l) s
               /\ ~ (date_lt d (fromordinal (toordinal (dt_date now) - days_to_keep))
                     \/ (d = fromordinal (toordinal (dt_date now) - days_to_keep)
                         /\ dt_time now <> midnight))))
    /\ (days_to_keep = 7 ->
        forall l,
          (10 < toordinal (dt_date now) ->
           ~ In (key_of_date (fromordinal (toordinal (dt_date now) - 10)), l) s')
          /\ (In (key_of_date (fromordinal (toordinal (dt_date now) - 5)), l) s ->
              In (key_of_date (fromordinal (toordinal (dt_date now) - 5)), l) s')).
Proof.
  intros [Vd Vt] Hk Habs Ho.
  pose proof (toordinal_bounds _ Vd) as B.
  pose proof (cutoff_ok days_to_keep now Vt Habs Ho) as Hc.
  exists (filter (keeps (datetime_combine
                           (fromordinal (toordinal (dt_date now) - days_to_keep))
                           (dt_time now))) s).
  assert (forall d l, valid_date d ->
            (In (key_of_date d, l)
               (filter (keeps (datetime_combine
                                 (fromordinal (toordinal (dt_date now) - days_to_keep))
                                 (dt_time now))) s)
             <-> In (key_of_date d, l) s
                 /\ ~ (date_lt d (fromordinal (toordinal (dt_date now) - days_to_keep))
                       \/ (d = fromordinal (toordinal (dt_date now) - days_to_keep)
                           /\ dt_time now <> midnight)))) as Hchar.
  { intros d l Vd'. rewrite filter_In. unfold keeps. cbn [fst].
    rewrite negb_true_iff, <- not_true_iff_false.
    now rewrite expired_key_of_date. }
  split; [|split; [|split]].
  - apply clear_old_changes_ok; [exact Hc | now apply keys_are_dates_parse].
  - apply filter_subseq.
  - exact Hchar.
  - intros -> l. split.
    + intros H10 Hin. apply Hchar in Hin; [|apply fromordinal_valid; lia].
      destruct Hin as [_ Hin]. apply Hin. left. apply fromordinal_lt; lia.
    + intros Hin. apply Hchar; [apply fromordinal_valid; lia|].
      split; [exact Hin|]. intros [Hlt|[E _]].
      * apply toordinal_lt in Hlt; try (apply fromordinal_valid; lia).
        rewrite !toordinal_fromordinal in Hlt by lia. lia.
      * apply (f_equal toordinal) in E.
        rewrite !toordinal_fromordinal in E by lia. lia.
Qed.

Lemma clear_old_changes_spec_witness :
  exists s',
    clear_old_changes 7 (at_time 2024 3 15 12 0 0) sample_store = (Ok tt, s')
    /\ subseq s' sample_store.
Proof.
  destruct (clear_old_changes_spec 7 (at_time 2024 3 15 12 0 0) sample_store)
    as (s' & E & Hsub & _).
  - split; reflexivity.
  - intros k l Hin. vm_compute in Hin.
    destruct Hin as [Hin|[Hin|[]]]; inversion Hin; subst.
    + exists (mkdate 2024 3 5). split; reflexivity.
    + exists (mkdate 2024 3 6). split; reflexivity.
  - simpl. lia.
  - vm_compute. split; discriminate.
  - exists s'. split; assumption.
Defined.

(** C4 as stated fails on the bucket dated today minus 7 days: with the
    clock at noon of 2024-03-12 the bucket of 2024-03-05 is not dated
    strictly before 2024-03-05, yet it is removed. *)
Lemma clear_old_changes_cutoff_day_removed :
  fromordinal (toordinal (mkdate 2024 3 12) - 7) = mkdate 2024 3 5
  /\ map fst one_bucket = [key_of_date (mkdate 2024 3 5)]
  /\ ~ date_lt (mkdate 2024 3 5) (fromordinal (toordinal (mkdate 2024 3 12) - 7))
  /\ clear_old_changes 7 (at_time 2024 3 12 12 0 0) one_bucket = (Ok tt, []).
Proof.
  split; [reflexivity|]. split; [reflexivity|]. split; [|reflexivity].
  vm_compute. discriminate.
Qed.

(** ** The buckets of the store *)




Lemma dict_append_keys (k : string) (c : ChangeRecord) (s : store) :
  map fst (dict_append k c s)
  = if in_dec string_dec k (map fst s) then map fst s else map fst s ++ [k].
Proof.
  induction s as [|[k' l'] s IH]; simpl; [reflexivity|].
  destruct (String.eqb_spec k' k) as [->|Hk]; simpl.
  - destruct (string_dec k k); [reflexivity | contradiction].
  - rewrite IH. destruct (string_dec k' k); [contradiction|].
    now destruct (in_dec string_dec k (map fst s)).
Qed.

Lemma dict_append_In (k : string) (c : ChangeRecord) (s : store)
  (k' : string) (l' : list ChangeRecord) :
  NoDup (map fst s) ->
  In (k', l') (dict_append k c s) ->
  (k' <> k /\ In (k', l') s)
  \/ (k' = k /\ exists l, l' = l ++ [c] /\ (l = [] \/ In (k, l) s)).
Proof.
  induction s as [|[k0 l0] s IH]; simpl; intros Hnd.
  - intros [H|[]]. inversion H; subst. right. split; [reflexivity|].
    exists []. auto.
  - inversion Hnd as [|? ? Hnot Hnd']; subst.
    destruct (String.eqb_spec k0 k) as [->|Hk]; simpl.
    + intros [H|H].
      * inversion H; subst. right. split; [reflexivity|]. exists l0. auto.
      * destruct (string_dec k' k) as [->|Hne]; [|left; auto].
        elim Hnot. apply in_map_iff. now exists (k, l').
    + intros [H|H].
      * inversion H; subst. left. auto.
      * destruct (IH Hnd' H) as [[Hne Hin]|[-> (l & -> & [->|Hin])]].
        -- left. auto.
        -- right. split; [reflexivity|]. exists []. auto.
        -- right. split; [reflexivity|]. exists l. auto.
Qed.

(** ** The text of a report *)

Section Printing.

Variable console : string -> option exn.

Lemma bind_ext {A B : Type} (m : M A) (k1 k2 : A -> M B) (st : state) :
  (forall a st', k1 a st' = k2 a st') -> bind m k1 st = bind m k2 st.
Proof.
  intros H. unfold bind. destruct (m st) as [[a|e|] st']; auto.
Qed.

Lemma bind_assoc {A B C : Type} (m : M A) (k : A -> M B) (h : B -> M C)
  (st : state) :
  bind (bind m k) h st = bind m (fun a => bind (k a) h) st.
Proof.
  unfold bind. destruct (m st) as [[a|e|] st']; reflexivity.
Qed.

Lemma bind_for_each_app {A B : Type} (l1 l2 : list A) (f : A -> M unit)
  (k : unit -> M B) (st : state) :
  bind (for_each (l1 ++ l2) f) k st
  = bind (for_each l1 f) (fun _ => bind (for_each l2 f) k) st.
Proof.
  revert st. induction l1 as [|x l1 IH]; intros st; simpl.
  - reflexivity.
  - rewrite !bind_assoc. apply bind_ext. intros _ st'. apply IH.
Qed.

Lemma bind_for_each_map {A B C : Type} (g : A -> B) (l : list A)
  (f : B -> M unit) (k : unit -> M C) (st : state) :
  bind (for_each l (fun x => f (g x))) k st
  = bind (for_each (map g l) f) k st.
Proof.
  revert st. induction l as [|x l IH]; intros st; simpl.
  - reflexivity.
  - rewrite !bind_assoc. apply bind_ext. intros _ st'. apply IH.
Qed.

(** The two nested loops print the groups' lines one after the other. *)
Lemma bind_print_groups {B : Type} (groups : store) (k : unit -> M B)
  (st : state) :
  bind (for_each groups
          (fun '(event_type, type_changes) =>
             print console (group_header event_type type_changes) ;;
             for_each type_changes
               (fun change => print console (change_line change)))) k st
  = bind (for_each (flat_map group_lines groups) (print console)) k st.
Proof.
  revert st. induction groups as [|[et tc] groups IH]; intros st;
    cbn [for_each flat_map group_lines fst snd app].
  - reflexivity.
  - rewrite !bind_assoc. apply bind_ext. intros _ st1.
    rewrite bind_for_each_app.
    rewrite (bind_for_each_map change_line tc (print console)).
    apply bind_ext. intros _ st2. apply IH.
Qed.

(** [_generate_report] prints the lines of the report, then moves the
    watermark. *)
Lemma _generate_report_eq (current_time : datetime) (st : state) :
  _generate_report console current_time st
  = bind (for_each
            (report_lines current_time
               (get_changes_since_last_report (last_report_time st)
                  (changes st)))
            (print console))
      (fun _ => modify (set_last_report_time current_time)) st.
Proof.
  unfold _generate_report, report_lines.
  unfold bind at 1, gets at 1. unfold bind at 1, gets at 1.
  set (new := get_changes_since_last_report (last_report_time st) (changes st)).
  cbn [app for_each]. rewrite !bind_assoc.
  apply bind_ext. intros _ st1. rewrite !bind_assoc.
  apply bind_ext. intros _ st2. rewrite !bind_assoc.
  apply bind_ext. intros _ st3.
  rewrite bind_for_each_app.
  destruct new as [|c new'].
  - cbn [for_each]. rewrite !bind_assoc. apply bind_ext. intros _ st4.
    unfold bind at 2, ret at 1. rewrite !bind_assoc.
    apply bind_ext. intros _ st5. reflexivity.
  - cbn [app for_each]. rewrite !bind_assoc. apply bind_ext. intros _ st4.
    rewrite !bind_assoc. apply bind_ext. intros _ st5.
    rewrite bind_print_groups. apply bind_ext. intros _ st6.
    cbn [for_each]. rewrite !bind_assoc.
    apply bind_ext. intros _ st7. reflexivity.
Qed.

(** Printing a list of lines: all of them when the console takes them all,
    otherwise those before the first it refuses, whose exception is raised.
    Nothing but [stdout] changes. *)
Lemma print_lines_cases (lines : list string) (st : state) :
  match for_each lines (print console) st with
  | (Done _, st') =>
      Forall (fun line => console line = None) lines /\ st' = printed lines st
  | (Raised e, st') =>
      exists before line after,
        lines = before ++ line :: after
        /\ Forall (fun line => console line = None) before
        /\ console line = Some e
        /\ st' = printed before st
  | (Pending, _) => False
  end.
Proof.
  revert st. induction lines as [|line lines IH]; intros st; simpl.
  - split; [constructor|]. destruct st. unfold printed. simpl.
    now rewrite app_nil_r.
  - unfold bind. unfold print at 1. destruct (console line) as [e|] eqn:El.
    + exists [], line, lines. repeat split; auto.
      destruct st. unfold printed. simpl. now rewrite app_nil_r.
    + specialize (IH (write_stdout line st)).
      destruct (for_each lines (print console) (write_stdout line st))
        as [[[]|e|] st'].
      * destruct IH as [Hall ->]. split; [now constructor|].
        unfold printed, write_stdout. simpl. now rewrite <- app_assoc.
      * destruct IH as (before & bad & after & -> & Hall & Hbad & ->).
        exists (line :: before), bad, after. repeat split; auto.
        unfold printed, write_stdout. simpl. now rewrite <- app_assoc.
      * exact IH.
Qed.

Lemma print_lines_ok (lines : list string) (st : state) :
  Forall (fun line => console line = None) lines ->
  for_each lines (print console) st = (Done tt, printed lines st).
Proof.
  intros Hall. pose proof (print_lines_cases lines st) as H.
  destruct (for_each lines (print console) st) as [[[]|e|] st'].
  - destruct H as [_ ->]. reflexivity.
  - destruct H as (before & bad & after & -> & _ & Hbad & _).
    apply Forall_app in Hall. destruct Hall as [_ Hall].
    inversion Hall; subst. congruence.
  - destruct H.
Qed.

End Printing.

(** ** Grouping by kind *)

Lemma filter_comm {A : Type} (p q : A -> bool) (l : list A) :
  filter p (filter q l) = filter q (filter p l).
Proof.
  induction l as [|x l IH]; simpl; [reflexivity|].
  destruct (p x) eqn:Px, (q x) eqn:Qx; simpl; rewrite ?Px, ?Qx, IH; reflexivity.
Qed.

Lemma filter_andb {A : Type} (p q : A -> bool) (l : list A) :
  filter (fun x => p x && q x) l = filter p (filter q l).
Proof.
  induction l as [|x l IH]; simpl; [reflexivity|].
  destruct (p x) eqn:Px, (q x) eqn:Qx; simpl; rewrite ?Px, IH; reflexivity.
Qed.

Lemma filter_first_occurrences (p : string -> bool) (l : list string) :
  filter p (first_occurrences l) = first_occurrences (filter p l).
Proof.
  induction l as [|k l IH]; simpl; [reflexivity|].
  destruct (p k) eqn:Pk; simpl.
  - f_equal. now rewrite <- IH, filter_comm.
  - rewrite <- IH, filter_comm.
    assert (forall x, In x (filter p (first_occurrences l)) -> p x = true) as Hp
        by (intros x Hx; now apply filter_In in Hx).
    clear IH.
    induction (filter p (first_occurrences l)) as [|x xs IHx]; simpl;
      [reflexivity|].
    destruct (String.eqb_spec x k) as [->|Hx]; simpl.
    + assert (p k = true) as Pk' by (apply Hp; now left). congruence.
    + rewrite IHx; [reflexivity|]. intros y Hy. apply Hp. now right.
Qed.

Lemma dict_append_present (k : string) (c : ChangeRecord) (s : store) :
  In k (map fst s) -> NoDup (map fst s) ->
  dict_append k c s
  = map (fun b => if String.eqb (fst b) k then (fst b, snd b ++ [c]) else b) s.
Proof.
  induction s as [|[k' l'] s IH]; simpl; [intros []|].
  intros Hin Hnd. inversion Hnd as [|? ? Hnot Hnd']; subst.
  destruct (String.eqb_spec k' k) as [->|Hk]; simpl.
  - f_equal. clear IH Hin Hnd Hnd'.
    induction s as [|[k0 l0] s IH]; simpl; [reflexivity|].
    simpl in Hnot. destruct (String.eqb_spec k0 k) as [->|H0]; [tauto|].
    rewrite <- IH; tauto.
  - rewrite IH; [reflexivity | tauto | assumption].
Qed.

Lemma dict_append_absent (k : string) (c : ChangeRecord) (s : store) :
  ~ In k (map fst s) -> dict_append k c s = s ++ [(k, [c])].
Proof.
  induction s as [|[k' l'] s IH]; simpl; [reflexivity|].
  intros Hnot. destruct (String.eqb_spec k' k) as [->|Hk]; [tauto|].
  rewrite IH; tauto.
Qed.

Lemma dict_append_NoDup (k : string) (c : ChangeRecord) (s : store) :
  NoDup (map fst s) -> NoDup (map fst (dict_append k c s)).
Proof.
  intros Hnd. rewrite dict_append_keys.
  destruct (in_dec string_dec k (map fst s)) as [Hin|Hnot]; [exact Hnd|].
  apply NoDup_app; [exact Hnd | repeat constructor; intros [] |].
  intros x Hx [<-|[]]. contradiction.
Qed.

(** The loop that fills [by_type], from any dict [acc]: the buckets of [acc]
    grow by the records of their kind, and the kinds that [acc] lacks follow
    in the order of their first occurrence. *)
Lemma group_by_type_from (changes : list ChangeRecord) (acc : store) :
  NoDup (map fst acc) ->
  fold_left (fun by_type change => dict_append (event_type change) change by_type)
    changes acc
  = map (fun b => (fst b, snd b ++ filter (has_type (fst b)) changes)) acc
    ++ map (group_of changes)
         (first_occurrences
            (filter (fun k => if in_dec string_dec k (map fst acc) then false else true)
               (map event_type changes))).
Proof.
  revert acc. induction changes as [|c changes IH]; intros acc Hnd.
  - simpl. rewrite app_nil_r. rewrite <- (map_id acc) at 1.
    apply map_ext. intros [k l]. simpl. now rewrite app_nil_r.
  - cbn [fold_left]. rewrite IH by now apply dict_append_NoDup.
    rewrite dict_append_keys. cbn [map filter].
    destruct (in_dec string_dec (event_type c) (map fst acc)) as [Hin|Hnot].
    + (* the kind has its bucket already *)
      f_equal.
      * rewrite dict_append_present by assumption. rewrite map_map.
        apply map_ext. intros [k l]. cbn [fst snd]. unfold has_type at 2.
        destruct (String.eqb_spec k (event_type c)) as [->|Hk]; cbn [fst snd].
        -- rewrite String.eqb_refl. now rewrite <- app_assoc.
        -- destruct (String.eqb_spec (event_type c) k); [congruence|reflexivity].
      * unfold group_of. apply map_ext_in. intros k Hk. f_equal.
        cbn [filter]. unfold has_type at 2.
        destruct (String.eqb_spec (event_type c) k) as [E|E]; [|reflexivity].
        exfalso. subst k.
        rewrite <- filter_first_occurrences in Hk. apply filter_In in Hk.
        destruct Hk as [_ Hk].
        destruct (in_dec string_dec (event_type c) (map fst acc));
          [discriminate | contradiction].
    + (* a new kind: its bucket comes last *)
      rewrite dict_append_absent by assumption.
      rewrite map_app, <- app_assoc. f_equal.
      * apply map_ext_in. intros [k l] Hkl. cbn [fst snd]. f_equal.
        cbn [filter]. unfold has_type at 2.
        destruct (String.eqb_spec (event_type c) k) as [E|E]; [|reflexivity].
        exfalso. apply Hnot. subst k. apply in_map_iff. now exists (event_type c, l).
      * cbn [map fst snd app first_occurrences]. f_equal.
        -- unfold group_of. f_equal. cbn [filter].
           assert (has_type (event_type c) c = true) as ->
               by apply String.eqb_refl.
           reflexivity.
        -- rewrite filter_first_occurrences, <- filter_andb.
           assert (forall k,
                     (if in_dec string_dec k (map fst acc ++ [event_type c])
                      then false else true)
                     = negb (String.eqb k (event_type c))
                       && (if in_dec string_dec k (map fst acc)
                           then false else true)) as Hp.
           { intros k.
             destruct (in_dec string_dec k (map fst acc ++ [event_type c])) as [H|H];
               destruct (in_dec string_dec k (map fst acc)) as [H'|H'];
               destruct (String.eqb_spec k (event_type c)) as [E|E];
               cbn [andb negb]; try reflexivity; exfalso.
             - apply in_app_or in H. destruct H as [H|[H|[]]]; congruence.
             - apply H. apply in_or_app. now left.
             - apply H. apply in_or_app. now left.
             - apply H. apply in_or_app. right. now left. }
           rewrite (filter_ext _ _ Hp).
           apply map_ext_in. intros k Hk. unfold group_of. f_equal.
           cbn [filter].
           destruct (has_type k c) eqn:E; [|reflexivity].
           exfalso. apply String.eqb_eq in E. subst k.
           rewrite <- filter_first_occurrences in Hk. apply filter_In in Hk.
           destruct Hk as [_ Hk]. now rewrite String.eqb_refl in Hk.
Qed.

(** [by_type] holds one group per kind of the batch, in the order in which
    the kinds first occur, each with its records in the batch's order. *)
Lemma group_by_type_spec (changes : list ChangeRecord) :
  group_by_type changes
  = map (group_of changes) (first_occurrences (map event_type changes)).
Proof.
  unfold group_by_type. rewrite group_by_type_from by constructor.
  cbn [map app]. f_equal. f_equal.
  induction (map event_type changes) as [|k l IH]; cbn [filter]; [reflexivity|].
  now rewrite IH.
Qed.

(** ** What a report does ([_generate_report]) *)

(** A call either prints the whole report and then moves the watermark to
    the clock reading it took, or stops at the first line the console
    refuses, with that exception and the watermark where it was. *)
Lemma _generate_report_cases (console : string -> option exn)
  (current_time : datetime) (st : state) :
  match _generate_report console current_time st with
  | (Done _, st') =>
      accepts console (report_of current_time st)
      /\ st' = set_last_report_time current_time
                 (printed (report_of current_time st) st)
  | (Raised e, st') =>
      exists before line after,
        report_of current_time st = before ++ line :: after
        /\ accepts console before
        /\ console line = Some e
        /\ st' = printed before st
  | (Pending, _) => False
  end.
Proof.
  rewrite _generate_report_eq. fold (report_of current_time st).
  unfold bind.
  pose proof (print_lines_cases console (report_of current_time st) st) as H.
  destruct (for_each (report_of current_time st) (print console) st)
    as [[[]|e|] st'].
  - destruct H as [Hall ->]. unfold modify. split; [exact Hall | reflexivity].
  - exact H.
  - exact H.
Qed.

Lemma _generate_report_ok (console : string -> option exn)
  (current_time : datetime) (st : state) :
  accepts console (report_of current_time st) ->
  _generate_report console current_time st
  = (Done tt,
     set_last_report_time current_time (printed (report_of current_time st) st)).
Proof.
  intros Hall. rewrite _generate_report_eq. fold (report_of current_time st).
  unfold bind. now rewrite print_lines_ok.
Qed.

(** Every record of the batch has its line in the report. *)
Lemma change_line_in_report (current_time : datetime)
  (changes : list ChangeRecord) (c : ChangeRecord) :
  In c changes -> In (change_line c) (report_lines current_time changes).
Proof.
  intros Hin. unfold report_lines.
  apply in_or_app. right. apply in_or_app. left.
  destruct changes as [|c0 changes']; [destruct Hin|].
  apply in_or_app. right.
  rewrite group_by_type_spec. apply in_flat_map.
  exists (group_of (c0 :: changes') (event_type c)). split.
  - apply in_map.
    assert (forall l k, In k l -> In k (first_occurrences l)) as Hfo.
    { induction l as [|x l IHl]; intros k Hk; [destruct Hk|].
      simpl. destruct (string_dec x k) as [->|Hne]; [now left|].
      right. apply filter_In. split.
      - apply IHl. destruct Hk; [contradiction | assumption].
      - apply negb_true_iff. now apply String.eqb_neq. }
    apply Hfo. now apply in_map.
  - unfold group_lines, group_of. cbn [fst snd]. right. apply in_map.
    apply filter_In. split; [exact Hin | apply String.eqb_refl].
Qed.

(** C2. [_generate_report] changes [last_report_time] only as its last step,
    after the whole report has been printed: a call that raises leaves the
    watermark where it was.  The new value is the clock reading the call
    took for the report (the time in its header), whatever the timestamps of
    the events are; the store is not touched.  Hence every record whose
    timestamp is after the new watermark is among the changes of the next
    report, and has its line there. *)
Theorem _generate_report_watermark (console : string -> option exn)
  (current_time : datetime) (st : state) :
  changes (snd (_generate_report console current_time st)) = changes st
  /\ match fst (_generate_report console current_time st) with
     | Done _ =>
         last_report_time (snd (_generate_report console current_time st))
         = current_time
         /\ stdout (snd (_generate_report console current_time st))
            = stdout st ++ report_of current_time st
     | Raised _ =>
         last_report_time (snd (_generate_report console current_time st))
         = last_report_time st
     | Pending => False
     end
  /\ (accepts console (report_of current_time st) ->
      fst (_generate_report console current_time st) = Done tt)
  /\ (forall st2 now2 c,
        last_report_time st2
        = last_report_time (snd (_generate_report console current_time st)) ->
        In c (all_records (changes st2)) ->
        dt_lt (last_report_time (snd (_generate_report console current_time st)))
          (timestamp c) ->
        In c (get_changes_since_last_report (last_report_time st2) (changes st2))
        /\ In (change_line c) (report_of now2 st2)).
Proof.
  pose proof (_generate_report_cases console current_time st) as H.
  split; [|split; [|split]].
  - destruct (_generate_report console current_time st) as [[[]|e|] st'];
      cbn [snd].
    + destruct H as [_ ->]. reflexivity.
    + destruct H as (before & line & after & _ & _ & _ & ->). reflexivity.
    + destruct H.
  - destruct (_generate_report console current_time st) as [[[]|e|] st'];
      cbn [fst snd].
    + destruct H as [_ ->]. split; reflexivity.
    + destruct H as (before & line & after & _ & _ & _ & ->). reflexivity.
    + exact H.
  - intros Hall. now rewrite _generate_report_ok.
  - intros st2 now2 c Hw Hin Hlt. rewrite <- Hw in Hlt.
    assert (In c (get_changes_since_last_report (last_report_time st2)
                    (changes st2))) as Hc
        by (apply get_changes_since_last_report_members; auto).
    split; [exact Hc|]. unfold report_of. now apply change_line_in_report.
Qed.

Lemma _generate_report_watermark_witness :
  last_report_time
    (snd (_generate_report open_console (at_time 2024 3 5 10 0 0) sample_state))
  = at_time 2024 3 5 10 0 0
  /\ forall c,
      In c (all_records sample_store) ->
      dt_lt (at_time 2024 3 5 10 0 0) (timestamp c) ->
      In (change_line c)
        (report_of (at_time 2024 3 5 14 0 0)
           (snd (_generate_report open_console (at_time 2024 3 5 10 0 0)
                   sample_state))).
Proof.
  pose proof (_generate_report_watermark open_console (at_time 2024 3 5 10 0 0)
                sample_state) as (Hs & Hw & Hok & Hnext).
  assert (fst (_generate_report open_console (at_time 2024 3 5 10 0 0)
                 sample_state) = Done tt) as Hdone.
  { apply Hok. apply Forall_forall. reflexivity. }
  rewrite Hdone in Hw. destruct Hw as [Hw _].
  split; [exact Hw|].
  intros c Hin Hlt. apply Hnext.
  - reflexivity.
  - rewrite Hs. exact Hin.
  - rewrite Hw. exact Hlt.
Defined.

Lemma report_lines_nonempty (current_time : datetime)
  (changes : list ChangeRecord) :
  changes <> [] ->
  report_lines current_time changes
  = report_head current_time (List.length changes)
    ++ flat_map (fun k => group_lines (group_of changes k))
         (first_occurrences (map event_type changes))
    ++ [str_mul "=" 70].
Proof.
  intros Hne. unfold report_lines, report_head.
  destruct changes as [|c changes']; [congruence|].
  rewrite group_by_type_spec. cbn [app]. do 5 f_equal.
  now rewrite flat_map_concat_map, map_map, <- flat_map_concat_map.
Qed.

(** C9. The groups of a report come in the order in which their kinds first
    occur in the batch of new records (sorted by timestamp), each with its
    records in the batch's order: the report is its five head lines, then per
    kind in that order the group's header and lines, then the closing rule.
    The order is not a fixed one: two records of different kinds give their
    groups in the order of the records. *)
Theorem report_groups_in_first_seen_order (console : string -> option exn)
  (current_time : datetime) (st : state) :
  map fst
    (group_by_type
       (get_changes_since_last_report (last_report_time st) (changes st)))
  = first_occurrences
      (map event_type
         (get_changes_since_last_report (last_report_time st) (changes st)))
  /\ (accepts console (report_of current_time st) ->
      get_changes_since_last_report (last_report_time st) (changes st) <> [] ->
      stdout (snd (_generate_report console current_time st))
      = stdout st
        ++ report_head current_time
             (List.length
                (get_changes_since_last_report (last_report_time st)
                   (changes st)))
        ++ flat_map
             (fun k =>
                group_lines
                  (group_of
                     (get_changes_since_last_report (last_report_time st)
                        (changes st)) k))
             (first_occurrences
                (map event_type
                   (get_changes_since_last_report (last_report_time st)
                      (changes st))))
        ++ [str_mul "=" 70])
  /\ (forall c d,
        event_type c <> event_type d ->
        map fst (group_by_type [c; d]) = [event_type c; event_type d]
        /\ map fst (group_by_type [d; c]) = [event_type d; event_type c]).
Proof.
  split; [|split].
  - rewrite group_by_type_spec, map_map. unfold group_of. cbn [fst].
    apply map_id.
  - intros Hall Hne. rewrite _generate_report_ok by exact Hall.
    cbn [snd set_last_report_time printed stdout]. f_equal.
    unfold report_of. now apply report_lines_nonempty.
  - intros c d Hne. rewrite !group_by_type_spec, !map_map.
    unfold group_of. cbn [fst map first_occurrences filter].
    destruct (String.eqb_spec (event_type d) (event_type c)) as [E|E];
      [congruence|].
    destruct (String.eqb_spec (event_type c) (event_type d)) as [E'|E'];
      [congruence|].
    split; reflexivity.
Qed.

Lemma report_groups_in_first_seen_order_witness :
  map fst
    (group_by_type
       (get_changes_since_last_report (at_time 2024 3 5 9 0 0) sample_store))
  = ["created"; "deleted"; "moved"]
  /\ map fst
       (group_by_type
          [mkChangeRecord (at_time 2024 3 5 9 0 0) "deleted" "/a/c.txt" false None;
           mkChangeRecord (at_time 2024 3 5 9 1 0) "created" "/a/b.txt" false None])
     = ["deleted"; "created"].
Proof.
  pose proof (report_groups_in_first_seen_order open_console
                (at_time 2024 3 5 10 0 0) sample_state) as (H1 & _ & H3).
  split.
  - exact H1.
  - apply (H3 (mkChangeRecord (at_time 2024 3 5 9 0 0) "deleted" "/a/c.txt" false None)
              (mkChangeRecord (at_time 2024 3 5 9 1 0) "created" "/a/b.txt" false None)).
    discriminate.
Defined.

(** ** The mixed batch: one record created, one deleted, one moved *)

Lemma filter_perm {A : Type} (p : A -> bool) (l l' : list A) :
  Permutation l l' -> Permutation (filter p l) (filter p l').
Proof.
  induction 1 as [|x l l' HP IH|x y l|l l' l'' HP IH HP' IH']; simpl.
  - constructor.
  - destruct (p x); [now constructor | assumption].
  - destruct (p x), (p y); try reflexivity. constructor.
  - etransitivity; eassumption.
Qed.

Lemma Permutation_three {A : Type} (a b c : A) (l : list A) :
  Permutation [a; b; c] l ->
  l = [a; b; c] \/ l = [a; c; b] \/ l = [b; a; c]
  \/ l = [b; c; a] \/ l = [c; a; b] \/ l = [c; b; a].
Proof.
  intros HP.
  assert (List.length l = 3%nat) as Hlen
      by (symmetry; apply (Permutation_length HP)).
  destruct l as [|x [|y [|z [|? ?]]]]; try discriminate.
  assert (In x [a; b; c]) as Hx
      by (apply (Permutation_in _ (Permutation_sym HP)); now left).
  destruct Hx as [<-|[<-|[<-|[]]]].
  - apply Permutation_cons_inv in HP.
    apply Permutation_length_2_inv in HP. destruct HP as [H|H]; inversion H; auto.
  - assert (Permutation [a; c] [y; z]) as HP'.
    { apply (Permutation_cons_inv (a := b)).
      etransitivity; [|exact HP]. apply perm_swap. }
    apply Permutation_length_2_inv in HP'.
    destruct HP' as [H|H]; inversion H; auto 6.
  - assert (Permutation [a; b] [y; z]) as HP'.
    { apply (Permutation_cons_inv (a := c)).
      etransitivity; [|exact HP].
      apply (Permutation_cons_append [a; b] c). }
    apply Permutation_length_2_inv in HP'.
    destruct HP' as [H|H]; inversion H; auto 8.
Qed.

(** C8. With exactly one created record for /a/b.txt, one deleted record for
    /a/c.txt and one moved record from /a/old.txt to /a/new.txt in the store,
    all after the watermark, the report prints the head lines with the count
    3 and then, for the three records in the order of their timestamps, a
    group header with count 1 followed by the record's line; the line of the
    moved record shows the old path, an arrow, the new path. *)
Theorem _generate_report_mixed_batch (console : string -> option exn)
  (current_time t1 t2 t3 : datetime) (dir1 dir2 dir3 : bool) (st : state) :
  Permutation (all_records (changes st))
    [created_b t1 dir1; deleted_c t2 dir2; moved_old_new t3 dir3] ->
  dt_lt (last_report_time st) t1 ->
  dt_lt (last_report_time st) t2 ->
  dt_lt (last_report_time st) t3 ->
  accepts console (report_of current_time st) ->
  (exists batch,
      Permutation batch
        [created_b t1 dir1; deleted_c t2 dir2; moved_old_new t3 dir3]
      /\ StronglySorted timestamp_le batch
      /\ stdout (snd (_generate_report console current_time st))
         = stdout st ++ report_head current_time 3
           ++ flat_map single_group batch ++ [str_mul "=" 70])
  /\ single_group (created_b t1 dir1)
     = [nl +++ "■ 新規作成 (1件)";
        "  " +++ strftime "%m/%d %H:%M" t1 +++ " ["
          +++ (if dir1 then "フォルダ" else "ファイル") +++ "] /a/b.txt"]
  /\ single_group (deleted_c t2 dir2)
     = [nl +++ "■ 削除 (1件)";
        "  " +++ strftime "%m/%d %H:%M" t2 +++ " ["
          +++ (if dir2 then "フォルダ" else "ファイル") +++ "] /a/c.txt"]
  /\ single_group (moved_old_new t3 dir3)
     = [nl +++ "■ 移動・リネーム (1件)";
        "  " +++ strftime "%m/%d %H:%M" t3 +++ " ["
          +++ (if dir3 then "フォルダ" else "ファイル")
          +++ "] /a/old.txt → /a/new.txt"].
Proof.
  intros HP H1 H2 H3 Hall.
  split; [|split; [|split]]; try reflexivity.
  exists (get_changes_since_last_report (last_report_time st) (changes st)).
  assert (Permutation
            (get_changes_since_last_report (last_report_time st) (changes st))
            [created_b t1 dir1; deleted_c t2 dir2; moved_old_new t3 dir3]) as HB.
  { rewrite get_changes_filter, sorted_by_timestamp_perm.
    rewrite (filter_perm _ _ _ HP). cbn [filter].
    unfold newer_than. cbn [timestamp created_b deleted_c moved_old_new].
    apply dt_gtb_iff in H1, H2, H3. now rewrite H1, H2, H3. }
  split; [exact HB|]. split.
  - unfold get_changes_since_last_report. apply sorted_by_timestamp_sorted.
  - rewrite _generate_report_ok by exact Hall.
    cbn [snd set_last_report_time printed stdout]. f_equal.
    unfold report_of.
    apply Permutation_sym, Permutation_three in HB.
    destruct HB as [E|[E|[E|[E|[E|E]]]]]; rewrite E;
      rewrite report_lines_nonempty by discriminate; reflexivity.
Qed.

Lemma _generate_report_mixed_batch_witness :
  exists batch,
    Permutation batch
      [created_b (at_time 2024 3 5 9 30 0) false;
       deleted_c (at_time 2024 3 5 9 31 0) false;
       moved_old_new (at_time 2024 3 6 1 2 0) false]
    /\ stdout (snd (_generate_report open_console (at_time 2024 3 6 6 0 0)
                      sample_state))
       = stdout sample_state ++ report_head (at_time 2024 3 6 6 0 0) 3
         ++ flat_map single_group batch ++ [str_mul "=" 70].
Proof.
  destruct (_generate_report_mixed_batch open_console (at_time 2024 3 6 6 0 0)
              (at_time 2024 3 5 9 30 0) (at_time 2024 3 5 9 31 0)
              (at_time 2024 3 6 1 2 0) false false false sample_state)
    as [(batch & HP & _ & Hout) _].
  - apply Permutation_refl.
  - reflexivity.
  - reflexivity.
  - reflexivity.
  - apply Forall_forall. reflexivity.
  - exists batch. split; assumption.
Defined.

(** ** The recorder keeps its buckets *)

Lemma store_inv_filter (p : string * list ChangeRecord -> bool) (s : store) :
  store_inv s -> store_inv (filter p s).
Proof.
  intros [Hnd Hb]. split.
  - clear Hb. induction s as [|[k l] s IH]; simpl; [constructor|].
    inversion Hnd as [|? ? Hnot Hnd']; subst.
    destruct (p (k, l)); simpl; [|now apply IH].
    constructor; [|now apply IH].
    intros Hin. apply Hnot. apply in_map_iff in Hin.
    destruct Hin as [b [E Hin]]. apply filter_In in Hin.
    apply in_map_iff. exists b. tauto.
  - intros k l c Hin. apply filter_In in Hin. destruct Hin as [Hin _].
    now apply Hb.
Qed.

Lemma store_inv_record (now : datetime) (et p : string) (dir : bool)
  (op : option string) (s : store) :
  store_inv s -> store_inv (_record_change now et p dir op s).
Proof.
  intros [Hnd Hb]. unfold _record_change. cbn [timestamp]. split.
  - now apply dict_append_NoDup.
  - intros k l c Hin Hc.
    apply dict_append_In in Hin; [|exact Hnd].
    destruct Hin as [[Hne Hin]|[-> (l0 & -> & Hl0)]].
    + eapply Hb; eassumption.
    + apply in_app_or in Hc. destruct Hc as [Hc|[<-|[]]]; [|reflexivity].
      destruct Hl0 as [->|Hin]; [destruct Hc|].
      eapply Hb; eassumption.
Qed.

Lemma store_inv_clear (days_to_keep : Z) (now : datetime) (s : store) :
  store_inv s ->
  store_inv (snd (clear_old_changes days_to_keep now s))
  /\ subseq (snd (clear_old_changes days_to_keep now s)) s.
Proof.
  intros Hinv. pose proof (clear_old_changes_cases days_to_keep now s) as H.
  destruct (clear_old_changes days_to_keep now s) as [[[]|e] s']; cbn [snd].
  - destruct H as (c & _ & ->). split.
    + now apply store_inv_filter.
    + apply filter_subseq.
  - subst s'. split; [exact Hinv | apply subseq_refl].
Qed.

Lemma reachable_inv (s : store) :
  reachable s -> store_inv s /\ keys_are_dates s.
Proof.
  induction 1 as [|s now et p dir op Hr [Hinv Hk] [Vd Vt]
                 |s days now Hr [Hinv Hk]].
  - split; [split; [constructor | intros ? ? ? []] | intros ? ? []].
  - split; [now apply store_inv_record|].
    intros k l Hin. unfold _record_change in Hin. cbn [timestamp] in Hin.
    apply dict_append_In in Hin; [|apply Hinv].
    destruct Hin as [[_ Hin]|[-> _]]; [eauto|].
    exists (dt_date now). split; [exact Vd|].
    unfold key_of_date. now rewrite !date_key_eq.
  - split; [now apply store_inv_clear|].
    pose proof (clear_old_changes_cases days now s) as H.
    destruct (clear_old_changes days now s) as [[[]|e] s']; cbn [snd].
    + destruct H as (c & _ & ->). intros k l Hin.
      apply filter_In in Hin. destruct Hin as [Hin _]. eauto.
    + now subst s'.
Qed.


Lemma sample_store_reachable : reachable sample_store.
Proof.
  unfold sample_store, on_moved, on_deleted, on_created.
  repeat (apply reachable_record; [|split; reflexivity]).
  apply reachable_empty.
Qed.


(** ** Clearing twice in a row *)

Lemma filter_id_iff {A : Type} (p : A -> bool) (l : list A) :
  filter p l = l <-> forall x, In x l -> p x = true.
Proof.
  induction l as [|x l IH]; cbn [filter].
  - split; [intros _ y []|reflexivity].
  - destruct (p x) eqn:E.
    + split.
      * intros H y [<-|Hy]; [exact E|]. inversion H as [H'].
        exact (proj1 IH H' y Hy).
      * intros H. f_equal. apply (proj2 IH). intros y Hy. apply H. now right.
    + split.
      * intros H. exfalso. pose proof (filter_length_le p l) as Hlen.
        rewrite H in Hlen. cbn [List.length] in Hlen. lia.
      * intros H. rewrite (H x (or_introl eq_refl)) in E. discriminate.
Qed.

Lemma In_clear_old_changes (days_to_keep : Z) (now : datetime) (s : store)
  (b : string * list ChangeRecord) :
  In b (snd (clear_old_changes days_to_keep now s)) -> In b s.
Proof.
  pose proof (clear_old_changes_cases days_to_keep now s) as H.
  destruct (clear_old_changes days_to_keep now s) as [[[]|e] s']; cbn [snd].
  - destruct H as [c [_ ->]]. intros Hb. now apply filter_In in Hb.
  - now subst s'.
Qed.

(** C7. Clearing twice in a row, with no event recorded in between, each
    call reading the clock: a second call at the same reading changes
    nothing and ends as the first did; for two readings in clock order the
    two calls leave the buckets that one call at the later reading leaves;
    these are the buckets the first call left exactly when no bucket the
    first call kept is expired at the second reading, and so they are when
    both readings are of the same day and the first is not midnight sharp
    (or the second is too). *)
Theorem clear_old_changes_twice
  (days_to_keep : Z) (now : datetime) (s : store) :
  clear_old_changes days_to_keep now
    (snd (clear_old_changes days_to_keep now s))
  = clear_old_changes days_to_keep now s
  /\ (forall now',
         0 <= days_to_keep -> valid_datetime now -> valid_datetime now' ->
         dt_le now now' ->
         snd (clear_old_changes days_to_keep now'
                (snd (clear_old_changes days_to_keep now s)))
         = snd (clear_old_changes days_to_keep now' s))
  /\ (forall now' cutoff_date,
         keys_are_dates s ->
         cutoff days_to_keep now' = Ok cutoff_date ->
         (snd (clear_old_changes days_to_keep now'
                 (snd (clear_old_changes days_to_keep now s)))
          = snd (clear_old_changes days_to_keep now s)
          <-> forall k l,
              In (k, l) (snd (clear_old_changes days_to_keep now s)) ->
              expired cutoff_date k = false))
  /\ (forall now',
         keys_are_dates s -> valid_datetime now -> valid_datetime now' ->
         dt_date now' = dt_date now ->
         dt_time now <> midnight \/ dt_time now' = midnight ->
         snd (clear_old_changes days_to_keep now'
                (snd (clear_old_changes days_to_keep now s)))
         = snd (clear_old_changes days_to_keep now s)).
Proof.
  assert (Hparse1 : keys_are_dates s ->
                    forall k l,
                      In (k, l) (snd (clear_old_changes days_to_keep now s)) ->
                      exists d, strptime_Ymd k = Ok d).
  { intros Hkeys k l Hin. apply In_clear_old_changes in Hin.
    exact (keys_are_dates_parse s Hkeys k l Hin). }
  split; [|split; [|split]].
  - destruct (clear_old_changes days_to_keep now s) as [[[]|e] s'] eqn:E.
    + destruct (clear_old_changes_ok_inv _ _ _ _ E) as (c & Hc & Hk & ->).
      cbn [snd]. rewrite (clear_old_changes_ok _ _ c).
      * now rewrite filter_filter_weaker by auto.
      * exact Hc.
      * intros k l Hin. apply filter_In in Hin. destruct Hin as [Hin _]. eauto.
    + pose proof (clear_old_changes_cases days_to_keep now s) as H.
      rewrite E in H. subst s'. exact E.
  - intros now' Hdays [Vd Vt] [Vd' Vt'] Hle.
    destruct (clear_old_changes days_to_keep now s) as [[[]|e] s1] eqn:E.
    + destruct (clear_old_changes_ok_inv _ _ _ _ E) as (c1 & Hc1 & Hk & ->).
      cbn [snd].
      destruct (cutoff_ok_inv _ _ _ Vt Hc1) as (Habs & Ho & ->).
      pose proof (toordinal_bounds _ Vd) as B.
      pose proof (toordinal_bounds _ Vd') as B'.
      assert (toordinal (dt_date now) <= toordinal (dt_date now')) as Hord.
      { apply dt_le_iff in Hle. destruct Hle as [Hlt|[-> _]]; [|lia].
        apply toordinal_lt in Hlt; auto. lia. }
      pose proof (cutoff_ok days_to_keep now' Vt' Habs ltac:(lia)) as Hc2.
      rewrite (clear_old_changes_ok _ _ _ _ Hc2).
      * rewrite (clear_old_changes_ok _ _ _ _ Hc2) by exact Hk.
        cbn [snd]. apply filter_filter_weaker. intros b.
        apply keeps_antitone.
        apply dt_le_iff. cbn [dt_date dt_time datetime_combine].
        apply dt_le_iff in Hle. destruct Hle as [Hlt|[Ed Ht]].
        -- left. apply toordinal_lt in Hlt; auto.
           apply fromordinal_lt; lia.
        -- right. rewrite Ed. auto.
      * intros k l Hin. apply filter_In in Hin. destruct Hin as [Hin _]. eauto.
    + pose proof (clear_old_changes_cases days_to_keep now s) as H.
      rewrite E in H. now subst s1.
  - intros now' cutoff_date Hkeys Hc.
    rewrite (clear_old_changes_ok _ _ _ _ Hc (Hparse1 Hkeys)).
    cbn [snd]. split.
    + intros H k l Hin.
      pose proof (proj1 (filter_id_iff _ _) H (k, l) Hin) as Hk.
      unfold keeps in Hk. cbn [fst] in Hk. now apply negb_true_iff in Hk.
    + intros H. apply filter_id_iff. intros [k l] Hin. unfold keeps.
      cbn [fst]. apply negb_true_iff. exact (H k l Hin).
  - intros now' Hkeys [Vd Vt] [Vd' Vt'] Hdate Htime.
    destruct (clear_old_changes days_to_keep now s) as [[[]|e] s1] eqn:E.
    + destruct (clear_old_changes_ok_inv _ _ _ _ E) as (c1 & Hc1 & Hk & Hs1).
      cbn [snd] in *. 
      destruct (cutoff_ok_inv _ _ _ Vt Hc1) as (Habs & Ho & ->).
      assert (cutoff days_to_keep now'
              = Ok (datetime_combine
                      (fromordinal (toordinal (dt_date now) - days_to_keep))
                      (dt_time now'))) as Hc2.
      { rewrite <- Hdate. apply cutoff_ok; [exact Vt'|exact Habs|].
        now rewrite Hdate. }
      rewrite (clear_old_changes_ok _ _ _ _ Hc2 (Hparse1 Hkeys)). cbn [snd].
      apply filter_id_iff. intros [k l] Hin. unfold keeps. cbn [fst].
      apply negb_true_iff.
      destruct (expired _ k) eqn:Ex; [exfalso|reflexivity].
      subst s1. apply filter_In in Hin as [Hin Hkept].
      unfold keeps in Hkept. cbn [fst] in Hkept.
      apply negb_true_iff in Hkept.
      destruct (Hkeys k l Hin) as [d [Vday ->]].
      apply (expired_key_of_date _ d _ Vday Vt') in Ex.
      assert (expired
                (datetime_combine
                   (fromordinal (toordinal (dt_date now) - days_to_keep))
                   (dt_time now)) (key_of_date d) = true) as Hex;
        [|congruence].
      apply (expired_key_of_date _ d _ Vday Vt).
      destruct Ex as [Hlt|[Ed Hnm]]; [now left|].
      right. split; [exact Ed|].
      destruct Htime as [Hnow|Hnow']; [exact Hnow|now elim Hnm].
    + pose proof (clear_old_changes_cases days_to_keep now s) as H.
      rewrite E in H. subst s1. cbn [snd].
      pose proof (clear_old_changes_cases days_to_keep now' s) as H'.
      destruct (clear_old_changes days_to_keep now' s) as [[[]|e'] s2];
        cbn [snd]; [exfalso|exact H'].
      destruct H' as (c2 & Hc2 & _).
      destruct (cutoff_ok_inv _ _ _ Vt' Hc2) as (Habs & Ho & _).
      rewrite Hdate in Ho.
      pose proof (cutoff_ok days_to_keep now Vt Habs Ho) as Hc1.
      rewrite (clear_old_changes_ok _ _ _ _ Hc1 (keys_are_dates_parse s Hkeys))
        in E.
      discriminate.
Qed.

Lemma clear_old_changes_twice_witness :
  snd (clear_old_changes 7 (at_time 2024 3 13 0 0 1)
         (snd (clear_old_changes 7 (at_time 2024 3 12 23 59 59) sample_store)))
  = snd (clear_old_changes 7 (at_time 2024 3 13 0 0 1) sample_store)
  /\ snd (clear_old_changes 7 (at_time 2024 3 12 23 59 59)
            (snd (clear_old_changes 7 (at_time 2024 3 12 0 0 1) sample_store)))
     = snd (clear_old_changes 7 (at_time 2024 3 12 0 0 1) sample_store).
Proof.
  destruct (clear_old_changes_twice 7 (at_time 2024 3 12 23 59 59) sample_store)
    as (_ & Hlater & _ & _).
  destruct (clear_old_changes_twice 7 (at_time 2024 3 12 0 0 1) sample_store)
    as (_ & _ & _ & Hsame).
  split.
  - apply Hlater.
    + lia.
    + split; reflexivity.
    + split; reflexivity.
    + vm_compute. discriminate.
  - apply Hsame.
    + exact (proj2 (reachable_inv sample_store sample_store_reachable)).
    + split; reflexivity.
    + split; reflexivity.
    + reflexivity.
    + left. discriminate.
Defined.

(** A call just before midnight and a call just after it: the first keeps
    the bucket of 2024-03-06, the second removes it. *)
Lemma clear_old_changes_twice_is_not_once :
  dt_le (at_time 2024 3 12 23 59 59) (at_time 2024 3 13 0 0 1)
  /\ clear_old_changes 7 (at_time 2024 3 12 23 59 59) sample_store
     = (Ok tt,
        [("2024-03-06",
          [mkChangeRecord (at_time 2024 3 6 1 2 0) "moved" "/a/new.txt" false
             (Some "/a/old.txt")])])
  /\ clear_old_changes 7 (at_time 2024 3 13 0 0 1)
       (snd (clear_old_changes 7 (at_time 2024 3 12 23 59 59) sample_store))
     = (Ok tt, [])
  /\ snd (clear_old_changes 7 (at_time 2024 3 13 0 0 1)
            (snd (clear_old_changes 7 (at_time 2024 3 12 23 59 59)
                    sample_store)))
     <> snd (clear_old_changes 7 (at_time 2024 3 12 23 59 59) sample_store).
Proof.
  split; [vm_compute; discriminate|].
  split; [vm_compute; reflexivity|].
  split; [vm_compute; reflexivity|].
  vm_compute. discriminate.
Qed.

(** ** Exceptions: the main loop, the report thread *)

Section Monitoring.

Variable console : string -> option exn.

Lemma same_monitoring_refl (st : state) : same_monitoring st st.
Proof. split; reflexivity. Qed.

Lemma same_monitoring_trans (st1 st2 st3 : state) :
  same_monitoring st1 st2 -> same_monitoring st2 st3 -> same_monitoring st1 st3.
Proof. intros [H1 H2] [H3 H4]. split; congruence. Qed.

Lemma keeps_ret {A : Type} (a : A) : keeps_monitoring (ret a).
Proof. intros st. apply same_monitoring_refl. Qed.

Lemma keeps_raise {A : Type} (e : exn) : keeps_monitoring (@raise A e).
Proof. intros st. apply same_monitoring_refl. Qed.

Lemma keeps_lift {A : Type} (r : result A) : keeps_monitoring (lift r).
Proof. destruct r; [apply keeps_ret | apply keeps_raise]. Qed.

Lemma keeps_gets {A : Type} (f : state -> A) : keeps_monitoring (gets f).
Proof. intros st. apply same_monitoring_refl. Qed.

Lemma keeps_bind {A B : Type} (m : M A) (k : A -> M B) :
  keeps_monitoring m -> (forall a, keeps_monitoring (k a)) ->
  keeps_monitoring (bind m k).
Proof.
  intros Hm Hk st. unfold bind. specialize (Hm st).
  destruct (m st) as [[a|e|] st']; cbn [snd] in *; auto.
  eapply same_monitoring_trans; [exact Hm | apply Hk].
Qed.

Lemma keeps_print (line : string) : keeps_monitoring (print console line).
Proof.
  intros st. unfold print. destruct (console line); split; reflexivity.
Qed.

Lemma keeps_generate_report (current_time : datetime) :
  keeps_monitoring (_generate_report console current_time).
Proof.
  intros st. pose proof (_generate_report_cases console current_time st) as H.
  destruct (_generate_report console current_time st) as [[[]|e|] st'];
    cbn [snd].
  - destruct H as [_ ->]. split; reflexivity.
  - destruct H as (before & line & after & _ & _ & _ & ->). split; reflexivity.
  - destruct H.
Qed.

Lemma keeps_run_clear_old_changes (now : datetime) :
  keeps_monitoring (run_clear_old_changes now).
Proof.
  intros st. unfold run_clear_old_changes.
  destruct (clear_old_changes 7 now (changes st)) as [[[]|e] s'];
    split; reflexivity.
Qed.

Lemma keeps_path_wait (b : bool) :
  keeps_monitoring (if b then ret tt else @pending unit).
Proof. destruct b; intros st; apply same_monitoring_refl. Qed.

Lemma keeps_main_loop (turns : list main_turn) :
  keeps_monitoring (_main_loop console turns).
Proof.
  induction turns as [|turn turns IH].
  - intros st. simpl. destruct (running st); apply same_monitoring_refl.
  - cbn [_main_loop]. apply keeps_bind; [apply keeps_gets|]. intros r.
    destruct (negb r); [apply keeps_ret|].
    apply keeps_bind.
    { destruct (negb (path_exists turn)); [|apply keeps_ret].
      repeat (apply keeps_bind;
              [apply keeps_print || apply keeps_gets || apply keeps_path_wait|];
              intros).
      match goal with |- keeps_monitoring (if ?b then _ else _) => destruct b end;
        [apply keeps_print | apply keeps_ret]. }
    intros _. apply keeps_bind; [apply keeps_run_clear_old_changes|].
    intros _. apply keeps_bind; [|intros _; exact IH].
    destruct (interrupted turn); [apply keeps_raise | apply keeps_ret].
Qed.

Lemma keeps_report_scheduler (turns : list scheduler_turn) :
  keeps_monitoring (_report_scheduler console turns).
Proof.
  induction turns as [|turn turns IH].
  - intros st. simpl. destruct (running st); apply same_monitoring_refl.
  - cbn [_report_scheduler]. apply keeps_bind; [apply keeps_gets|]. intros r.
    destruct (negb r); [apply keeps_ret|]. cbv zeta.
    apply keeps_bind; [apply keeps_lift|]. intros next_report.
    destruct (total_seconds_positive _); [exact IH|].
    apply keeps_bind; [apply keeps_generate_report | intros _; exact IH].
Qed.

(** A thread never hands an exception on, and it stops the monitoring no
    more than its target does. *)
Lemma thread_run_contains (body : M unit) (st : state) :
  keeps_monitoring body ->
  (fst (thread_run body st) = Done tt \/ fst (thread_run body st) = Pending)
  /\ same_monitoring st (snd (thread_run body st)).
Proof.
  intros Hb. specialize (Hb st). unfold thread_run.
  destruct (body st) as [[[]|e|] st']; cbn [fst snd] in *.
  - split; [now left|]. destruct Hb. split; assumption.
  - split; [now left|]. destruct Hb. split; assumption.
  - split; [now right | exact Hb].
Qed.

Lemma start_setup_done (st st0 : state) :
  start_setup console st = (Done tt, st0) ->
  running st0 = true /\ observer st0 = Some ObserverStarted.
Proof.
  unfold start_setup, bind, modify, print.
  repeat match goal with
         | |- context [console ?l] => destruct (console l); [discriminate|]
         end.
  intros H. inversion H. split; reflexivity.
Qed.

Lemma stop_running (st : state) (o : observer_state) :
  running st = true -> observer st = Some o ->
  console "ファイル監視を停止しました。" = None ->
  stop console st
  = (Done tt,
     write_stdout "ファイル監視を停止しました。"
       (set_observer (Some ObserverStopped) (set_running false st))).
Proof.
  intros Hr Ho Hc. unfold stop, bind, gets, modify. rewrite Hr. cbn [negb].
  cbn [observer set_running]. rewrite Ho. unfold print. now rewrite Hc.
Qed.

End Monitoring.

(** C5 (as the code has it). An exception (an [Exception]) raised in the
    main loop is caught by [start]: its message is printed after "エラー: ",
    [stop] then ends the monitoring (the observer stopped, [running] false)
    and [start] returns [True].  The report thread is outside that handler:
    whatever is raised in it, in the scheduler or in a report, ends the
    thread only, and the monitoring goes on. *)
Theorem start_catches_main_loop_exception (console : string -> option exn)
  (turns : list main_turn) (st st0 st1 : state) (e : exn) :
  running st = false ->
  start_setup console st = (Done tt, st0) ->
  _main_loop console turns st0 = (Raised e, st1) ->
  is_Exception e = true ->
  console ("エラー: " +++ exc_msg e) = None ->
  console "ファイル監視を停止しました。" = None ->
  (exists st2,
      start console true turns st = (Done true, st2)
      /\ running st2 = false
      /\ observer st2 = Some ObserverStopped
      /\ stdout st2
         = stdout st1 ++ ["エラー: " +++ exc_msg e; "ファイル監視を停止しました。"])
  /\ (forall sturns sta,
         (fst (thread_run (_report_scheduler console sturns) sta) = Done tt
          \/ fst (thread_run (_report_scheduler console sturns) sta) = Pending)
         /\ same_monitoring sta
              (snd (thread_run (_report_scheduler console sturns) sta)))
  /\ (forall current_time sta,
         fst (thread_run (_generate_report console current_time) sta) = Done tt
         /\ same_monitoring sta
              (snd (thread_run (_generate_report console current_time) sta))).
Proof.
  intros Hrun Hsetup Hloop Hexc Hmsg Hstop.
  split; [|split].
  - destruct (start_setup_done console st st0 Hsetup) as [Hr0 Ho0].
    pose proof (keeps_main_loop console turns st0) as Hk.
    rewrite Hloop in Hk. cbn [snd] in Hk. destruct Hk as [Hr1 Ho1].
    rewrite Hr0 in Hr1. rewrite Ho0 in Ho1.
    eexists. split.
    + unfold start. cbn [negb]. unfold bind at 1, gets at 1. rewrite Hrun.
      unfold bind at 1. unfold try_except_finally.
      unfold bind at 1. rewrite Hsetup, Hloop, Hexc.
      unfold print at 1. rewrite Hmsg.
      rewrite (stop_running console _ ObserverStarted) by assumption.
      reflexivity.
    + cbn [running observer stdout write_stdout set_observer set_running].
      rewrite <- app_assoc. repeat split.
  - intros sturns sta. apply thread_run_contains. apply keeps_report_scheduler.
  - intros t sta.
    pose proof (thread_run_contains (_generate_report console t) sta
                  (keeps_generate_report console t)) as [H1 H2].
    split; [|exact H2]. destruct H1 as [H1|H1]; [exact H1|].
    unfold thread_run in H1.
    pose proof (_generate_report_cases console t sta) as Hc.
    destruct (_generate_report console t sta) as [[[]|e'|] st']; try discriminate.
    destruct Hc.
Qed.

Lemma start_catches_main_loop_exception_witness :
  exists st2,
    start open_console true failing_turns (FileMonitor_init (at_time 2024 3 5 9 0 0))
    = (Done true, st2)
    /\ running st2 = false
    /\ observer st2 = Some ObserverStopped
    /\ In "エラー: date value out of range" (stdout st2).
Proof.
  destruct (start_catches_main_loop_exception open_console failing_turns
              (FileMonitor_init (at_time 2024 3 5 9 0 0))
              (snd (start_setup open_console
                      (FileMonitor_init (at_time 2024 3 5 9 0 0))))
              (snd (_main_loop open_console failing_turns
                      (snd (start_setup open_console
                              (FileMonitor_init (at_time 2024 3 5 9 0 0))))))
              (overflow "date value out of range"))
    as [(st2 & E & Hr & Ho & Hout) _]; try reflexivity.
  exists st2. repeat split; try assumption.
  rewrite Hout. apply in_or_app. right. now left.
Defined.

(** C5 as stated fails for a report: with the monitoring set up and a
    record whose line the console refuses, [_generate_report] raises; in the
    report thread that ends the thread with the exception on [stderr], while
    [running] stays true, the observer stays started and no "エラー: " line
    is printed.  The same holds for the exception the scheduler itself
    raises on the last day. *)
Lemma report_exception_not_caught :
  running monitoring_state = true
  /\ observer monitoring_state = Some ObserverStarted
  /\ fst (_generate_report narrow_console (at_time 2024 3 5 10 0 0)
            monitoring_state)
     = Raised (mkexn UnicodeEncodeError "codec can't encode character")
  /\ fst (thread_run (_generate_report narrow_console (at_time 2024 3 5 10 0 0))
            monitoring_state)
     = Done tt
  /\ running
       (snd (thread_run
               (_generate_report narrow_console (at_time 2024 3 5 10 0 0))
               monitoring_state))
     = true
  /\ observer
       (snd (thread_run
               (_generate_report narrow_console (at_time 2024 3 5 10 0 0))
               monitoring_state))
     = Some ObserverStarted
  /\ report_thread
       (snd (thread_run
               (_generate_report narrow_console (at_time 2024 3 5 10 0 0))
               monitoring_state))
     = Some ThreadFinished
  /\ ~ In "エラー: codec can't encode character"
         (stdout
            (snd (thread_run
                    (_generate_report narrow_console (at_time 2024 3 5 10 0 0))
                    monitoring_state)))
  /\ fst (_report_scheduler open_console last_day_turns monitoring_state)
     = Raised (overflow "date value out of range")
  /\ fst (thread_run (_report_scheduler open_console last_day_turns)
            monitoring_state)
     = Done tt
  /\ running
       (snd (thread_run (_report_scheduler open_console last_day_turns)
               monitoring_state))
     = true
  /\ observer
       (snd (thread_run (_report_scheduler open_console last_day_turns)
               monitoring_state))
     = Some ObserverStarted.
Proof.
  repeat split; try reflexivity.
  vm_compute. intuition discriminate.
Qed.

(** ** The scheduler's wait *)

Lemma time_microseconds_bounds (t : time) :
  valid_time t -> 0 <= time_microseconds t < 86400000000.
Proof.
  intros V. apply valid_time_iff in V. unfold time_microseconds. lia.
Qed.

Lemma time_microseconds_lt (t1 t2 : time) :
  valid_time t1 -> valid_time t2 -> time_compare t1 t2 = Lt ->
  time_microseconds t1 < time_microseconds t2.
Proof.
  intros V1 V2. apply valid_time_iff in V1, V2.
  unfold time_compare, time_microseconds.
  destruct (Z.compare_spec (hour t1) (hour t2)); cbn [lexc];
    [|lia|discriminate].
  destruct (Z.compare_spec (minute t1) (minute t2)); cbn [lexc];
    [|lia|discriminate].
  destruct (Z.compare_spec (second t1) (second t2)); cbn [lexc];
    [|lia|discriminate].
  destruct (Z.compare_spec (microsecond t1) (microsecond t2)); cbn [lexc];
    [discriminate|lia|discriminate].
Qed.

(** The wait until a later time is positive. *)
Lemma total_seconds_positive_later (a b : datetime) :
  valid_datetime a -> valid_datetime b -> dt_lt a b ->
  total_seconds_positive (datetime_diff b a) = true.
Proof.
  intros [Vda Vta] [Vdb Vtb] Hlt.
  unfold total_seconds_positive, datetime_diff.
  rewrite td_total_of_microseconds. apply Z.ltb_lt.
  pose proof (time_microseconds_bounds _ Vta).
  pose proof (time_microseconds_bounds _ Vtb).
  apply dt_lt_iff in Hlt. destruct Hlt as [Hd|[Ed Ht]].
  - apply toordinal_lt in Hd; auto. lia.
  - rewrite Ed. apply time_microseconds_lt in Ht; auto. lia.
Qed.

(** The next report time is a time, later than the current one. *)
Lemma _get_next_report_time_later (current_time next : datetime) :
  valid_datetime current_time ->
  _get_next_report_time current_time = Ok next ->
  valid_datetime next /\ dt_lt current_time next.
Proof.
  intros [Vd Vt]. unfold _get_next_report_time.
  pose proof (first_hour_after_REPORT_HOURS (hour (dt_time current_time))) as Hf.
  destruct (first_hour_after REPORT_HOURS (hour (dt_time current_time)))
    as [h|].
  - destruct Hf as (Hh & Hlt & _). intros E. inversion E; subst. split.
    + split; [exact Vd | now apply valid_time_sharp].
    + apply dt_lt_iff. right. split; [reflexivity|].
      now apply time_before_sharp.
  - change (timedelta_days 1) with (Ok (mktimedelta 1 0 0)). cbn [rbind].
    rewrite (date_add_one_day _ Vd).
    destruct (Z.ltb_spec (toordinal (dt_date current_time)) _MAXORDINAL)
      as [Hlt|Hge]; cbn [rbind]; [|discriminate].
    intros E. inversion E; subst.
    assert (dt_date current_time <> date_max) as Hmax.
    { intros Emax. rewrite Emax in Hlt. vm_compute in Hlt. discriminate. }
    destruct (next_day_spec _ Vd Hmax) as (Vn & _ & Hn & _).
    split; [split; [exact Vn | reflexivity]|].
    apply dt_lt_iff. now left.
Qed.

(** X1. The report scheduler never reports.  Each turn computes the next report
    time from the clock it has just read; that time is later than the
    reading, so the wait is positive and the turn goes back to the top of the
    loop: [_generate_report] is not reached, and the state of the monitor is
    what it was, however many turns pass. *)
Theorem _report_scheduler_never_reports (console : string -> option exn)
  (turns : list scheduler_turn) (st : state) :
  Forall (fun turn => valid_datetime (turn_now turn)) turns ->
  snd (_report_scheduler console turns st) = st
  /\ (fst (_report_scheduler console turns st) = Pending
      \/ fst (_report_scheduler console turns st) = Done tt
      \/ fst (_report_scheduler console turns st)
         = Raised (overflow "date value out of range")).
Proof.
  induction 1 as [|turn turns Hv Hall IH].
  - simpl. destruct (running st); cbn [fst snd]; auto.
  - destruct (running st) eqn:Hr.
    + destruct (_get_next_report_time (turn_now turn)) as [next|e] eqn:En.
      * destruct (_get_next_report_time_later _ _ Hv En) as [Vn Hlt].
        assert (_report_scheduler console (turn :: turns) st
                = _report_scheduler console turns st) as ->; [|exact IH].
        cbn [_report_scheduler]. unfold bind, gets. rewrite Hr. cbn [negb].
        cbv zeta. rewrite En. cbn [lift]. unfold ret.
        now rewrite (total_seconds_positive_later _ _ Hv Vn Hlt).
      * assert (_report_scheduler console (turn :: turns) st = (Raised e, st))
          as ->.
        { cbn [_report_scheduler]. unfold bind, gets. rewrite Hr. cbn [negb].
          cbv zeta. now rewrite En. }
        cbn [fst snd]. split; [reflexivity|]. right. right. f_equal.
        destruct Hv as [Vd Vt]. unfold _get_next_report_time in En.
        destruct (first_hour_after REPORT_HOURS (hour (dt_time (turn_now turn))));
          [discriminate|].
        change (timedelta_days 1) with (Ok (mktimedelta 1 0 0)) in En.
        cbn [rbind] in En. rewrite (date_add_one_day _ Vd) in En.
        destruct (toordinal (dt_date (turn_now turn)) <? _MAXORDINAL);
          cbn [rbind] in En; [discriminate|]. now inversion En.
    + assert (_report_scheduler console (turn :: turns) st = (Done tt, st))
        as ->.
      { cbn [_report_scheduler]. unfold bind, gets. now rewrite Hr. }
      cbn [fst snd]. auto.
Qed.

Lemma _report_scheduler_never_reports_witness :
  snd (_report_scheduler open_console turns_around_ten monitoring_state)
  = monitoring_state.
Proof.
  apply (_report_scheduler_never_reports open_console turns_around_ten
           monitoring_state).
  repeat constructor.
Defined.

(** ** What the handler's callbacks leave in the store *)

Lemma all_records_dict_append (k : string) (c : ChangeRecord) (s : store) :
  Permutation (all_records (dict_append k c s)) (all_records s ++ [c]).
Proof.
  unfold all_records.
  induction s as [|[k' l] s IH]; cbn [dict_append map List.concat].
  - reflexivity.
  - destruct (String.eqb k' k); cbn [map List.concat fst snd].
    + rewrite <- !app_assoc. apply Permutation_app_head, Permutation_app_comm.
    + rewrite <- app_assoc. now apply Permutation_app_head.
Qed.

Lemma all_records_dispatch (n : notification) (s : store) :
  Permutation (all_records (dispatch n s)) (all_records s ++ records_of n).
Proof.
  unfold dispatch, records_of, on_created, on_modified, on_deleted, on_moved,
    _record_change.
  destruct (n_callback n); try apply all_records_dict_append.
  destruct (ev_is_directory (n_event n)); cbn [negb].
  - now rewrite app_nil_r.
  - apply all_records_dict_append.
Qed.

Lemma all_records_deliver (log : list notification) (s : store) :
  Permutation (all_records (deliver log s))
    (all_records s ++ flat_map records_of log).
Proof.
  unfold deliver. revert s.
  induction log as [|n log IH]; intros s; cbn [fold_left flat_map].
  - now rewrite app_nil_r.
  - rewrite IH, app_assoc. apply Permutation_app_tail, all_records_dispatch.
Qed.

Lemma In_all_records (c : ChangeRecord) (s : store) :
  In c (all_records s) <-> exists k l, In (k, l) s /\ In c l.
Proof.
  unfold all_records. rewrite in_concat. split.
  - intros [l [Hl Hc]]. apply in_map_iff in Hl as [[k l'] [<- Hb]].
    now exists k, l'.
  - intros [k [l [Hb Hc]]]. exists l. split; [|exact Hc].
    apply in_map_iff. now exists (k, l).
Qed.

Lemma all_records_clear (days_to_keep : Z) (now : datetime) (s : store)
  (c : ChangeRecord) :
  In c (all_records (snd (clear_old_changes days_to_keep now s))) ->
  In c (all_records s).
Proof.
  pose proof (clear_old_changes_cases days_to_keep now s) as H.
  destruct (clear_old_changes days_to_keep now s) as [[[]|e] s']; cbn [snd].
  - destruct H as [cutoff_date [_ ->]]. rewrite !In_all_records.
    intros [k [l [Hb Hc]]]. apply filter_In in Hb as [Hb _]. now exists k, l.
  - now subst s'.
Qed.

(** X2. Every notification leaves its record and nothing else: after the
    notifications of a log, delivered to the callbacks [on_created],
    [on_modified], [on_deleted] and [on_moved] in any order and at any clock
    readings, the store holds, each once, one record for every notification
    except the modifications of directories, which leave none; the record of
    a move has the destination as path and the source as old path.  Clearing
    old buckets only removes such records.  Hence every stored record has one
    of the four kinds the report has a label for, a record has an old path
    exactly when it is a move, and no modification record is a directory. *)
Theorem recorder_is_faithful (log : list notification) :
  Permutation (all_records (deliver log [])) (flat_map records_of log)
  /\ (forall days_to_keep now c,
         In c (all_records
                 (snd (clear_old_changes days_to_keep now (deliver log [])))) ->
         In c (flat_map records_of log))
  /\ (forall c,
         In c (all_records (deliver log [])) ->
         In (dict_get (event_type c) type_names (event_type c))
            (map snd type_names)
         /\ (old_path c <> None <-> event_type c = "moved")
         /\ (event_type c = "modified" -> is_directory c = false)).
Proof.
  pose proof (all_records_deliver log []) as P. cbn [all_records app] in P.
  change (all_records []) with (@nil ChangeRecord) in P. cbn [app] in P.
  split; [exact P|]. split.
  - intros days_to_keep now c Hc. apply all_records_clear in Hc.
    now apply (Permutation_in _ P).
  - intros c Hc. apply (Permutation_in _ P) in Hc.
    apply in_flat_map in Hc as [n [_ Hc]]. unfold records_of in Hc.
    destruct (n_callback n).
    + destruct Hc as [<-|[]]. cbn. repeat split; auto; try discriminate.
      intros H; now elim H.
    + destruct (ev_is_directory (n_event n)); [destruct Hc|].
      destruct Hc as [<-|[]]. cbn. repeat split; auto; try discriminate.
      intros H; now elim H.
    + destruct Hc as [<-|[]]. cbn. repeat split; auto; try discriminate.
      intros H; now elim H.
    + destruct Hc as [<-|[]]. cbn. repeat split; auto; try discriminate.
Qed.

(** ** The groups of a report are a partition of the batch *)

Lemma all_records_fold_dict_append (changes : list ChangeRecord) (acc : store) :
  Permutation
    (all_records
       (fold_left
          (fun by_type change => dict_append (event_type change) change by_type)
          changes acc))
    (all_records acc ++ changes).
Proof.
  revert acc. induction changes as [|c changes IH]; intros acc; cbn [fold_left].
  - now rewrite app_nil_r.
  - rewrite IH. rewrite all_records_dict_append. now rewrite <- app_assoc.
Qed.

Lemma fold_dict_append_NoDup (changes : list ChangeRecord) (acc : store) :
  NoDup (map fst acc) ->
  NoDup
    (map fst
       (fold_left
          (fun by_type change => dict_append (event_type change) change by_type)
          changes acc)).
Proof.
  revert acc. induction changes as [|c changes IH]; intros acc H; cbn [fold_left].
  - exact H.
  - apply IH. now apply dict_append_NoDup.
Qed.

Lemma In_first_occurrences (k : string) (l : list string) :
  In k (first_occurrences l) -> In k l.
Proof.
  induction l as [|k' l IH]; cbn [first_occurrences]; [easy|].
  intros [->|H]; [now left|]. right. apply IH.
  now apply filter_In in H.
Qed.

(** X3. Grouping a batch by kind is a partition of it: the groups of
    [by_type] hold the records of the batch, each exactly once; the kinds of
    the groups are distinct; the group of a kind holds the batch's records of
    that kind in the batch's order and is not empty; and the counts printed
    in the group headers add up to the count printed at the head of the
    report. *)
Theorem group_by_type_partition (changes : list ChangeRecord) :
  Permutation (all_records (group_by_type changes)) changes
  /\ NoDup (map fst (group_by_type changes))
  /\ (forall k g,
         In (k, g) (group_by_type changes) ->
         g = filter (has_type k) changes /\ g <> [])
  /\ list_sum (map (fun g => List.length (snd g)) (group_by_type changes))
     = List.length changes.
Proof.
  assert (P : Permutation (all_records (group_by_type changes)) changes)
    by apply (all_records_fold_dict_append changes []).
  split; [exact P|]. split; [|split].
  - apply fold_dict_append_NoDup. constructor.
  - intros k g H. rewrite group_by_type_spec in H.
    apply in_map_iff in H as [k' [E Hk]]. unfold group_of in E.
    inversion E; subst k' g. split; [reflexivity|].
    apply In_first_occurrences in Hk. apply in_map_iff in Hk as [c [Ec Hc]].
    assert (In c (filter (has_type k) changes)) as Hin.
    { apply filter_In. split; [exact Hc|]. unfold has_type.
      now apply String.eqb_eq. }
    intros E0. now rewrite E0 in Hin.
  - rewrite <- (Permutation_length P). unfold all_records.
    rewrite length_concat, map_map. reflexivity.
Qed.

(** ** When clearing raises, and what it cannot take from a report *)

Lemma reachable_valid (s : store) :
  reachable s ->
  forall c, In c (all_records s) -> valid_datetime (timestamp c).
Proof.
  induction 1 as [|s now et p dir op R IH V|s days_to_keep now R IH];
    intros c Hc.
  - destruct Hc.
  - unfold _record_change in Hc.
    apply (Permutation_in _ (all_records_dict_append _ _ _)) in Hc.
    apply in_app_or in Hc as [Hc|[<-|[]]]; [now apply IH|exact V].
  - apply IH. now apply all_records_clear in Hc.
Qed.

Lemma reachable_from_reachable (first_year : Z) (s : store) :
  reachable_from first_year s -> reachable s.
Proof.
  induction 1; [constructor|now constructor|now constructor].
Qed.

Lemma reachable_from_years (first_year : Z) (s : store) :
  reachable_from first_year s ->
  forall c, In c (all_records s) ->
            first_year <= year (dt_date (timestamp c)).
Proof.
  induction 1 as [|s now et p dir op R IH V Hy|s days_to_keep now R IH];
    intros c Hc.
  - destruct Hc.
  - unfold _record_change in Hc.
    apply (Permutation_in _ (all_records_dict_append _ _ _)) in Hc.
    apply in_app_or in Hc as [Hc|[<-|[]]]; [now apply IH|exact Hy].
  - apply IH. now apply all_records_clear in Hc.
Qed.

Lemma reachable_nonempty (s : store) :
  reachable s -> forall k l, In (k, l) s -> l <> [].
Proof.
  induction 1 as [|s now et p dir op R IH V|s days_to_keep now R IH];
    intros k l Hin.
  - destruct Hin.
  - unfold _record_change in Hin.
    apply dict_append_In in Hin; [|exact (proj1 (proj1 (reachable_inv s R)))].
    destruct Hin as [[_ Hin]|[_ [l0 [-> _]]]]; [exact (IH k l Hin)|].
    now destruct l0.
  - apply In_clear_old_changes in Hin. exact (IH k l Hin).
Qed.

Lemma date_key_key_of_date (dt : datetime) :
  date_key dt = key_of_date (dt_date dt).
Proof. unfold key_of_date. now rewrite !date_key_eq. Qed.

(** X4. On a store built by the recorder from events recorded in the
    years 1000 to 9999 (the years whose [%Y] has four digits on every
    platform) every key is the key of a day of these years, which
    [strptime] reads back as that day, so [clear_old_changes] never raises
    [ValueError]: with a valid clock reading it returns exactly when
    [days_to_keep] is a number of days a [timedelta] can hold and the day
    [days_to_keep] days before today exists (is a day of the years 1 to
    9999); otherwise it raises [OverflowError] and the store is as before.
    With the 7 days of the main loop it returns whenever today is 0001-01-08
    or later. *)
Theorem clear_old_changes_raises_only_overflow
  (days_to_keep : Z) (now : datetime) (s : store) :
  reachable_from 1000 s -> valid_datetime now ->
  (forall k l,
      In (k, l) s ->
      exists d,
        valid_date d /\ 1000 <= year d /\ k = key_of_date d
        /\ strptime_Ymd k = Ok (datetime_combine d midnight))
  /\ (fst (clear_old_changes days_to_keep now s) = Ok tt
      <-> Z.abs days_to_keep <= 999999999
          /\ 1 <= toordinal (dt_date now) - days_to_keep <= _MAXORDINAL)
  /\ (forall e,
         fst (clear_old_changes days_to_keep now s) = Raise e ->
         exc_cls e = OverflowError
         /\ snd (clear_old_changes days_to_keep now s) = s)
  /\ (days_to_keep = 7 -> 8 <= toordinal (dt_date now) ->
      fst (clear_old_changes days_to_keep now s) = Ok tt).
Proof.
  intros Rf [Vd Vt].
  pose proof (reachable_from_reachable _ _ Rf) as R.
  assert (Hkeys : forall k l,
             In (k, l) s ->
             exists d,
               valid_date d /\ 1000 <= year d /\ k = key_of_date d
               /\ strptime_Ymd k = Ok (datetime_combine d midnight)).
  { intros k l Hin.
    destruct l as [|c l'] eqn:El; [now elim (reachable_nonempty s R k [] Hin)|].
    assert (In c (all_records s)) as Hc.
    { apply In_all_records. exists k, (c :: l'). split; [exact Hin|now left]. }
    destruct (reachable_valid s R c Hc) as [Vc _].
    pose proof (reachable_from_years _ _ Rf c Hc) as Hy.
    pose proof (proj2 (proj1 (reachable_inv s R)) k (c :: l') c Hin
                  (or_introl eq_refl)) as Hk.
    exists (dt_date (timestamp c)).
    split; [exact Vc|]. split; [exact Hy|].
    rewrite <- Hk. split; [apply date_key_key_of_date|].
    now apply strptime_date_key. }
  split; [exact Hkeys|].
  assert (Hparse : forall k l, In (k, l) s -> exists d, strptime_Ymd k = Ok d).
  { intros k l Hin. destruct (Hkeys k l Hin) as (d & _ & _ & _ & Hp). eauto. }
  pose proof (toordinal_bounds _ Vd) as Hb.
  unfold clear_old_changes, timedelta_days.
  destruct (Z.abs days_to_keep <=? 999999999) eqn:Ea; cbn [rbind].
  - apply Z.leb_le in Ea. rewrite (datetime_sub_days now days_to_keep Vt).
    destruct ((0 <? toordinal (dt_date now) - days_to_keep)
              && (toordinal (dt_date now) - days_to_keep <=? _MAXORDINAL))
      eqn:Eo; cbn [rbind].
    + rewrite (dates_to_remove_parsed _ s Hparse). cbn [fst snd].
      apply andb_true_iff in Eo as [E1 E2].
      apply Z.ltb_lt in E1. apply Z.leb_le in E2.
      split; [|split]; [split; [lia|reflexivity]|discriminate|reflexivity].
    + cbn [fst snd]. split; [|split].
      * split; [discriminate|]. intros [_ [H1 H2]].
        apply andb_false_iff in Eo as [E|E];
          [apply Z.ltb_ge in E|apply Z.leb_gt in E]; lia.
      * intros e He. inversion He. now split.
      * intros -> H8. apply andb_false_iff in Eo as [E|E];
          [apply Z.ltb_ge in E|apply Z.leb_gt in E]; lia.
  - apply Z.leb_gt in Ea.
    destruct ((-2147483648 <=? days_to_keep) && (days_to_keep <=? 2147483647));
      cbn [rbind fst snd]; (split; [|split]);
      try (split; [discriminate|lia]);
      try (intros e He; inversion He; now split);
      intros ->; cbn in Ea; lia.
Qed.

Lemma clear_old_changes_raises_only_overflow_witness :
  fst (clear_old_changes 7 (at_time 2024 3 15 12 0 0) sample_store) = Ok tt
  /\ forall e,
      fst (clear_old_changes 7 (at_time 1 1 3 9 10 0) sample_store) = Raise e ->
      exc_cls e = OverflowError.
Proof.
  assert (Rf : reachable_from 1000 sample_store).
  { unfold sample_store, on_moved, on_deleted, on_created.
    repeat (apply reachable_from_record;
            [|split; reflexivity|vm_compute; discriminate]).
    apply reachable_from_empty. }
  split.
  - apply (clear_old_changes_raises_only_overflow 7 (at_time 2024 3 15 12 0 0)
             sample_store Rf).
    + split; reflexivity.
    + reflexivity.
    + vm_compute. discriminate.
  - intros e He.
    apply (clear_old_changes_raises_only_overflow 7 (at_time 1 1 3 9 10 0)
             sample_store Rf); [split; reflexivity|exact He].
Defined.

Lemma filter_none {A : Type} (q : A -> bool) (l : list A) :
  (forall x, In x l -> q x = false) -> filter q l = [].
Proof.
  induction l as [|x l IH]; intros H; cbn [filter]; [reflexivity|].
  rewrite (H x (or_introl eq_refl)). apply IH. intros y Hy. apply H. now right.
Qed.

Lemma filter_all_records_dropped (p : string * list ChangeRecord -> bool)
  (q : ChangeRecord -> bool) (s : store) :
  (forall b, In b s -> p b = false -> forall c, In c (snd b) -> q c = false) ->
  filter q (all_records (filter p s)) = filter q (all_records s).
Proof.
  unfold all_records.
  induction s as [|b s IH]; intros H; cbn [filter map List.concat];
    [reflexivity|].
  assert (IH' := IH (fun b' Hb' => H b' (or_intror Hb'))).
  destruct (p b) eqn:Ep; cbn [map List.concat].
  - now rewrite !filter_app, IH'.
  - rewrite filter_app, IH'.
    now rewrite (filter_none q (snd b) (H b (or_introl eq_refl) Ep)).
Qed.

(** The records of a bucket of a recorder-built store are of the bucket's
    day. *)
Lemma reachable_bucket_day (s : store) (d : date) (l : list ChangeRecord)
  (c : ChangeRecord) :
  reachable s -> valid_date d -> In (key_of_date d, l) s -> In c l ->
  dt_date (timestamp c) = d.
Proof.
  intros R Vd Hb Hc.
  destruct (reachable_inv s R) as [[_ Hkey] _].
  assert (Vc : valid_datetime (timestamp c)).
  { apply (reachable_valid s R). apply In_all_records.
    now exists (key_of_date d), l. }
  apply (date_key_inj (timestamp c) (mkdatetime d midnight));
    [exact (proj1 Vc)|exact Vd|].
  exact (Hkey _ _ _ Hb Hc).
Qed.

(** X5. Clearing takes nothing from the next report while the watermark is
    recent: on a recorder-built store, when the day of [last_report_time] is
    after the day [days_to_keep] days before today (with the main loop's 7
    days: the last report was today or on one of the 6 days before), the
    changes since the last report are the same list before and after
    [clear_old_changes], whether it returns or raises. *)
Theorem clear_old_changes_keeps_unreported
  (days_to_keep : Z) (now last_report : datetime) (s : store) :
  reachable s -> valid_datetime now -> valid_date (dt_date last_report) ->
  toordinal (dt_date now) - days_to_keep < toordinal (dt_date last_report) ->
  get_changes_since_last_report last_report
    (snd (clear_old_changes days_to_keep now s))
  = get_changes_since_last_report last_report s.
Proof.
  intros R [Vd Vt] Vw Hrecent.
  pose proof (clear_old_changes_cases days_to_keep now s) as H.
  destruct (clear_old_changes days_to_keep now s) as [[[]|e] s']; cbn [snd];
    [|now subst s'].
  destruct H as [cutoff_date [Hc ->]].
  destruct (cutoff_ok_inv _ _ _ Vt Hc) as [_ [Ho ->]].
  rewrite !get_changes_filter. f_equal.
  apply filter_all_records_dropped. intros [k l] Hb Hdrop c Hcl.
  cbn [snd] in Hcl. unfold keeps in Hdrop. cbn [fst] in Hdrop.
  apply negb_false_iff in Hdrop.
  destruct (proj2 (reachable_inv s R) k l Hb) as [d [Vday ->]].
  apply (expired_key_of_date _ d _ Vday Vt) in Hdrop.
  pose proof (reachable_bucket_day s d l c R Vday Hb Hcl) as Hday.
  pose proof (fromordinal_spec _ Ho) as [Vf Hf].
  assert (toordinal d <= toordinal (dt_date now) - days_to_keep) as Hle.
  { destruct Hdrop as [Hlt|[-> _]]; [|lia].
    apply (toordinal_lt_iff _ _ Vday Vf) in Hlt. lia. }
  assert (date_lt d (dt_date last_report)) as Hlt
    by (apply (toordinal_lt_iff _ _ Vday Vw); lia).
  destruct (newer_than last_report c) eqn:En; [|reflexivity].
  apply newer_than_iff in En.
  assert (dt_lt (timestamp c) last_report) as Hlt'
    by (apply dt_lt_iff; left; now rewrite Hday).
  apply dt_lt_le in Hlt'. now apply dt_le_not_lt in Hlt'.
Qed.

Lemma clear_old_changes_keeps_unreported_witness :
  get_changes_since_last_report (at_time 2024 3 6 0 0 0)
    (snd (clear_old_changes 7 (at_time 2024 3 12 12 0 0) sample_store))
  = get_changes_since_last_report (at_time 2024 3 6 0 0 0) sample_store.
Proof.
  apply (clear_old_changes_keeps_unreported 7 (at_time 2024 3 12 12 0 0)
           (at_time 2024 3 6 0 0 0) sample_store sample_store_reachable).
  - split; reflexivity.
  - reflexivity.
  - vm_compute. reflexivity.
Defined.

(** ** A recorded change in the next report *)

Lemma all_records_cons (k : string) (l : list ChangeRecord) (s : store) :
  all_records ((k, l) :: s) = l ++ all_records s.
Proof. reflexivity. Qed.

Lemma store_inv_tail (b : string * list ChangeRecord) (s : store) :
  store_inv (b :: s) -> store_inv s.
Proof.
  intros [Hnd Hkey]. split.
  - now inversion Hnd.
  - intros k l c Hb. apply Hkey. now right.
Qed.

Lemma filter_same_time_dict_append (t : datetime) (c : ChangeRecord)
  (s : store) :
  store_inv s ->
  filter (same_time t) (all_records (dict_append (date_key (timestamp c)) c s))
  = filter (same_time t) (all_records s) ++ filter (same_time t) [c].
Proof.
  induction s as [|[k l] s IH]; intros Hinv.
  - cbn [dict_append]. rewrite all_records_cons.
    change (all_records []) with (@nil ChangeRecord).
    now rewrite app_nil_r.
  - cbn [dict_append]. destruct (String.eqb k (date_key (timestamp c))) eqn:E.
    + apply String.eqb_eq in E. subst k. rewrite !all_records_cons.
      rewrite !filter_app, <- !app_assoc. f_equal.
      destruct (same_time t c) eqn:Et; cbn [filter]; rewrite Et;
        [|now rewrite app_nil_r].
      apply same_time_iff in Et.
      rewrite (filter_none (same_time t) (all_records s));
        [now rewrite app_nil_r|].
      intros c' Hc'. destruct (same_time t c') eqn:Et'; [|reflexivity].
      apply same_time_iff in Et'. apply In_all_records in Hc' as [k' [l' [Hb Hc']]].
      destruct Hinv as [Hnd Hkey].
      assert (date_key (timestamp c') = k') as Hk'
        by (apply (Hkey k' l' c'); [now right|exact Hc']).
      inversion Hnd as [|? ? Hnotin _]. elim Hnotin.
      apply in_map_iff. exists (k', l'). split; [|exact Hb].
      cbn [fst]. rewrite <- Hk'. now rewrite Et', <- Et.
    + rewrite !all_records_cons, !filter_app, <- app_assoc. f_equal.
      apply IH. now apply store_inv_tail in Hinv.
Qed.

Lemma StronglySorted_snoc {A : Type} (R : A -> A -> Prop) (l : list A) (x : A) :
  StronglySorted R l -> (forall y, In y l -> R y x) ->
  StronglySorted R (l ++ [x]).
Proof.
  induction 1 as [|y l Hs IH Hy]; intros H; cbn [app].
  - repeat constructor.
  - constructor.
    + apply IH. intros z Hz. apply H. now right.
    + apply Forall_app. split; [exact Hy|].
      constructor; [|constructor]. apply H. now left.
Qed.

Lemma get_changes_record (now last_report : datetime) (et p : string)
  (dir : bool) (op : option string) (s : store) :
  store_inv s ->
  (forall c, In c (all_records s) -> dt_le (timestamp c) now) ->
  get_changes_since_last_report last_report
    (_record_change now et p dir op s)
  = if dt_ltb last_report now
    then get_changes_since_last_report last_report s
         ++ [mkChangeRecord now et p dir op]
    else get_changes_since_last_report last_report s.
Proof.
  intros Hinv Hle. unfold _record_change.
  set (c := mkChangeRecord now et p dir op).
  rewrite !get_changes_filter.
  assert (Hsame : forall t,
             filter (same_time t)
               (filter (newer_than last_report)
                  (all_records (dict_append (date_key (timestamp c)) c s)))
             = filter (same_time t)
                 (filter (newer_than last_report) (all_records s))
               ++ filter (same_time t) (filter (newer_than last_report) [c])).
  { intros t. rewrite filter_comm, (filter_same_time_dict_append t c s Hinv).
    rewrite filter_app. now rewrite !(filter_comm (newer_than last_report)). }
  assert (Hc : newer_than last_report c = dt_ltb last_report now).
  { unfold newer_than. cbn [timestamp c].
    destruct (dt_ltb last_report now) eqn:E.
    - apply dt_gtb_iff. now apply dt_ltb_iff.
    - destruct (dt_gtb now last_report) eqn:E'; [|reflexivity].
      apply dt_gtb_iff, dt_ltb_iff in E'. congruence. }
  symmetry. apply stable_sort_is_sorted_by_timestamp.
  - destruct (dt_ltb last_report now).
    + apply StronglySorted_snoc; [apply sorted_by_timestamp_sorted|].
      intros y Hy. apply (Permutation_in _ (sorted_by_timestamp_perm _)) in Hy.
      apply filter_In in Hy as [Hy _]. exact (Hle y Hy).
    + apply sorted_by_timestamp_sorted.
  - intros t. rewrite Hsame. cbn [filter]. rewrite Hc.
    destruct (dt_ltb last_report now).
    + now rewrite filter_app, sorted_by_timestamp_stable.
    + cbn [filter]. now rewrite app_nil_r, sorted_by_timestamp_stable.
Qed.

Lemma get_changes_dispatch (last_report : datetime) (n : notification)
  (s : store) :
  store_inv s ->
  (forall c, In c (all_records s) -> dt_le (timestamp c) (n_now n)) ->
  get_changes_since_last_report last_report (dispatch n s)
  = get_changes_since_last_report last_report s
    ++ (if dt_ltb last_report (n_now n) then records_of n else []).
Proof.
  intros Hinv Hle.
  unfold dispatch, records_of, on_created, on_modified, on_deleted, on_moved.
  destruct (n_callback n);
    try (rewrite (get_changes_record _ _ _ _ _ _ _ Hinv Hle);
         destruct (dt_ltb last_report (n_now n));
         [reflexivity|now rewrite app_nil_r]).
  destruct (ev_is_directory (n_event n)); cbn [negb].
  - destruct (dt_ltb last_report (n_now n)); now rewrite app_nil_r.
  - rewrite (get_changes_record _ _ _ _ _ _ _ Hinv Hle).
    destruct (dt_ltb last_report (n_now n));
      [reflexivity|now rewrite app_nil_r].
Qed.

(** X6. A new record is the last change of the next report: recording an
    event at a clock reading that no stored timestamp exceeds adds the new
    record at the end of the changes since [last_report_time] when the
    reading is after [last_report_time], and leaves that list as it was
    otherwise (a record stamped exactly [last_report_time] is in no later
    report); the records with the same timestamp come before it, so changes
    are listed in the order they were recorded.  So it is for the four
    callbacks, a modified directory adding nothing. *)
Theorem recorded_change_is_reported_last
  (now last_report : datetime) (s : store) :
  store_inv s ->
  (forall c, In c (all_records s) -> dt_le (timestamp c) now) ->
  (forall et p dir op,
      get_changes_since_last_report last_report
        (_record_change now et p dir op s)
      = if dt_ltb last_report now
        then get_changes_since_last_report last_report s
             ++ [mkChangeRecord now et p dir op]
        else get_changes_since_last_report last_report s)
  /\ (forall n,
         n_now n = now ->
         get_changes_since_last_report last_report (dispatch n s)
         = get_changes_since_last_report last_report s
           ++ (if dt_ltb last_report now then records_of n else [])).
Proof.
  intros Hinv Hle. split.
  - intros et p dir op. now apply get_changes_record.
  - intros n <-. now apply get_changes_dispatch.
Qed.

Lemma recorded_change_is_reported_last_witness :
  get_changes_since_last_report (at_time 2024 3 5 9 30 0)
    (_record_change (at_time 2024 3 6 1 2 0) "modified" "/a/b.txt" false None
       sample_store)
  = get_changes_since_last_report (at_time 2024 3 5 9 30 0) sample_store
    ++ [mkChangeRecord (at_time 2024 3 6 1 2 0) "modified" "/a/b.txt" false None].
Proof.
  apply (recorded_change_is_reported_last (at_time 2024 3 6 1 2 0)
           (at_time 2024 3 5 9 30 0) sample_store).
  - exact (proj1 (reachable_inv sample_store sample_store_reachable)).
  - intros c Hc. vm_compute in Hc.
    destruct Hc as [<-|[<-|[<-|[]]]]; vm_compute; discriminate.
Defined.

(** ** The report of an empty window *)

Lemma get_changes_none (t : datetime) (s : store) :
  (forall c, In c (all_records s) -> dt_le (timestamp c) t) ->
  get_changes_since_last_report t s = [].
Proof.
  intros H. rewrite get_changes_filter, filter_none; [reflexivity|].
  intros c Hc. destruct (newer_than t c) eqn:E; [|reflexivity].
  apply newer_than_iff in E. now apply (proj1 (dt_le_not_lt _ _) (H c Hc)) in E.
Qed.

(** X7. The report of an empty window: when no stored record has a
    timestamp after [last_report_time] (an empty store, or every record
    already reported), the report is its three head lines, the line
    "変化なし" and the closing rule, and nothing else; a call that the console
    takes prints them and moves [last_report_time] to the clock reading it
    took.  When that reading is not before the old [last_report_time], there
    is again no record after the new one: until an event is recorded every
    further report is the empty one. *)
Theorem _generate_report_empty_window (console : string -> option exn)
  (current_time : datetime) (st : state) :
  (forall c, In c (all_records (changes st)) ->
             dt_le (timestamp c) (last_report_time st)) ->
  report_of current_time st
  = [nl +++ str_mul "=" 70;
     "【定時レポート】 " +++ strftime "%Y年%m月%d日 %H:%M" current_time;
     str_mul "=" 70;
     "変化なし";
     str_mul "=" 70]
  /\ (accepts console (report_of current_time st) ->
      _generate_report console current_time st
      = (Done tt,
         set_last_report_time current_time
           (printed (report_of current_time st) st)))
  /\ (dt_le (last_report_time st) current_time ->
      forall c,
        In c (all_records
                (changes (snd (_generate_report console current_time st)))) ->
        dt_le (timestamp c)
          (last_report_time (snd (_generate_report console current_time st)))).
Proof.
  intros H. split; [|split].
  - unfold report_of. now rewrite (get_changes_none _ _ H).
  - apply _generate_report_ok.
  - intros Hle c Hc.
    pose proof (_generate_report_cases console current_time st) as Hcases.
    destruct (_generate_report console current_time st) as [[[]|e|] st'];
      cbn [snd] in *.
    + destruct Hcases as [_ ->]. cbn [last_report_time set_last_report_time].
      cbn [changes set_last_report_time printed] in Hc.
      exact (dt_le_trans _ _ _ (H c Hc) Hle).
    + destruct Hcases as [before [line [after [_ [_ [_ ->]]]]]].
      cbn [last_report_time changes printed] in *. exact (H c Hc).
    + destruct Hcases.
Qed.

Lemma _generate_report_empty_window_witness :
  stdout
    (snd (_generate_report open_console (at_time 2024 3 6 10 0 0)
            (set_last_report_time (at_time 2024 3 6 6 0 0) sample_state)))
  = [nl +++ str_mul "=" 70;
     "【定時レポート】 2024年03月06日 10:00";
     str_mul "=" 70;
     "変化なし";
     str_mul "=" 70].
Proof.
  assert (H : forall c,
             In c (all_records
                     (changes (set_last_report_time (at_time 2024 3 6 6 0 0)
                                 sample_state))) ->
             dt_le (timestamp c)
               (last_report_time
                  (set_last_report_time (at_time 2024 3 6 6 0 0) sample_state))).
  { intros c Hc. vm_compute in Hc.
    destruct Hc as [<-|[<-|[<-|[]]]]; vm_compute; discriminate. }
  destruct (_generate_report_empty_window open_console (at_time 2024 3 6 10 0 0)
              (set_last_report_time (at_time 2024 3 6 6 0 0) sample_state) H)
    as [Hlines [Hrun _]].
  rewrite Hrun.
  - cbn [snd stdout set_last_report_time printed]. rewrite Hlines. reflexivity.
  - rewrite Hlines. repeat constructor.
Defined.

(** ** The main loop does housekeeping only *)

Lemma subseq_trans {A : Type} (l1 l2 l3 : list A) :
  subseq l1 l2 -> subseq l2 l3 -> subseq l1 l3.
Proof.
  intros H12 H23. revert l1 H12.
  induction H23 as [|x l2 l3 H23 IH|x l2 l3 H23 IH]; intros l1 H12.
  - exact H12.
  - apply subseq_skip. now apply IH.
  - inversion H12; subst.
    + apply subseq_skip. now apply IH.
    + apply subseq_keep. now apply IH.
Qed.

Lemma subseq_clear_old_changes (days_to_keep : Z) (now : datetime) (s : store) :
  subseq (snd (clear_old_changes days_to_keep now s)) s.
Proof.
  pose proof (clear_old_changes_cases days_to_keep now s) as H.
  destruct (clear_old_changes days_to_keep now s) as [[[]|e] s']; cbn [snd].
  - destruct H as [cutoff_date [_ ->]]. apply filter_subseq.
  - subst s'. apply subseq_refl.
Qed.

Section Housekeeping.

Variable console : string -> option exn.

Lemma housekeeping_refl (st : state) : housekeeping_only st st.
Proof.
  repeat split; try reflexivity; [apply subseq_refl|].
  exists []. split; [now rewrite app_nil_r|constructor].
Qed.

Lemma housekeeping_trans (st1 st2 st3 : state) :
  housekeeping_only st1 st2 -> housekeeping_only st2 st3 ->
  housekeeping_only st1 st3.
Proof.
  intros (S1 & L1 & R1 & O1 & T1 & E1 & lines1 & P1 & F1)
         (S2 & L2 & R2 & O2 & T2 & E2 & lines2 & P2 & F2).
  repeat split; try congruence.
  - exact (subseq_trans _ _ _ S2 S1).
  - exists (lines1 ++ lines2). split.
    + now rewrite P2, P1, app_assoc.
    + apply Forall_app. now split.
Qed.

Lemma housekeeping_ret {A : Type} (a : A) : does_housekeeping (ret a).
Proof. intros st. apply housekeeping_refl. Qed.

Lemma housekeeping_raise {A : Type} (e : exn) : does_housekeeping (@raise A e).
Proof. intros st. apply housekeeping_refl. Qed.

Lemma housekeeping_pending {A : Type} : does_housekeeping (@pending A).
Proof. intros st. apply housekeeping_refl. Qed.

Lemma housekeeping_gets {A : Type} (f : state -> A) : does_housekeeping (gets f).
Proof. intros st. apply housekeeping_refl. Qed.

Lemma housekeeping_bind {A B : Type} (m : M A) (k : A -> M B) :
  does_housekeeping m -> (forall a, does_housekeeping (k a)) ->
  does_housekeeping (bind m k).
Proof.
  intros Hm Hk st. unfold bind. specialize (Hm st).
  destruct (m st) as [[a|e|] st']; cbn [snd] in *; [|exact Hm|exact Hm].
  exact (housekeeping_trans _ _ _ Hm (Hk a st')).
Qed.

Lemma housekeeping_print (line : string) :
  In line connection_lines -> does_housekeeping (print console line).
Proof.
  intros Hin st. unfold print.
  destruct (console line); cbn [snd]; [apply housekeeping_refl|].
  repeat split; try reflexivity; [apply subseq_refl|].
  exists [line]. split; [reflexivity|]. now constructor.
Qed.

Lemma housekeeping_run_clear_old_changes (now : datetime) :
  does_housekeeping (run_clear_old_changes now).
Proof.
  intros st. unfold run_clear_old_changes.
  pose proof (subseq_clear_old_changes 7 now (changes st)) as Hs.
  destruct (clear_old_changes 7 now (changes st)) as [[[]|e] s'];
    cbn [snd] in *;
    (repeat split; try reflexivity; [exact Hs|];
     exists []; split; [cbn; now rewrite app_nil_r|constructor]).
Qed.

Lemma housekeeping_main_loop (turns : list main_turn) :
  does_housekeeping (_main_loop console turns).
Proof.
  induction turns as [|turn turns IH].
  - intros st. cbn [_main_loop]. destruct (running st); apply housekeeping_refl.
  - cbn [_main_loop]. apply housekeeping_bind; [apply housekeeping_gets|].
    intros r. destruct (negb r); [apply housekeeping_ret|].
    apply housekeeping_bind.
    { destruct (negb (path_exists turn)); [|apply housekeeping_ret].
      apply housekeeping_bind;
        [apply housekeeping_print; cbn; auto|intros _].
      apply housekeeping_bind;
        [apply housekeeping_print; cbn; auto|intros _].
      apply housekeeping_bind.
      { destruct (path_returns turn);
          [apply housekeeping_ret|apply housekeeping_pending]. }
      intros _. apply housekeeping_bind; [apply housekeeping_gets|].
      intros r'. destruct r';
        [apply housekeeping_print; cbn; auto|apply housekeeping_ret]. }
    intros _. apply housekeeping_bind;
      [apply housekeeping_run_clear_old_changes|].
    intros _. apply housekeeping_bind; [|intros _; exact IH].
    destruct (interrupted turn);
      [apply housekeeping_raise|apply housekeeping_ret].
Qed.

End Housekeeping.

(** X8. The main loop does housekeeping only: over any turns, however
    they end (the loop still turning, an exception from clearing, an
    interrupt in the sleep), the store after them is the store before them
    with whole buckets left out, in the same order; [last_report_time], the
    running flag, the observer, the report thread and [stderr] are as they
    were; and the only lines printed are the three about the lost and
    recovered connection to the watched path.  Every record of the store
    after the turns was in the store before them. *)
Theorem _main_loop_does_housekeeping_only (console : string -> option exn)
  (turns : list main_turn) (st : state) :
  housekeeping_only st (snd (_main_loop console turns st))
  /\ forall c,
      In c (all_records (changes (snd (_main_loop console turns st)))) ->
      In c (all_records (changes st)).
Proof.
  pose proof (housekeeping_main_loop console turns st) as H.
  split; [exact H|].
  destruct H as [Hs _]. revert Hs.
  generalize (changes (snd (_main_loop console turns st))) (changes st).
  intros s' s Hs. induction Hs as [|b s' s Hs IH|b s' s Hs IH]; intros c Hc.
  - exact Hc.
  - destruct b as [k l]. rewrite all_records_cons. apply in_or_app. right.
    now apply IH.
  - destruct b as [k l]. rewrite all_records_cons in *.
    apply in_app_or in Hc as [Hc|Hc]; apply in_or_app; [now left|right].
    now apply IH.
Qed.

(** ** [main] leaves the monitor off *)

Section OnAndOff.

Variable console : string -> option exn.

Lemma same_monitoring_on (st st' : state) :
  same_monitoring st st' -> monitor_on st -> monitor_on st'.
Proof. intros [Hr Ho] [H1 H2]. split; congruence. Qed.

Lemma same_monitoring_off (st st' : state) :
  same_monitoring st st' -> monitor_off st -> monitor_off st'.
Proof. intros [Hr Ho] [H1 H2]. split; congruence. Qed.

Lemma stop_off (st : state) :
  monitor_on st \/ monitor_off st ->
  fst (stop console st) <> Pending /\ monitor_off (snd (stop console st)).
Proof.
  intros H. unfold stop, bind, gets, modify, ret.
  destruct (running st) eqn:Hr; cbn [negb].
  - cbn [observer set_running]. unfold print.
    destruct (observer st) as [o|] eqn:Ho;
      destruct (console "ファイル監視を停止しました。"); cbn [fst snd];
      (split; [discriminate|]); (split; [reflexivity|]);
      cbn [observer write_stdout set_observer set_running]; rewrite ?Ho;
      discriminate.
  - cbn [fst snd]. split; [discriminate|].
    destruct H as [[Hon _]|Hoff]; [congruence|exact Hoff].
Qed.

Lemma print_not_pending (line : string) (st : state) :
  fst (print console line st) <> Pending.
Proof. unfold print. destruct (console line); discriminate. Qed.

Lemma start_setup_on (st : state) :
  monitor_on (snd (start_setup console st)).
Proof.
  unfold start_setup. unfold bind at 1. unfold modify at 1.
  unfold bind at 1. unfold modify at 1.
  match goal with
  | |- monitor_on (snd (?m ?st0)) =>
      assert (keeps_monitoring m) as Hk; [|apply (same_monitoring_on st0)]
  end.
  - repeat (apply keeps_bind; [apply keeps_print|intros _]).
    intros st'. split; reflexivity.
  - apply Hk.
  - split; reflexivity.
Qed.

Lemma try_except_finally_on_until_ended {A : Type} (body on_interrupt : M A)
  (on_exception : exn -> M A) (cleanup : M unit) (st : state) :
  monitor_on (snd (body st)) \/ on_until_ended (body st) ->
  keeps_monitoring on_interrupt ->
  (forall st', fst (on_interrupt st') <> Pending) ->
  (forall e, keeps_monitoring (on_exception e)) ->
  (forall e st', fst (on_exception e st') <> Pending) ->
  (forall st', monitor_on st' \/ monitor_off st' ->
               fst (cleanup st') <> Pending /\ monitor_off (snd (cleanup st'))) ->
  on_until_ended (try_except_finally body on_interrupt on_exception cleanup st).
Proof.
  intros Hbody Hi Hip He Hep Hc. unfold try_except_finally, on_until_ended in *.
  destruct (body st) as [[a|e|] st1]; cbn [fst snd] in *.
  - assert (monitor_on st1 \/ monitor_off st1) as H1 by tauto.
    destruct (Hc st1 H1) as [Hp Hoff].
    destruct (cleanup st1) as [[u|e'|] st2]; cbn [fst snd] in *;
      [exact Hoff|exact Hoff|now elim Hp].
  - assert (monitor_on st1 \/ monitor_off st1) as H1 by tauto.
    set (h := if is_Exception e then on_exception e st1 else on_interrupt st1).
    assert (fst h <> Pending /\ same_monitoring st1 (snd h)) as [Hp Hs].
    { unfold h. destruct (is_Exception e); split;
        [apply Hep|apply He|apply Hip|apply Hi]. }
    assert (monitor_on (snd h) \/ monitor_off (snd h)) as H2.
    { destruct H1; [left; now apply (same_monitoring_on st1)
                   |right; now apply (same_monitoring_off st1)]. }
    destruct h as [[a|e'|] st1']; cbn [fst snd] in *; [| |now elim Hp];
      destruct (Hc st1' H2) as [Hp' Hoff];
      destruct (cleanup st1') as [[u|e''|] st2]; cbn [fst snd] in *;
      solve [exact Hoff|now elim Hp'].
  - tauto.
Qed.

Lemma start_on_until_ended (path_exists_at_start : bool)
  (turns : list main_turn) (st : state) :
  monitor_off st -> on_until_ended (start console path_exists_at_start turns st).
Proof.
  intros Hoff. unfold start.
  destruct path_exists_at_start; cbn [negb].
  - unfold bind at 1. unfold gets at 1. rewrite (proj1 Hoff).
    unfold bind at 1.
    match goal with
    | |- on_until_ended
           match try_except_finally ?b ?i ?x ?c ?s with _ => _ end =>
        pose proof (try_except_finally_on_until_ended b i x c s) as H
    end.
    match type of H with
    | ?P -> _ => assert P as HP
    end.
    { left. unfold bind.
      pose proof (start_setup_on st) as Hon.
      destruct (start_setup console st) as [[u|e|] st0]; cbn [snd] in *;
        [|exact Hon|exact Hon].
      apply (same_monitoring_on st0); [apply keeps_main_loop|exact Hon]. }
    specialize (H HP (keeps_print console _) (print_not_pending _)
                  (fun e => keeps_print console _)
                  (fun e => print_not_pending _) stop_off).
    unfold on_until_ended in *.
    match goal with
    | |- context [try_except_finally ?b ?i ?x ?c ?s] =>
        destruct (try_except_finally b i x c s) as [[u|e|] st']
    end; cbn [fst snd] in *; exact H.
  - unfold bind, print, on_until_ended.
    destruct (console _); cbn [fst snd]; unfold ret; cbn [fst snd];
      destruct Hoff; split; assumption.
Qed.

End OnAndOff.

(** X9. [main] leaves the monitor off: whatever the console, the path and
    the main loop do, a run of [main] that has ended (returned, or raised)
    has [running] false and no observer running, also when [start] or one
    of its handlers raised, since [stop] is reached in [finally]; and while
    it has not ended the monitor is on ([running] true, the observer
    started). *)
Theorem main_leaves_monitor_off (console : string -> option exn)
  (now : datetime) (path_exists_at_start : bool) (turns : list main_turn) :
  match fst (main console now path_exists_at_start turns) with
  | Pending =>
      running (snd (main console now path_exists_at_start turns)) = true
      /\ observer (snd (main console now path_exists_at_start turns))
         = Some ObserverStarted
  | _ =>
      running (snd (main console now path_exists_at_start turns)) = false
      /\ observer (snd (main console now path_exists_at_start turns))
         <> Some ObserverStarted
  end.
Proof.
  change (on_until_ended (main console now path_exists_at_start turns)).
  unfold main. apply try_except_finally_on_until_ended.
  - right. unfold bind.
    pose proof (start_on_until_ended console path_exists_at_start turns
                  (FileMonitor_init now)) as H.
    unfold on_until_ended in *.
    destruct (start console path_exists_at_start turns (FileMonitor_init now))
      as [[b|e|] st']; cbn [fst snd] in *; apply H; split; cbn; congruence.
  - apply keeps_print.
  - apply print_not_pending.
  - intros e. apply keeps_raise.
  - intros e st'. discriminate.
  - apply stop_off.
Qed.

(** ** An exception in the main loop ends [main] in order *)

Lemma start_handles_main_loop_exception (console : string -> option exn)
  (turns : list main_turn) (st st0 st1 : state) (e : exn) :
  running st = false ->
  start_setup console st = (Done tt, st0) ->
  _main_loop console turns st0 = (Raised e, st1) ->
  console (handler_line e) = None ->
  console "ファイル監視を停止しました。" = None ->
  start console true turns st
  = (Done true,
     write_stdout "ファイル監視を停止しました。"
       (set_observer (Some ObserverStopped)
          (set_running false (write_stdout (handler_line e) st1)))).
Proof.
  intros Hrun Hsetup Hloop Hmsg Hstop.
  destruct (start_setup_done console st st0 Hsetup) as [Hr0 Ho0].
  pose proof (keeps_main_loop console turns st0) as Hk.
  rewrite Hloop in Hk. cbn [snd] in Hk. destruct Hk as [Hr1 Ho1].
  rewrite Hr0 in Hr1. rewrite Ho0 in Ho1.
  unfold start. cbn [negb]. unfold bind at 1, gets at 1. rewrite Hrun.
  unfold bind at 1. unfold try_except_finally.
  unfold bind at 1. rewrite Hsetup, Hloop.
  unfold handler_line in *.
  destruct (is_Exception e); unfold print at 1; rewrite Hmsg;
    rewrite (stop_running console _ ObserverStarted) by assumption;
    reflexivity.
Qed.

(** X10. An exception in the main loop ends [main] in order: when the main
    loop raises, be it [KeyboardInterrupt] (Ctrl-C in the sleep) or an
    [Exception] (clearing failed), and the console takes the two lines, then
    [main] returns normally; [start]'s handler has printed its line for the
    exception, [stop] has stopped the observer and printed its line once (the
    second [stop], in [main]'s [finally], finds [running] false and does
    nothing), and [main]'s own line for [KeyboardInterrupt] is not printed. *)
Theorem main_handles_main_loop_exception (console : string -> option exn)
  (now : datetime) (turns : list main_turn) (st0 st1 : state) (e : exn) :
  start_setup console (FileMonitor_init now) = (Done tt, st0) ->
  _main_loop console turns st0 = (Raised e, st1) ->
  accepts console [handler_line e; "ファイル監視を停止しました。"] ->
  exists st2,
    main console now true turns = (Done tt, st2)
    /\ running st2 = false
    /\ observer st2 = Some ObserverStopped
    /\ changes st2 = changes st1
    /\ stdout st2
       = stdout st1 ++ [handler_line e; "ファイル監視を停止しました。"].
Proof.
  intros Hsetup Hloop Hacc.
  inversion Hacc as [|? ? Hmsg Hacc']; subst.
  inversion Hacc' as [|? ? Hstop _]; subst.
  eexists. split.
  - unfold main, try_except_finally. unfold bind at 1.
    rewrite (start_handles_main_loop_exception console turns
               (FileMonitor_init now) st0 st1 e eq_refl Hsetup Hloop Hmsg Hstop).
    unfold ret, stop, bind, gets.
    cbn [running write_stdout set_observer set_running negb]. reflexivity.
  - cbn [running observer changes stdout write_stdout set_observer set_running].
    rewrite <- app_assoc. repeat split.
Qed.

Lemma main_handles_main_loop_exception_witness :
  exists st2,
    main open_console (at_time 2024 3 5 9 0 0) true
      [mkmain_turn true true (at_time 2024 3 5 9 5 0)
         (Some (mkexn KeyboardInterrupt ""))]
    = (Done tt, st2)
    /\ observer st2 = Some ObserverStopped
    /\ stdout st2
       = ["ファイル監視を開始しました: " +++ WATCH_PATH;
          "レポート時刻: 6:00, 10:00, 14:00, 17:00";
          "停止するには stop_monitor.bat を実行してください。";
          nl +++ "キーボード割り込みにより監視を停止します。";
          "ファイル監視を停止しました。"].
Proof.
  destruct (main_handles_main_loop_exception open_console
              (at_time 2024 3 5 9 0 0)
              [mkmain_turn true true (at_time 2024 3 5 9 5 0)
                 (Some (mkexn KeyboardInterrupt ""))]
              (snd (start_setup open_console
                      (FileMonitor_init (at_time 2024 3 5 9 0 0))))
              (snd (_main_loop open_console
                      [mkmain_turn true true (at_time 2024 3 5 9 5 0)
                         (Some (mkexn KeyboardInterrupt ""))]
                      (snd (start_setup open_console
                              (FileMonitor_init (at_time 2024 3 5 9 0 0))))))
              (mkexn KeyboardInterrupt ""))
    as (st2 & E & _ & Ho & _ & Hout).
  - reflexivity.
  - reflexivity.
  - repeat constructor.
  - exists st2. split; [exact E|]. split; [exact Ho|].
    rewrite Hout. reflexivity.
Defined.

(** ** The next report time between two report times *)

Lemma first_hour_after_cases (current_hour : Z) :
  first_hour_after REPORT_HOURS current_hour
  = if current_hour <? 6 then Some 6
    else if current_hour <? 10 then Some 10
    else if current_hour <? 14 then Some 14
    else if current_hour <? 17 then Some 17
    else None.
Proof. reflexivity. Qed.

Lemma time_le_hour (a b : time) : time_compare a b <> Gt -> hour a <= hour b.
Proof.
  unfold time_compare.
  destruct (Z.compare_spec (hour a) (hour b)); cbn [lexc]; intros Hgt; try lia.
  now elim Hgt.
Qed.

Lemma next_report_tomorrow (d : date) :
  valid_date d -> toordinal d < _MAXORDINAL ->
  (let? one_day := timedelta_days 1 in
   let? tomorrow := date_add d one_day in
   Ok (datetime_combine tomorrow (time_hm (nth 0 REPORT_HOURS 0) 0)))
  = Ok (datetime_combine (next_day d) (time_hm 6 0)).
Proof.
  intros Vd Hlt.
  change (timedelta_days 1) with (Ok (mktimedelta 1 0 0)). cbn [rbind].
  rewrite (date_add_one_day _ Vd).
  destruct (Z.ltb_spec (toordinal d) _MAXORDINAL); [reflexivity|lia].
Qed.

Lemma next_report_tomorrow_inv (d : date) (next : datetime) :
  valid_date d ->
  (let? one_day := timedelta_days 1 in
   let? tomorrow := date_add d one_day in
   Ok (datetime_combine tomorrow (time_hm (nth 0 REPORT_HOURS 0) 0)))
  = Ok next ->
  toordinal d < _MAXORDINAL
  /\ next = datetime_combine (next_day d) (time_hm 6 0).
Proof.
  intros Vd.
  change (timedelta_days 1) with (Ok (mktimedelta 1 0 0)). cbn [rbind].
  rewrite (date_add_one_day _ Vd).
  destruct (Z.ltb_spec (toordinal d) _MAXORDINAL); cbn [rbind];
    [|discriminate].
  intros E. inversion E. now split.
Qed.

Ltac hour_cases :=
  repeat match goal with
         | |- context [?a <? ?b] => destruct (Z.ltb_spec a b)
         | H : context [?a <? ?b] |- _ => destruct (Z.ltb_spec a b)
         end.

(** X11. Between two report times the next report time stands still: for a
    valid clock reading for which [_get_next_report_time] returns, the wait
    to the time returned is more than nothing and at most 13 hours (from
    17:00 to 06:00); for every reading from the current one up to, but not
    including, the time returned the function returns the same time; and at
    the time returned itself it returns a later one (or raises), so the
    time returned is never one at which the function says that the report is
    due. *)
Theorem _get_next_report_time_window (current_time next : datetime) :
  valid_datetime current_time ->
  _get_next_report_time current_time = Ok next ->
  0 < td_total_microseconds (datetime_diff next current_time) <= 46800000000
  /\ (forall t, valid_datetime t -> dt_le current_time t -> dt_lt t next ->
                _get_next_report_time t = Ok next)
  /\ (forall next', _get_next_report_time next = Ok next' -> dt_lt next next').
Proof.
  intros V En.
  destruct (_get_next_report_time_later _ _ V En) as [Vn Hlater].
  destruct V as [Vd Vt].
  pose proof (proj1 (valid_time_iff _) Vt) as Bt.
  pose proof (toordinal_bounds _ Vd) as Bd.
  unfold _get_next_report_time in En. cbv zeta in En.
  rewrite first_hour_after_cases in En.
  split; [|split].
  - unfold datetime_diff. rewrite td_total_of_microseconds.
    hour_cases;
      try (inversion En; subst next;
           unfold datetime_combine, time_hm, time_microseconds;
           cbn [dt_date dt_time hour minute second microsecond]; lia).
    apply (next_report_tomorrow_inv _ _ Vd) in En as [Hmax ->].
    unfold datetime_combine, next_day. cbn [dt_date dt_time].
    rewrite toordinal_fromordinal by lia.
    unfold time_hm, time_microseconds.
    cbn [hour minute second microsecond]. lia.
  - intros t [Vtd Vtt] Hle Hlt.
    pose proof (proj1 (valid_time_iff _) Vtt) as Btt.
    pose proof (time_le_hour (dt_time current_time) (dt_time t)) as Hh.
    apply dt_le_iff in Hle. apply dt_lt_iff in Hlt.
    rewrite (toordinal_lt_iff _ _ Vd Vtd) in Hle.
    rewrite (toordinal_lt_iff _ _ Vtd (proj1 Vn)) in Hlt.
    unfold _get_next_report_time. cbv zeta. rewrite first_hour_after_cases.
    destruct (Z.ltb_spec (hour (dt_time current_time)) 17) as [H17|H17].
    + assert (dt_date next = dt_date current_time
              /\ exists h, dt_time next = time_hm h 0
                           /\ hour (dt_time current_time) < h
                           /\ En = En) as (Edn & h & Etn & Hh' & _).
      { hour_cases; try lia; inversion En; subst next;
          (split; [reflexivity|]); eexists; (split; [reflexivity|]);
          (split; [lia|reflexivity]). }
      rewrite Edn in Hlt. rewrite Etn in Hlt.
      destruct Hle as [Hle|[Ed Hle]]; destruct Hlt as [Hlt|[Ed' Hlt]];
        try lia; try (rewrite Ed' in Hle; lia); try (rewrite Ed in Hlt; lia).
      apply (time_before_sharp _ _ Vtt) in Hlt. specialize (Hh Hle).
      rewrite <- Ed.
      hour_cases; try (exfalso; lia); inversion En; subst next;
        cbn [dt_time datetime_combine] in Etn; inversion Etn; subst h;
        try (exfalso; lia); reflexivity.
    + assert ((hour (dt_time current_time) <? 6) = false) as E6
          by (apply Z.ltb_ge; lia).
      assert ((hour (dt_time current_time) <? 10) = false) as E10
          by (apply Z.ltb_ge; lia).
      assert ((hour (dt_time current_time) <? 14) = false) as E14
          by (apply Z.ltb_ge; lia).
      rewrite E6, E10, E14 in En.
      apply (next_report_tomorrow_inv _ _ Vd) in En as [Hmax ->].
      cbn [dt_date dt_time datetime_combine] in Hlt.
      assert (toordinal (next_day (dt_date current_time))
              = toordinal (dt_date current_time) + 1) as Hord
          by (unfold next_day; apply toordinal_fromordinal; lia).
      rewrite Hord in Hlt.
      destruct Hle as [Hle|[Ed Hle]]; destruct Hlt as [Hlt|[Ed' Hlt]];
        try lia.
      * apply (time_before_sharp _ _ Vtt) in Hlt.
        hour_cases; try (exfalso; lia). now rewrite Ed'.
      * specialize (Hh Hle). rewrite <- Ed.
        hour_cases; try (exfalso; lia).
        now apply next_report_tomorrow.
      * exfalso. rewrite <- Ed in Ed'. rewrite <- Ed' in Hord. lia.
  - intros next' En'. exact (proj2 (_get_next_report_time_later _ _ Vn En')).
Qed.

Lemma _get_next_report_time_window_witness :
  _get_next_report_time (at_time 2024 3 5 17 0 0)
  = Ok (at_time 2024 3 6 6 0 0)
  /\ td_total_microseconds
       (datetime_diff (at_time 2024 3 6 6 0 0) (at_time 2024 3 5 17 0 0))
     = 46800000000
  /\ _get_next_report_time (at_time 2024 3 6 5 59 59)
     = Ok (at_time 2024 3 6 6 0 0).
Proof.
  assert (V : valid_datetime (at_time 2024 3 5 17 0 0)) by (split; reflexivity).
  assert (E : _get_next_report_time (at_time 2024 3 5 17 0 0)
              = Ok (at_time 2024 3 6 6 0 0)) by reflexivity.
  destruct (_get_next_report_time_window (at_time 2024 3 5 17 0 0)
              (at_time 2024 3 6 6 0 0) V E) as [_ [Hstill _]].
  split; [exact E|]. split; [reflexivity|].
  apply Hstill.
  - split; reflexivity.
  - vm_compute. discriminate.
  - reflexivity.
Defined.

(** ** Every change is reported once *)

Lemma records_of_time (n : notification) (c : ChangeRecord) :
  In c (records_of n) -> timestamp c = n_now n.
Proof.
  unfold records_of.
  destruct (n_callback n); try (intros [<-|[]]; reflexivity).
  destruct (ev_is_directory (n_event n)); [intros []|].
  intros [<-|[]]; reflexivity.
Qed.

Lemma store_inv_dispatch (n : notification) (s : store) :
  store_inv s -> store_inv (dispatch n s).
Proof.
  intros H. unfold dispatch, on_created, on_modified, on_deleted, on_moved.
  destruct (n_callback n); try now apply store_inv_record.
  destruct (negb (ev_is_directory (n_event n))); [|exact H].
  now apply store_inv_record.
Qed.

Lemma reports_from (console : string -> option exn) (actions : list action) :
  (forall line, console line = None) ->
  forall (st : state) (last : datetime),
    store_inv (changes st) ->
    (forall c, In c (all_records (changes st)) -> dt_le (timestamp c) last) ->
    dt_le (last_report_time st) last ->
    StronglySorted dt_lt (last :: map action_time actions) ->
    List.concat (map snd (reports console actions st))
      ++ get_changes_since_last_report
           (last_report_time (run console actions st))
           (changes (run console actions st))
    = get_changes_since_last_report (last_report_time st) (changes st)
      ++ recorded actions
    /\ stdout (run console actions st)
       = stdout st
         ++ flat_map (fun r => report_lines (fst r) (snd r))
              (reports console actions st).
Proof.
  intros Hc.
  induction actions as [|a actions IH]; intros st last Hinv Hle Hw Hs.
  - cbn. now rewrite !app_nil_r.
  - cbn [map] in Hs. inversion Hs as [|? ? Hs' Hall]; subst.
    inversion Hall as [|? ? Hlt _]; subst.
    assert (StronglySorted dt_lt (action_time a :: map action_time actions))
      as Hs'' by exact Hs'.
    destruct a as [n|t]; cbn [action_time] in *.
    + assert (forall c, In c (all_records (changes st)) ->
                        dt_le (timestamp c) (n_now n)) as Hle'.
      { intros c Hcin.
        exact (dt_le_trans _ _ _ (Hle c Hcin) (dt_lt_le _ _ Hlt)). }
      pose proof (get_changes_dispatch (last_report_time st) n (changes st)
                    Hinv Hle') as Hg.
      assert (dt_ltb (last_report_time st) (n_now n) = true) as Hltb.
      { apply dt_ltb_iff. exact (dt_le_lt_trans _ _ _ Hw Hlt). }
      rewrite Hltb in Hg.
      destruct (IH (act console (Notify n) st) (n_now n)) as [IH1 IH2].
      * cbn [act changes set_changes]. now apply store_inv_dispatch.
      * cbn [act changes set_changes]. intros c Hcin.
        apply (Permutation_in _ (all_records_dispatch n (changes st))) in Hcin.
        apply in_app_or in Hcin as [Hcin|Hcin]; [now apply Hle'|].
        rewrite (records_of_time n c Hcin). apply dt_le_refl.
      * cbn [act last_report_time set_changes].
        exact (dt_le_trans _ _ _ Hw (dt_lt_le _ _ Hlt)).
      * exact Hs''.
      * cbn [run fold_left reports recorded flat_map].
        change (fold_left (fun st a => act console a st) actions
                  (act console (Notify n) st))
          with (run console actions (act console (Notify n) st)).
        split.
        -- rewrite IH1. cbn [act last_report_time changes set_changes].
           rewrite Hg. now rewrite <- app_assoc.
        -- rewrite IH2. reflexivity.
    + assert (accepts console (report_of t st)) as Hacc.
      { apply Forall_forall. intros line _. apply Hc. }
      pose proof (_generate_report_ok console t st Hacc) as Hrun.
      assert (act console (Report t) st
              = set_last_report_time t (printed (report_of t st) st)) as Hact
          by (cbn [act]; now rewrite Hrun).
      assert (forall c, In c (all_records (changes st)) ->
                        dt_le (timestamp c) t) as Hle'.
      { intros c Hcin.
        exact (dt_le_trans _ _ _ (Hle c Hcin) (dt_lt_le _ _ Hlt)). }
      destruct (IH (act console (Report t) st) t) as [IH1 IH2].
      * now rewrite Hact.
      * now rewrite Hact.
      * rewrite Hact. apply dt_le_refl.
      * exact Hs''.
      * cbn [run fold_left reports recorded flat_map map List.concat fst snd].
        change (fold_left (fun st a => act console a st) actions
                  (act console (Report t) st))
          with (run console actions (act console (Report t) st)).
        change (flat_map
                  (fun a => match a with
                            | Notify n => records_of n
                            | Report _ => []
                            end) actions)
          with (recorded actions).
        split.
        -- rewrite <- app_assoc, IH1. rewrite Hact.
           cbn [last_report_time changes set_last_report_time printed].
           rewrite (get_changes_none t (changes st) Hle'). reflexivity.
        -- rewrite IH2. rewrite Hact.
           cbn [stdout set_last_report_time printed].
           unfold report_of. now rewrite <- app_assoc.
Qed.

(** X12. Every change is reported once, in the order of recording: when
    notifications are recorded and reports generated one after the other on
    a monitor started at [now], each at a clock reading after the one
    before and after [now], and the console takes every line, then the
    change lists of the reports, one after the other, followed by the
    changes a next report would show, are the records of the notifications
    in the order they came (none for a modified directory): no record is
    left out, none is in two reports; and [stdout] holds the text of these
    reports and nothing else. *)
Theorem every_change_is_reported_once (console : string -> option exn)
  (now : datetime) (actions : list action) :
  (forall line, console line = None) ->
  StronglySorted dt_lt (now :: map action_time actions) ->
  List.concat (map snd (reports console actions (FileMonitor_init now)))
    ++ get_changes_since_last_report
         (last_report_time (run console actions (FileMonitor_init now)))
         (changes (run console actions (FileMonitor_init now)))
  = recorded actions
  /\ stdout (run console actions (FileMonitor_init now))
     = flat_map (fun r => report_lines (fst r) (snd r))
         (reports console actions (FileMonitor_init now)).
Proof.
  intros Hc Hs.
  destruct (reports_from console actions Hc (FileMonitor_init now) now)
    as [H1 H2].
  - split; [constructor|]. intros k l c [].
  - intros c [].
  - apply dt_le_refl.
  - exact Hs.
  - split; [exact H1|exact H2].
Qed.

Lemma every_change_is_reported_once_witness :
  map (fun r => map path (snd r))
    (reports open_console
       [Notify (mknotification (at_time 2024 3 5 9 30 0) Created ev_b);
        Report (at_time 2024 3 5 10 0 0);
        Notify (mknotification (at_time 2024 3 5 10 0 1) Deleted ev_c);
        Notify (mknotification (at_time 2024 3 6 1 2 0) Moved ev_move);
        Report (at_time 2024 3 6 6 0 0)]
       (FileMonitor_init (at_time 2024 3 5 9 0 0)))
  = [["/a/b.txt"]; ["/a/c.txt"; "/a/new.txt"]]
  /\ List.concat
       (map snd
          (reports open_console
             [Notify (mknotification (at_time 2024 3 5 9 30 0) Created ev_b);
              Report (at_time 2024 3 5 10 0 0);
              Notify (mknotification (at_time 2024 3 5 10 0 1) Deleted ev_c);
              Notify (mknotification (at_time 2024 3 6 1 2 0) Moved ev_move);
              Report (at_time 2024 3 6 6 0 0)]
             (FileMonitor_init (at_time 2024 3 5 9 0 0))))
       ++ get_changes_since_last_report
            (last_report_time
               (run open_console
                  [Notify (mknotification (at_time 2024 3 5 9 30 0) Created ev_b);
                   Report (at_time 2024 3 5 10 0 0);
                   Notify (mknotification (at_time 2024 3 5 10 0 1) Deleted ev_c);
                   Notify (mknotification (at_time 2024 3 6 1 2 0) Moved ev_move);
                   Report (at_time 2024 3 6 6 0 0)]
                  (FileMonitor_init (at_time 2024 3 5 9 0 0))))
            (changes
               (run open_console
                  [Notify (mknotification (at_time 2024 3 5 9 30 0) Created ev_b);
                   Report (at_time 2024 3 5 10 0 0);
                   Notify (mknotification (at_time 2024 3 5 10 0 1) Deleted ev_c);
                   Notify (mknotification (at_time 2024 3 6 1 2 0) Moved ev_move);
                   Report (at_time 2024 3 6 6 0 0)]
                  (FileMonitor_init (at_time 2024 3 5 9 0 0))))
     = recorded
         [Notify (mknotification (at_time 2024 3 5 9 30 0) Created ev_b);
          Report (at_time 2024 3 5 10 0 0);
          Notify (mknotification (at_time 2024 3 5 10 0 1) Deleted ev_c);
          Notify (mknotification (at_time 2024 3 6 1 2 0) Moved ev_move);
          Report (at_time 2024 3 6 6 0 0)].
Proof.
  split; [vm_compute; reflexivity|].
  apply (every_change_is_reported_once open_console (at_time 2024 3 5 9 0 0)).
  - reflexivity.
  - repeat constructor.
Defined.

(** ** The main loop when the path is lost *)

Lemma printed_three (l1 l2 l3 : string) (st : state) :
  write_stdout l3 (write_stdout l2 (write_stdout l1 st))
  = printed [l1; l2; l3] st.
Proof.
  unfold write_stdout, printed. cbn [stdout observer changes last_report_time
                                      running report_thread stderr].
  now rewrite <- !app_assoc.
Qed.

Lemma printed_two (l1 l2 : string) (st : state) :
  write_stdout l2 (write_stdout l1 st) = printed [l1; l2] st.
Proof.
  unfold write_stdout, printed. cbn [stdout observer changes last_report_time
                                      running report_thread stderr].
  now rewrite <- !app_assoc.
Qed.

(** X17. The main loop when the path is lost: a turn of the running main
    loop that finds the watched path absent prints the warning and the
    waiting line and polls for the path; while the path stays away the loop
    does nothing else (the store is not cleared); when the path comes back,
    the loop prints that the connection is recovered and goes on, in the
    same turn, exactly as a turn that found the path present: the old
    records are cleared and the next turns follow, with no restart. *)
Theorem _main_loop_path_lost (console : string -> option exn)
  (turn : main_turn) (turns : list main_turn) (st : state) :
  running st = true ->
  path_exists turn = false ->
  accepts console connection_lines ->
  (path_returns turn = false ->
   _main_loop console (turn :: turns) st
   = (Pending,
      printed ["警告: 監視対象パスへの接続が切れています: " +++ WATCH_PATH;
               "接続復旧を待機中..."] st))
  /\ (path_returns turn = true ->
      _main_loop console (turn :: turns) st
      = _main_loop console
          (mkmain_turn true true (clear_now turn) (interrupted turn) :: turns)
          (printed connection_lines st)).
Proof.
  intros Hrun Hpath Hacc.
  unfold accepts in Hacc. rewrite Forall_forall in Hacc.
  assert (H1 : console ("警告: 監視対象パスへの接続が切れています: " +++ WATCH_PATH)
               = None) by (apply Hacc; left; reflexivity).
  assert (H2 : console "接続復旧を待機中..." = None)
    by (apply Hacc; right; left; reflexivity).
  assert (H3 : console "接続が復旧しました。監視を継続します。" = None)
    by (apply Hacc; right; right; left; reflexivity).
  split; intros Hret.
  - cbn [_main_loop]. unfold bind at 1, gets at 1. rewrite Hrun. cbn [negb].
    rewrite Hpath, Hret. cbn [negb].
    unfold bind at 1. unfold bind at 1. unfold print at 1. rewrite H1.
    unfold bind at 1. unfold print at 1. rewrite H2.
    unfold bind at 1. unfold pending at 1.
    now rewrite printed_two.
  - cbn [_main_loop]. unfold bind at 1, gets at 1. rewrite Hrun. cbn [negb].
    rewrite Hpath, Hret. cbn [negb].
    unfold bind at 1. unfold bind at 1. unfold print at 1. rewrite H1.
    unfold bind at 1. unfold print at 1. rewrite H2.
    unfold bind at 1. unfold ret at 1.
    unfold bind at 1. unfold gets at 1.
    cbn [running write_stdout]. rewrite Hrun.
    unfold print at 1. rewrite H3. rewrite printed_three.
    symmetry.
    unfold bind at 1, gets at 1. cbn [running printed]. rewrite Hrun.
    cbn [negb path_exists clear_now interrupted].
    unfold bind at 1. unfold ret at 1. reflexivity.
Qed.

Lemma _main_loop_path_lost_witness :
  _main_loop open_console
    [mkmain_turn false true (at_time 2024 3 15 12 0 0) None] monitoring_state
  = _main_loop open_console
      [mkmain_turn true true (at_time 2024 3 15 12 0 0) None]
      (printed connection_lines monitoring_state).
Proof.
  apply (_main_loop_path_lost open_console
           (mkmain_turn false true (at_time 2024 3 15 12 0 0) None) []
           monitoring_state).
  - reflexivity.
  - reflexivity.
  - repeat constructor.
  - reflexivity.
Defined.

(** ** The process manager *)

Lemma wait_for_exit_spec (E : MonitorManager.env) (n : nat) (pid : Z)
  (w : MonitorManager.world) :
  MonitorManager.wait_for_exit E n pid w
  = (Ok (match first_gone E pid (MonitorManager.polls w) n with
         | Some _ => true
         | None => false
         end),
     MonitorManager.mkworld (MonitorManager.pid_file w)
       (MonitorManager.stdout w) (MonitorManager.os_calls w)
       (match first_gone E pid (MonitorManager.polls w) n with
        | Some i => S i
        | None => (MonitorManager.polls w + n)%nat
        end)).
Proof.
  revert w. induction n as [|n IH]; intros [f out calls k];
    cbn [MonitorManager.wait_for_exit first_gone MonitorManager.polls
           MonitorManager.pid_file MonitorManager.stdout
           MonitorManager.os_calls].
  - unfold MonitorManager.ret. now rewrite Nat.add_0_r.
  - unfold MonitorManager.bind, MonitorManager._is_process_running,
      MonitorManager.add_poll.
    cbn [MonitorManager.polls MonitorManager.pid_file MonitorManager.stdout
           MonitorManager.os_calls].
    destruct (MonitorManager.pid_exists E k pid); cbn [negb].
    + rewrite IH.
      cbn [MonitorManager.polls MonitorManager.pid_file MonitorManager.stdout
             MonitorManager.os_calls].
      now rewrite Nat.add_succ_comm.
    + reflexivity.
Qed.

Lemma _get_running_pid_cases (E : MonitorManager.env)
  (w : MonitorManager.world) :
  snd (MonitorManager._get_running_pid E w) = w
  /\ (fst (MonitorManager._get_running_pid E w) = Ok (recorded_pid E w)
      \/ (recorded_pid E w = None
          /\ exists e, fst (MonitorManager._get_running_pid E w) = Raise e)).
Proof.
  unfold MonitorManager._get_running_pid, MonitorManager.try_except,
    MonitorManager.bind, MonitorManager.gets, MonitorManager.read_text,
    recorded_pid, MonitorManager.ret, MonitorManager.raise.
  destruct (MonitorManager.pid_file w) as [text|]; [|now split; [|left]].
  destruct (MonitorManager.read_error E) as [e|].
  - destruct (MonitorManager.is_ValueError e || MonitorManager.is_IOError e);
      cbn [fst snd]; split; auto. right. split; [reflexivity|now exists e].
  - destruct (MonitorManager.int_of_text E text) as [pid|e]; cbn [fst snd];
      [now split; [|left]|].
    destruct (MonitorManager.is_ValueError e || MonitorManager.is_IOError e);
      cbn [fst snd]; split; auto. right. split; [reflexivity|now exists e].
Qed.

Lemma _remove_pid_file_cases (E : MonitorManager.env)
  (w : MonitorManager.world) :
  (MonitorManager._remove_pid_file E w
   = (Ok tt, MonitorManager.set_pid_file None w)
   /\ (MonitorManager.pid_file w = None
       \/ MonitorManager.unlink_error E = None))
  \/ (MonitorManager.unlink_error E <> None
      /\ MonitorManager.pid_file w <> None
      /\ snd (MonitorManager._remove_pid_file E w) = w).
Proof.
  unfold MonitorManager._remove_pid_file, MonitorManager.try_except,
    MonitorManager.bind, MonitorManager.gets, MonitorManager.unlink,
    MonitorManager.ret.
  destruct w as [[text|] out calls k];
    cbn [MonitorManager.pid_file MonitorManager.set_pid_file
           MonitorManager.stdout MonitorManager.os_calls MonitorManager.polls].
  - destruct (MonitorManager.unlink_error E) as [e|]; [|left; auto].
    right. repeat split; try discriminate.
    now destruct (MonitorManager.is_IOError e).
  - left. auto.
Qed.

Lemma _remove_pid_file_ok (E : MonitorManager.env) (w : MonitorManager.world) :
  MonitorManager.unlink_error E = None ->
  MonitorManager._remove_pid_file E w
  = (Ok tt, MonitorManager.set_pid_file None w).
Proof.
  intros H. destruct (_remove_pid_file_cases E w) as [[Eq _]|[Hn _]];
    [exact Eq|now elim Hn].
Qed.

Lemma manager_print_ok (E : MonitorManager.env) (line : string)
  (w : MonitorManager.world) :
  MonitorManager.console E line = None ->
  MonitorManager.print E line w = (Ok tt, MonitorManager.write_stdout line w).
Proof. intros H. unfold MonitorManager.print. now rewrite H. Qed.

(** The call that asks a process to end, and the one that forces it. *)
Lemma stop_monitor_live (E : MonitorManager.env) (w : MonitorManager.world)
  (pid : Z) :
  recorded_pid E w = Some pid -> pid <> 0 ->
  MonitorManager.pid_exists E (MonitorManager.polls w) pid = true ->
  (forall n, MonitorManager.call_error E n = None) ->
  MonitorManager.unlink_error E = None ->
  (forall line, MonitorManager.console E line = None) ->
  MonitorManager.stop_monitor E w
  = (Ok true,
     MonitorManager.mkworld None
       (MonitorManager.stdout w
        ++ ["ファイル監視を停止しました (PID: " +++ str_of_int pid +++ ")"])
       (MonitorManager.os_calls w
        ++ (if MonitorManager.windows E then MonitorManager.Taskkill pid
            else MonitorManager.Kill pid MonitorManager.SIGTERM)
           :: match first_gone E pid (S (MonitorManager.polls w)) 10 with
              | Some _ => []
              | None =>
                  [if MonitorManager.windows E then MonitorManager.Taskkill pid
                   else MonitorManager.Kill pid MonitorManager.SIGKILL]
              end)
       (match first_gone E pid (S (MonitorManager.polls w)) 10 with
        | Some i => S i
        | None => (MonitorManager.polls w + 11)%nat
        end)).
Proof.
  intros Hpid Hnz Halive Hcall Hunlink Hconsole.
  destruct (_get_running_pid_cases E w) as [Hw [Hr|[Hn _]]];
    [|congruence].
  unfold MonitorManager.stop_monitor. unfold MonitorManager.bind at 1.
  destruct (MonitorManager._get_running_pid E w) as [r w0].
  cbn [fst snd] in Hw, Hr. subst w0 r. rewrite Hpid.
  cbn [MonitorManager.truthy MonitorManager.the_pid].
  assert ((pid =? 0) = false) as -> by now apply Z.eqb_neq.
  cbn [negb].
  unfold MonitorManager.bind at 1, MonitorManager._is_process_running at 1.
  rewrite Halive. cbn [negb].
  unfold MonitorManager.try_except.
  unfold MonitorManager.bind at 1.
  assert (forall c w',
             MonitorManager.call E c w' = (Ok tt, MonitorManager.add_call c w'))
    as Hc.
  { intros c w'. unfold MonitorManager.call. now rewrite Hcall. }
  assert ((if MonitorManager.windows E
           then MonitorManager.call E (MonitorManager.Taskkill pid)
           else MonitorManager.call E
                  (MonitorManager.Kill pid MonitorManager.SIGTERM))
            (MonitorManager.add_poll w)
          = (Ok tt,
             MonitorManager.add_call
               (if MonitorManager.windows E then MonitorManager.Taskkill pid
                else MonitorManager.Kill pid MonitorManager.SIGTERM)
               (MonitorManager.add_poll w))) as ->
      by (destruct (MonitorManager.windows E); apply Hc).
  unfold MonitorManager.bind at 1. rewrite wait_for_exit_spec.
  cbn [MonitorManager.polls MonitorManager.pid_file MonitorManager.stdout
         MonitorManager.os_calls MonitorManager.add_call
         MonitorManager.add_poll].
  destruct (first_gone E pid (S (MonitorManager.polls w)) 10) as [i|].
  - unfold MonitorManager.bind at 1, MonitorManager.ret at 1.
    unfold MonitorManager.bind at 1. rewrite (_remove_pid_file_ok E _ Hunlink).
    unfold MonitorManager.bind at 1. rewrite (manager_print_ok E _ _ (Hconsole _)).
    reflexivity.
  - unfold MonitorManager.bind at 1.
    assert (forall w',
               (if MonitorManager.windows E
                then MonitorManager.call E (MonitorManager.Taskkill pid)
                else MonitorManager.call E
                       (MonitorManager.Kill pid MonitorManager.SIGKILL)) w'
               = (Ok tt,
                  MonitorManager.add_call
                    (if MonitorManager.windows E
                     then MonitorManager.Taskkill pid
                     else MonitorManager.Kill pid MonitorManager.SIGKILL) w'))
      as Hk by (intros w'; destruct (MonitorManager.windows E); apply Hc).
    rewrite Hk.
    unfold MonitorManager.bind at 1. rewrite (_remove_pid_file_ok E _ Hunlink).
    unfold MonitorManager.bind at 1. rewrite (manager_print_ok E _ _ (Hconsole _)).
    unfold MonitorManager.ret, MonitorManager.write_stdout,
      MonitorManager.set_pid_file, MonitorManager.add_call.
    cbn [MonitorManager.polls MonitorManager.pid_file MonitorManager.stdout
           MonitorManager.os_calls].
    rewrite <- app_assoc. cbn [app].
    now replace (S (MonitorManager.polls w) + 10)%nat
      with (MonitorManager.polls w + 11)%nat by lia.
Qed.

Ltac manager_unfold :=
  unfold MonitorManager.stop_monitor, MonitorManager.start_monitor,
    MonitorManager.launch, MonitorManager.popen,
    MonitorManager._write_pid_file, MonitorManager.write_text,
    MonitorManager._get_running_pid, MonitorManager._remove_pid_file,
    MonitorManager._is_process_running, MonitorManager.unlink,
    MonitorManager.read_text, MonitorManager.call, MonitorManager.print,
    MonitorManager.try_except, MonitorManager.bind, MonitorManager.gets,
    MonitorManager.ret, MonitorManager.raise, recorded_pid in *.

Ltac manager_simpl :=
  cbn [fst snd negb MonitorManager.truthy MonitorManager.the_pid
         MonitorManager.pid_file MonitorManager.stdout
         MonitorManager.os_calls MonitorManager.polls
         MonitorManager.set_pid_file MonitorManager.write_stdout
         MonitorManager.add_call MonitorManager.add_poll] in *.

Ltac manager_cases :=
  repeat (manager_simpl;
          first
            [ rewrite wait_for_exit_spec
            | match goal with
              | |- context [match ?x with _ => _ end] =>
                  lazymatch x with
                  | context [match _ with _ => _ end] => fail
                  | _ => destruct x eqn:?
                  end
              end ]).

Ltac manager_finish :=
  manager_simpl; subst; unfold terminate_call, force_call;
  repeat match goal with
         | H : negb _ = true |- _ => apply negb_true_iff in H
         | H : negb _ = false |- _ => apply negb_false_iff in H
         end;
  repeat match goal with
         | H : MonitorManager.windows _ = _ |- _ => rewrite H
         | H : (_ =? 0) = _ |- _ => rewrite H
         | H : MonitorManager.pid_exists _ _ _ = _ |- _ => rewrite H
         end;
  cbn [negb];
  repeat match goal with
         | H : Some _ = Some _ |- _ => inversion H; subst; clear H
         | H : (_ =? 0) = false |- _ => apply Z.eqb_neq in H
         | H : (_ =? 0) = true |- _ => apply Z.eqb_eq in H
         end;
  try rewrite <- !app_assoc; cbn [app];
  try solve [ intuition (try discriminate; try congruence; eauto) ].

Ltac manager_live :=
  right;
  match goal with
  | H : MonitorManager.int_of_text _ _ = Ok ?a |- _ => exists a
  end;
  manager_finish.

(** X14. [stop_monitor] ends no process but a live one named by the PID
    file: whatever the file holds and whatever raises, either no call that
    ends a process is made and the result is not [True] (then a file with no
    usable process id, absent, unreadable, not a number or 0, is left as it
    is: such a file is not removed by [stop_monitor]), or the file holds a
    process id other than 0 that [psutil.pid_exists] confirmed, and the
    calls made are the request to end that process, followed or not by the
    call that forces it, and no other.  When the result is [True] the PID
    file is gone, provided removing it did not fail. *)
Theorem stop_monitor_ends_recorded_live_process (E : MonitorManager.env)
  (w : MonitorManager.world) :
  (MonitorManager.os_calls (snd (MonitorManager.stop_monitor E w))
   = MonitorManager.os_calls w
   /\ fst (MonitorManager.stop_monitor E w) <> Ok true
   /\ (MonitorManager.truthy (recorded_pid E w) = false ->
       MonitorManager.pid_file (snd (MonitorManager.stop_monitor E w))
       = MonitorManager.pid_file w))
  \/ (exists pid,
         recorded_pid E w = Some pid /\ pid <> 0
         /\ MonitorManager.pid_exists E (MonitorManager.polls w) pid = true
         /\ (MonitorManager.os_calls (snd (MonitorManager.stop_monitor E w))
             = MonitorManager.os_calls w ++ [terminate_call E pid]
             \/ MonitorManager.os_calls (snd (MonitorManager.stop_monitor E w))
                = MonitorManager.os_calls w
                  ++ [terminate_call E pid; force_call E pid])
         /\ (fst (MonitorManager.stop_monitor E w) = Ok true ->
             MonitorManager.unlink_error E = None ->
             MonitorManager.pid_file (snd (MonitorManager.stop_monitor E w))
             = None)).
Proof.
  destruct w as [f out calls k].
  manager_unfold. manager_cases; manager_finish.
  all: try (left; manager_finish; fail).
  all: try (manager_live; fail).
Qed.

Lemma first_gone_cases (E : MonitorManager.env) (pid : Z) (n from : nat) :
  match first_gone E pid from n with
  | Some i =>
      (from <= i < from + n)%nat
      /\ MonitorManager.pid_exists E i pid = false
      /\ forall j, (from <= j < i)%nat ->
                   MonitorManager.pid_exists E j pid = true
  | None =>
      forall j, (from <= j < from + n)%nat ->
                MonitorManager.pid_exists E j pid = true
  end.
Proof.
  revert from. induction n as [|n IH]; intros from; cbn [first_gone].
  - intros j Hj. lia.
  - destruct (MonitorManager.pid_exists E from pid) eqn:Ea.
    + specialize (IH (S from)).
      destruct (first_gone E pid (S from) n) as [i|].
      * destruct IH as (Hi & Hgone & Hbefore). repeat split; try lia; auto.
        intros j Hj. destruct (Nat.eq_dec j from) as [->|Hne]; [exact Ea|].
        apply Hbefore. lia.
      * intros j Hj. destruct (Nat.eq_dec j from) as [->|Hne]; [exact Ea|].
        apply IH. lia.
    + repeat split; try lia; auto.
Qed.

(** X13. [stop_monitor] on a live monitor: when the PID file holds a
    process id other than 0, [psutil.pid_exists] confirms it, no call
    raises and the console takes the line, then [stop_monitor] asks the
    process to end, asks [psutil.pid_exists] again after each of up to ten
    waits of a second and stops asking at the first answer that the process
    is gone; the call that forces the process to end is made exactly when
    all ten answers were that it is alive.  In both cases the PID file is
    removed, the line is printed and the result is [True]: after the forced
    end [psutil.pid_exists] is not asked again. *)
Theorem stop_monitor_escalates (E : MonitorManager.env)
  (w : MonitorManager.world) (pid : Z) :
  recorded_pid E w = Some pid -> pid <> 0 ->
  MonitorManager.pid_exists E (MonitorManager.polls w) pid = true ->
  (forall n, MonitorManager.call_error E n = None) ->
  MonitorManager.unlink_error E = None ->
  (forall line, MonitorManager.console E line = None) ->
  exists calls polls,
    MonitorManager.stop_monitor E w
    = (Ok true,
       MonitorManager.mkworld None
         (MonitorManager.stdout w
          ++ ["ファイル監視を停止しました (PID: " +++ str_of_int pid +++ ")"])
         (MonitorManager.os_calls w ++ calls) polls)
    /\ ((calls = [terminate_call E pid; force_call E pid]
         /\ polls = (MonitorManager.polls w + 11)%nat
         /\ forall j, (MonitorManager.polls w < j <= MonitorManager.polls w + 10)%nat ->
                      MonitorManager.pid_exists E j pid = true)
        \/ (calls = [terminate_call E pid]
            /\ (MonitorManager.polls w + 1 < polls
                <= MonitorManager.polls w + 11)%nat
            /\ MonitorManager.pid_exists E (pred polls) pid = false
            /\ forall j, (MonitorManager.polls w < j < pred polls)%nat ->
                         MonitorManager.pid_exists E j pid = true)).
Proof.
  intros Hpid Hnz Halive Hcall Hunlink Hconsole.
  rewrite (stop_monitor_live E w pid Hpid Hnz Halive Hcall Hunlink Hconsole).
  pose proof (first_gone_cases E pid 10 (S (MonitorManager.polls w))) as Hg.
  destruct (first_gone E pid (S (MonitorManager.polls w)) 10) as [i|].
  - destruct Hg as (Hi & Hgone & Hbefore).
    exists [terminate_call E pid], (S i). split; [reflexivity|]. right.
    cbn [pred]. split; [reflexivity|]. split; [lia|]. split; [exact Hgone|].
    intros j Hj. apply Hbefore. lia.
  - exists [terminate_call E pid; force_call E pid],
      (MonitorManager.polls w + 11)%nat.
    split; [reflexivity|]. left. split; [reflexivity|]. split; [reflexivity|].
    intros j Hj. apply Hg. lia.
Qed.

Lemma stop_monitor_escalates_witness :
  exists calls polls,
    MonitorManager.stop_monitor sample_env running_world
    = (Ok true,
       MonitorManager.mkworld None ["ファイル監視を停止しました (PID: 4242)"]
         calls polls).
Proof.
  destruct (stop_monitor_escalates sample_env running_world 4242)
    as (calls & polls & Heq & _); try reflexivity; [discriminate|].
  exists calls, polls. exact Heq.
Defined.

Lemma launch_cases (E : MonitorManager.env) (w : MonitorManager.world) :
  (MonitorManager.os_calls (snd (MonitorManager.launch E w))
   = MonitorManager.os_calls w
   \/ MonitorManager.os_calls (snd (MonitorManager.launch E w))
      = MonitorManager.os_calls w
        ++ [MonitorManager.Popen (MonitorManager.windows E)])
  /\ (fst (MonitorManager.launch E w) = Ok true ->
      MonitorManager.os_calls (snd (MonitorManager.launch E w))
      = MonitorManager.os_calls w
        ++ [MonitorManager.Popen (MonitorManager.windows E)]
      /\ exists pid,
          MonitorManager.popen_result E = Ok pid
          /\ MonitorManager.pid_exists E
               (pred (MonitorManager.polls (snd (MonitorManager.launch E w))))
               pid
             = true
          /\ (MonitorManager.write_error E = None ->
              MonitorManager.pid_file (snd (MonitorManager.launch E w))
              = Some (str_of_int pid)))
  /\ (fst (MonitorManager.launch E w) = Ok false ->
      MonitorManager.unlink_error E = None ->
      MonitorManager.os_calls (snd (MonitorManager.launch E w))
      = MonitorManager.os_calls w
        ++ [MonitorManager.Popen (MonitorManager.windows E)] ->
      MonitorManager.pid_file (snd (MonitorManager.launch E w)) = None).
Proof.
  destruct w as [f out calls k].
  manager_unfold. manager_cases; manager_finish.
  all: repeat split; intros; manager_finish.
  all: try (exfalso;
            match goal with
            | H : ?l = ?l ++ _ |- _ =>
                apply (f_equal (@List.length _)) in H;
                rewrite length_app in H; cbn in H; lia
            end).
  all: try (eexists; split; [reflexivity|]; cbn [pred];
            split; [assumption|intros; congruence]).
Qed.

(** X15. [start_monitor] starts at most one process, and none beside a
    live one: whatever the PID file holds and whatever raises, the calls
    made are none, or the one [Popen] of the monitor; when the PID file
    holds a process id other than 0 that [psutil.pid_exists] confirms,
    nothing is started, the PID file is left as it is and the result is not
    [True].  When the result is [True], a process was started, it was found
    alive after the wait, and the PID file holds its process id (if writing
    the file did not fail).  When a process was started and the result is
    [False], no PID file is left (if removing it did not fail). *)
Theorem start_monitor_outcome (E : MonitorManager.env)
  (w : MonitorManager.world) :
  (MonitorManager.os_calls (snd (MonitorManager.start_monitor E w))
   = MonitorManager.os_calls w
   \/ MonitorManager.os_calls (snd (MonitorManager.start_monitor E w))
      = MonitorManager.os_calls w
        ++ [MonitorManager.Popen (MonitorManager.windows E)])
  /\ (forall pid,
         recorded_pid E w = Some pid -> pid <> 0 ->
         MonitorManager.pid_exists E (MonitorManager.polls w) pid = true ->
         MonitorManager.os_calls (snd (MonitorManager.start_monitor E w))
         = MonitorManager.os_calls w
         /\ MonitorManager.pid_file (snd (MonitorManager.start_monitor E w))
            = MonitorManager.pid_file w
         /\ fst (MonitorManager.start_monitor E w) <> Ok true)
  /\ (fst (MonitorManager.start_monitor E w) = Ok true ->
      MonitorManager.os_calls (snd (MonitorManager.start_monitor E w))
      = MonitorManager.os_calls w
        ++ [MonitorManager.Popen (MonitorManager.windows E)]
      /\ exists pid,
          MonitorManager.popen_result E = Ok pid
          /\ MonitorManager.pid_exists E
               (pred (MonitorManager.polls
                        (snd (MonitorManager.start_monitor E w)))) pid
             = true
          /\ (MonitorManager.write_error E = None ->
              MonitorManager.pid_file (snd (MonitorManager.start_monitor E w))
              = Some (str_of_int pid)))
  /\ (fst (MonitorManager.start_monitor E w) = Ok false ->
      MonitorManager.unlink_error E = None ->
      MonitorManager.os_calls (snd (MonitorManager.start_monitor E w))
      = MonitorManager.os_calls w
        ++ [MonitorManager.Popen (MonitorManager.windows E)] ->
      MonitorManager.pid_file (snd (MonitorManager.start_monitor E w)) = None).
Proof.
  destruct w as [f out calls k].
  unfold MonitorManager.start_monitor, MonitorManager._get_running_pid,
    MonitorManager._remove_pid_file, MonitorManager._is_process_running,
    MonitorManager.unlink, MonitorManager.read_text, MonitorManager.print,
    MonitorManager.try_except, MonitorManager.bind, MonitorManager.gets,
    MonitorManager.ret, MonitorManager.raise, recorded_pid.
  manager_cases; manager_simpl;
    try match goal with
      | |- context [MonitorManager.launch E ?w'] =>
          pose proof (launch_cases E w') as (Hc & Ht & Hf);
          destruct (MonitorManager.launch E w') as [r w'']
      end;
    manager_finish.
  all: repeat split; intros; manager_finish.
  all: exfalso;
    match goal with
    | H : ?l = ?l ++ _ |- _ =>
        apply (f_equal (@List.length _)) in H;
        rewrite length_app in H; cbn in H; lia
    end.
Qed.

(** X16. What [start_monitor] writes, [stop_monitor] reads: when
    [start_monitor] returned [True], writing the PID file did not fail, the
    file is read, and [int] turns the text [str(pid)] of the started
    process's id back into [pid], not 0, then the PID file holds that
    process id, and a [stop_monitor] that follows while the process is alive
    (no call raising, the console taking the line) ends this very process,
    removes the PID file and returns [True]; the calls made by the two are
    the start of the process, the request to end it and, if it was alive at
    all ten polls, the call that forces it. *)
Theorem start_monitor_then_stop_monitor (E : MonitorManager.env)
  (w w1 : MonitorManager.world) :
  MonitorManager.start_monitor E w = (Ok true, w1) ->
  MonitorManager.write_error E = None ->
  MonitorManager.read_error E = None ->
  (forall pid, MonitorManager.popen_result E = Ok pid ->
               MonitorManager.int_of_text E (str_of_int pid) = Ok pid
               /\ pid <> 0) ->
  exists pid,
    MonitorManager.popen_result E = Ok pid
    /\ recorded_pid E w1 = Some pid
    /\ (MonitorManager.pid_exists E (MonitorManager.polls w1) pid = true ->
        (forall n, MonitorManager.call_error E n = None) ->
        MonitorManager.unlink_error E = None ->
        (forall line, MonitorManager.console E line = None) ->
        fst (MonitorManager.stop_monitor E w1) = Ok true
        /\ MonitorManager.pid_file (snd (MonitorManager.stop_monitor E w1))
           = None
        /\ exists forced,
            MonitorManager.os_calls (snd (MonitorManager.stop_monitor E w1))
            = MonitorManager.os_calls w
              ++ MonitorManager.Popen (MonitorManager.windows E)
                 :: terminate_call E pid :: forced
            /\ (forced = [] \/ forced = [force_call E pid])).
Proof.
  intros Hstart Hwrite Hread Hint.
  assert (exists pid,
             MonitorManager.popen_result E = Ok pid
             /\ MonitorManager.pid_file w1 = Some (str_of_int pid)
             /\ MonitorManager.os_calls w1
                = MonitorManager.os_calls w
                  ++ [MonitorManager.Popen (MonitorManager.windows E)])
    as (pid & Hpopen & Hfile & Hcalls).
  { assert (forall w0,
               fst (MonitorManager.launch E w0) = Ok true ->
               exists pid,
                 MonitorManager.popen_result E = Ok pid
                 /\ MonitorManager.pid_file (snd (MonitorManager.launch E w0))
                    = Some (str_of_int pid)
                 /\ MonitorManager.os_calls (snd (MonitorManager.launch E w0))
                    = MonitorManager.os_calls w0
                      ++ [MonitorManager.Popen (MonitorManager.windows E)])
      as Hlaunch.
    { intros w0 Ht.
      destruct (launch_cases E w0) as (_ & Hl & _).
      destruct (Hl Ht) as (Hc & pid & Hp & _ & Hf).
      exists pid. auto. }
    revert Hstart. destruct w as [f out calls k].
    unfold MonitorManager.start_monitor, MonitorManager._get_running_pid,
      MonitorManager._remove_pid_file, MonitorManager._is_process_running,
      MonitorManager.unlink, MonitorManager.read_text, MonitorManager.print,
      MonitorManager.try_except, MonitorManager.bind, MonitorManager.gets,
      MonitorManager.ret, MonitorManager.raise.
    manager_cases; manager_simpl; intros Hstart; try discriminate;
      match type of Hstart with
      | MonitorManager.launch E ?w0 = _ =>
          specialize (Hlaunch w0); rewrite Hstart in Hlaunch;
          exact (Hlaunch eq_refl)
      end. }
  destruct (Hint pid Hpopen) as [Hparse Hnz].
  assert (recorded_pid E w1 = Some pid) as Hrec.
  { unfold recorded_pid. now rewrite Hfile, Hread, Hparse. }
  exists pid. split; [exact Hpopen|]. split; [exact Hrec|].
  intros Halive Hcall Hunlink Hconsole.
  rewrite (stop_monitor_live E w1 pid Hrec Hnz Halive Hcall Hunlink Hconsole).
  cbn [fst snd MonitorManager.pid_file MonitorManager.os_calls].
  split; [reflexivity|]. split; [reflexivity|].
  rewrite Hcalls, <- app_assoc. cbn [app]. fold (terminate_call E pid).
  destruct (first_gone E pid (S (MonitorManager.polls w1)) 10).
  - exists []. split; [reflexivity|now left].
  - exists [force_call E pid]. split; [reflexivity|now right].
Qed.

Lemma start_monitor_then_stop_monitor_witness :
  exists pid,
    MonitorManager.popen_result sample_env = Ok pid
    /\ recorded_pid sample_env
         (snd (MonitorManager.start_monitor sample_env empty_world))
       = Some pid.
Proof.
  destruct (start_monitor_then_stop_monitor sample_env empty_world
              (snd (MonitorManager.start_monitor sample_env empty_world)))
    as (pid & Hp & Hr & _); try reflexivity.
  - intros pid Hp. inversion Hp. split; [reflexivity|discriminate].
  - exists pid. split; assumption.
Defined.
